(** * mybind: applying key binds of one Myau configuration to others

    A shallow embedding of [mybind.py].  Python objects live in a store and
    are passed by reference, so the merge is modelled over an explicit heap:
    [apply_binds] mutates the target document in place and shares the copied
    ['key'] values with the source document. *)

From Stdlib Require Import ZArith Ascii String.
From stdpp Require Import base option list strings gmap.

Open Scope string_scope.
Open Scope list_scope.
Open Scope nat_scope.

(** ** Python values and the object store *)

Abbreviation loc := nat.

(** What [json.load] can produce: immutable scalars are values, dicts and
    lists are objects in the store, denoted by their address. A float is
    kept as its IEEE-754 bit pattern: the program never computes with it. *)
Inductive val :=
| VNone
| VBool (b : bool)
| VInt (z : Z)
| VFloat (bits : Z)
| VStr (s : string)
| VRef (l : loc).

Abbreviation dict := (list (string * val)).

(** A dict keeps its items in insertion order. *)
Inductive obj :=
| ODict (items : dict)
| OList (elems : list val).

Abbreviation heap := (list obj).

#[global] Instance val_eq_dec : EqDecision val.
Proof. solve_decision. Defined.

#[global] Instance obj_eq_dec : EqDecision obj.
Proof. solve_decision. Defined.

(** ** Exceptions *)

Inductive exn :=
| AttributeError
| TypeError
| KeyError
| ValueError
| RuntimeError
| LoadError (path : string)   (* err_load dialog, then sys.exit(1) *)
| SaveError (path : string)   (* err_save dialog, then sys.exit(1) *)
| Cancelled.                  (* cancelled dialog, then sys.exit(0) *)

Inductive outcome (A : Type) :=
| Ok (a : A)
| Raise (e : exn).

Arguments Ok {A} a.
Arguments Raise {A} e.

#[global] Instance outcome_ret : MRet outcome := λ A a, Ok a.

#[global] Instance outcome_bind : MBind outcome := λ A B f m,
  match m with
  | Ok a => f a
  | Raise e => Raise e
  end.

(** ** Dict operations *)

(** [d.get(k)] *)
Fixpoint dict_get (k : string) (d : dict) : option val :=
  match d with
  | [] => None
  | (k', v) :: rest => if decide (k = k') then Some v else dict_get k rest
  end.

(** [d[k] = v]: an existing key keeps its position, a new one goes last. *)
Fixpoint dict_set (k : string) (v : val) (d : dict) : dict :=
  match d with
  | [] => [(k, v)]
  | (k', v') :: rest =>
      if decide (k = k') then (k, v) :: rest else (k', v') :: dict_set k v rest
  end.

(** [d.pop(k, None)] *)
Fixpoint dict_pop (k : string) (d : dict) : dict :=
  match d with
  | [] => []
  | (k', v') :: rest =>
      if decide (k = k') then rest else (k', v') :: dict_pop k rest
  end.

(** The items of [v] when [v] is a dict. *)
Definition dict_of (h : heap) (v : val) : option dict :=
  match v with
  | VRef l => match h !! l with Some (ODict d) => Some d | _ => None end
  | _ => None
  end.

(** [isinstance(v, dict)] *)
Definition is_dict (h : heap) (v : val) : bool :=
  match dict_of h v with Some _ => true | None => false end.

(** [k in o] for a string [k] *)
Definition contains (h : heap) (o : val) (k : string) : outcome bool :=
  match o with
  | VRef l =>
      match h !! l with
      | Some (ODict d) => Ok (bool_decide (is_Some (dict_get k d)))
      | Some (OList elems) => Ok (bool_decide (VStr k ∈ elems))
      | None => Raise TypeError
      end
  | VStr s => Ok (bool_decide (is_Some (String.index 0 k s)))
  | _ => Raise TypeError
  end.

(** [o[k]] for a string [k] *)
Definition getitem (h : heap) (o : val) (k : string) : outcome val :=
  match dict_of h o with
  | Some d => match dict_get k d with Some v => Ok v | None => Raise KeyError end
  | None => Raise TypeError
  end.

(** [o[k] = v] for a string [k] *)
Definition setitem (h : heap) (o : val) (k : string) (v : val) : outcome heap :=
  match o with
  | VRef l =>
      match h !! l with
      | Some (ODict d) => Ok (<[l := ODict (dict_set k v d)]> h)
      | _ => Raise TypeError
      end
  | _ => Raise TypeError
  end.

(** [{}]: a new empty dict, at an address not in use. *)
Definition new_dict (h : heap) : heap * val :=
  (h ++ [ODict []], VRef (length h)).

(** ** apply_binds *)

(** Body of the first loop:
    [if isinstance(params, dict): params.pop("key", None)] *)
Definition strip_entry (h : heap) (params : val) : heap :=
  match params with
  | VRef l =>
      match h !! l with
      | Some (ODict fields) => <[l := ODict (dict_pop "key" fields)]> h
      | _ => h
      end
  | _ => h
  end.

(** [# 1) remove]: the loop runs over [list(dst_cfg.items())], a snapshot. *)
Definition strip_pass (h : heap) (dst_cfg : val) : outcome heap :=
  match dict_of h dst_cfg with
  | None => Raise AttributeError
  | Some its => Ok (foldl (λ h it, strip_entry h it.2) h its)
  end.

(** Body of the second loop. *)
Definition copy_entry (h : heap) (dst_cfg : val) (module : string)
    (src_params : val) : outcome heap :=
  present ← contains h dst_cfg module;
  if present && is_dict h src_params
     && bool_decide (is_Some (dict_of h src_params ≫= dict_get "key")) then
    cur ← getitem h dst_cfg module;
    h1 ← (if is_dict h cur then Ok h
          else let '(h', d) := new_dict h in setitem h' dst_cfg module d);
    k ← getitem h1 src_params "key";
    entry ← getitem h1 dst_cfg module;
    setitem h1 entry "key" k
  else Ok h.

(** [for module, src_params in src_cfg.items()]: a live view of the dict.
    Each step first checks that the dict kept its size (RuntimeError
    otherwise), then yields the item at the next position, read from the
    store as it is then. [n] bounds the steps left. *)
Fixpoint copy_loop (n i used : nat) (h : heap) (src_cfg dst_cfg : val)
    : outcome heap :=
  match dict_of h src_cfg with
  | None => Raise TypeError
  | Some its =>
      if negb (bool_decide (length its = used)) then Raise RuntimeError
      else
        match n with
        | 0 => Ok h
        | S n' =>
            match its !! i with
            | None => Ok h
            | Some (module, src_params) =>
                h' ← copy_entry h dst_cfg module src_params;
                copy_loop n' (S i) used h' src_cfg dst_cfg
            end
        end
  end.

(** [# 2) copy] *)
Definition copy_pass (h : heap) (src_cfg dst_cfg : val) : outcome heap :=
  match dict_of h src_cfg with
  | None => Raise AttributeError
  | Some its => copy_loop (length its) 0 (length its) h src_cfg dst_cfg
  end.

Definition apply_binds (h : heap) (src_cfg dst_cfg : val)
    : outcome (heap * val) :=
  h1 ← strip_pass h dst_cfg;
  h2 ← copy_pass h1 src_cfg dst_cfg;
  Ok (h2, dst_cfg).

(** The passes in the other order, for comparison. *)
Definition apply_binds_swapped (h : heap) (src_cfg dst_cfg : val)
    : outcome (heap * val) :=
  h1 ← copy_pass h src_cfg dst_cfg;
  h2 ← strip_pass h1 dst_cfg;
  Ok (h2, dst_cfg).

(** ** Reading documents in the store *)

(** [v[f]] when [v] is a dict that has the field [f]. *)
Definition field (h : heap) (v : val) (f : string) : option val :=
  dict_of h v ≫= dict_get f.

(** [doc[m]] when [doc] is a dict that has the module [m]. *)
Definition entry (h : heap) (doc : val) (m : string) : option val :=
  dict_of h doc ≫= dict_get m.

(** [doc[m][f]] when both lookups succeed. *)
Definition field_of (h : heap) (doc : val) (m f : string) : option val :=
  entry h doc m ≫= λ e, field h e f.

(** Addresses of the module entries of a document that are dicts. *)
Definition entry_locs (h : heap) (its : dict) : list loc :=
  omap (λ it, match it.2 with
              | VRef l => if is_dict h (VRef l) then Some l else None
              | _ => None
              end) its.

(** The dicts a document is made of: the document and its mapping entries. *)
Definition dicts_of (h : heap) (d : loc) (its : dict) : list loc :=
  d :: entry_locs h its.

(** Well-formed stores: a dict has each key once, and every reference
    points to an object. *)
Definition val_ok (n : nat) (v : val) : Prop :=
  match v with VRef l => l < n | _ => True end.

Definition obj_ok (n : nat) (o : obj) : Prop :=
  match o with
  | ODict d => NoDup d.*1 ∧ Forall (val_ok n) d.*2
  | OList vs => Forall (val_ok n) vs
  end.

Definition heap_ok (h : heap) : Prop := Forall (obj_ok (length h)) h.

#[global] Instance val_ok_dec n v : Decision (val_ok n v).
Proof. destruct v; simpl; apply _. Defined.

#[global] Instance obj_ok_dec n o : Decision (obj_ok n o).
Proof. destruct o; simpl; apply _. Defined.

#[global] Instance heap_ok_dec h : Decision (heap_ok h).
Proof. unfold heap_ok; apply _. Defined.

(** Two documents as two calls of [json.load] leave them
    ([json_load_separate]): [s] and [d] are dicts, the target is a tree on
    its first two levels (no entry is the document itself or shared between
    two modules), and no dict of the target is a dict of the source. *)
Record separate (h : heap) (s : loc) (sits : dict) (d : loc) (dits : dict)
    : Prop := Separate {
  sep_ok : heap_ok h;
  sep_src : h !! s = Some (ODict sits);
  sep_dst : h !! d = Some (ODict dits);
  sep_tree : NoDup (dicts_of h d dits);
  sep_apart : Forall (λ l, l ∉ dicts_of h d dits) (dicts_of h s sits)
}.

(** ** Invariants of the two passes *)

(** What [separate] gives, in the form the passes keep. *)
Record inv (h : heap) (s : loc) (sits : dict) (d : loc) (dits : dict)
    : Prop := Inv {
  inv_ok : heap_ok h;
  inv_src : h !! s = Some (ODict sits);
  inv_dst : h !! d = Some (ODict dits);
  inv_ne : s ≠ d;
  inv_dst_self : ∀ m, dict_get m dits ≠ Some (VRef d);
  inv_dst_src : ∀ m, dict_get m dits ≠ Some (VRef s);
  inv_src_dst : ∀ m, dict_get m sits ≠ Some (VRef d);
  inv_apart : ∀ m m' l,
    dict_get m sits = Some (VRef l) → dict_get m' dits = Some (VRef l) →
    is_dict h (VRef l) = false;
  inv_inj : ∀ m m' l,
    dict_get m dits = Some (VRef l) → dict_get m' dits = Some (VRef l) →
    is_dict h (VRef l) = true → m = m'
}.

(** What the strip pass changes between [h] and [h1], for the target
    items [dits]. *)
Record stripped (h : heap) (dits : dict) (h1 : heap) : Prop := Stripped {
  st_length : length h1 = length h;
  st_is_dict : ∀ v, is_dict h1 v = is_dict h v;
  st_frame : ∀ l, l ∉ entry_locs h dits → h1 !! l = h !! l;
  st_field : ∀ v f, f ≠ "key" → field h1 v f = field h v f;
  st_key_None : ∀ v, field h v "key" = None → field h1 v "key" = None
}.

(** The store after the copy loop has put a new dict holding [k] in place
    of the entry of [m]. *)
Definition renewed (h : heap) (d : loc) (dits : dict) (m : string) (k : val)
    : heap :=
  <[length h := ODict [("key", k)]]>
    (<[d := ODict (dict_set m (VRef (length h)) dits)]> (h ++ [ODict []])).

(** The three things the body of the copy loop can do to the store [h] and
    to the items [dits] of the target: nothing, set ['key'] in the entry
    the module has, or put a new dict in place of an entry that is not one. *)
Inductive copy_step (h : heap) (d : loc) (dits : dict) (m : string) (sp : val)
    : heap → dict → Prop :=
| step_skip :
    dict_get m dits = None ∨ field h sp "key" = None →
    copy_step h d dits m sp h dits
| step_set e fs k :
    dict_get m dits = Some (VRef e) → h !! e = Some (ODict fs) →
    field h sp "key" = Some k →
    copy_step h d dits m sp (<[e := ODict (dict_set "key" k fs)]> h) dits
| step_new cur k :
    dict_get m dits = Some cur → is_dict h cur = false →
    field h sp "key" = Some k →
    copy_step h d dits m sp
      (renewed h d dits m k) (dict_set m (VRef (length h)) dits).

(** What one step at module [m] changes. *)
Record step_effect (h : heap) (d : loc) (dits : dict) (m : string) (sp : val)
    (h' : heap) (dits' : dict) : Prop := StepEffect {
  se_names : dits'.*1 = dits.*1;
  se_length : length h ≤ length h';
  se_is_dict : ∀ l, l < length h → is_dict h' (VRef l) = is_dict h (VRef l);
  se_frame : ∀ l,
    l < length h → l ≠ d →
    (∀ e, dict_get m dits = Some (VRef e) → is_dict h (VRef e) = true → l ≠ e) →
    h' !! l = h !! l;
  se_entries : ∀ m0 e,
    dict_get m0 dits' = Some (VRef e) → is_dict h' (VRef e) = true →
    length h ≤ e ∨ (dict_get m0 dits = Some (VRef e) ∧ is_dict h (VRef e) = true);
  se_field : ∀ m0 f,
    f ≠ "key" → field_of h' (VRef d) m0 f = field_of h (VRef d) m0 f;
  se_other : ∀ m0,
    m0 ≠ m →
    dict_get m0 dits' = dict_get m0 dits ∧
    (∀ x, dict_get m0 dits = Some x → dict_of h' x = dict_of h x);
  se_key : ∀ k cur,
    field h sp "key" = Some k → dict_get m dits = Some cur →
    ∃ e, dict_get m dits' = Some e ∧ field h' e "key" = Some k ∧
         (is_dict h cur = false → dict_of h' e = Some [("key", k)]);
  se_skip :
    dict_get m dits = None ∨ field h sp "key" = None → h' = h ∧ dits' = dits
}.

(** State of the copy loop before its [i]-th step: [h1] is the store the
    loop started in (after the strip pass), [dits] the items of the target
    then; [h] and [dits'] are the store and the items now. *)
Record progress (h1 : heap) (s d : loc) (sits dits : dict)
    (i : nat) (h : heap) (dits' : dict) : Prop := Progress {
  pr_inv : inv h s sits d dits';
  pr_names : dits'.*1 = dits.*1;
  pr_length : length h1 ≤ length h;
  pr_frame : ∀ l,
    l < length h1 → l ≠ d → l ∉ entry_locs h1 dits → h !! l = h1 !! l;
  pr_is_dict : ∀ l, l < length h1 → is_dict h (VRef l) = is_dict h1 (VRef l);
  pr_entries : ∀ m e,
    dict_get m dits' = Some (VRef e) → is_dict h (VRef e) = true →
    length h1 ≤ e ∨ e ∈ entry_locs h1 dits;
  pr_field : ∀ m f,
    f ≠ "key" → field_of h (VRef d) m f = field_of h1 (VRef d) m f;
  pr_todo : ∀ m,
    (∀ j sp, sits !! j = Some (m, sp) → j < i → field h1 sp "key" = None) →
    dict_get m dits' = dict_get m dits ∧
    (∀ e, dict_get m dits = Some e → dict_of h e = dict_of h1 e);
  pr_done : ∀ m j sp k cur,
    sits !! j = Some (m, sp) → j < i → field h1 sp "key" = Some k →
    dict_get m dits = Some cur →
    ∃ e, dict_get m dits' = Some e ∧ field h e "key" = Some k ∧
         (is_dict h1 cur = false → dict_of h e = Some [("key", k)])
}.

(** ** JSON documents *)

(** A JSON text, as a tree. Its induction principle is [json_tree_ind],
    below. *)
#[local] Unset Elimination Schemes.
Inductive json :=
| JNull
| JBool (b : bool)
| JInt (z : Z)
| JFloat (bits : Z)
| JStr (s : string)
| JArr (elems : list json)
| JObj (members : list (string * json)).
#[local] Set Elimination Schemes.

(** [json.dump]: the tree of the object graph under [v]. The traversal has
    [n] levels at its disposal; it fails on a graph that is deeper, as a
    circular one is (ValueError, RecursionError). *)
Fixpoint json_dump (n : nat) (h : heap) (v : val) : option json :=
  match v with
  | VNone => Some JNull
  | VBool b => Some (JBool b)
  | VInt z => Some (JInt z)
  | VFloat x => Some (JFloat x)
  | VStr s => Some (JStr s)
  | VRef l =>
      match n with
      | 0 => None
      | S n' =>
          match h !! l with
          | Some (ODict its) =>
              JObj <$> mapM (λ it, pair it.1 <$> json_dump n' h it.2) its
          | Some (OList vs) => JArr <$> mapM (json_dump n' h) vs
          | None => None
          end
      end
  end.

(** The objects that traversal visits. *)
Fixpoint reach (n : nat) (h : heap) (v : val) : list loc :=
  match v, n with
  | VRef l, S n' =>
      l :: match h !! l with
           | Some (ODict its) => its.*2 ≫= reach n' h
           | Some (OList vs) => vs ≫= reach n' h
           | None => []
           end
  | _, _ => []
  end.

(** ** Files, and the two JSON helpers *)

(** What [json.load] makes of a file that can be read: a JSON text parses to
    its tree, any other content does not parse. *)
Inductive file :=
| NotJson
| JsonText (j : json).

(** The files that can be read, by path, and the object store. *)
Record world := World {
  files : gmap string file;
  store : heap
}.

(** Statements of [main]: they change the world and return or raise. After
    an exception the process ends, and only the files matter. *)
Definition io (A : Type) : Type := world → world * outcome A.

#[global] Instance io_ret : MRet io := λ A a w, (w, Ok a).

#[global] Instance io_bind : MBind io := λ A B f m w,
  match m w with
  | (w', Ok a) => f a w'
  | (w', Raise e) => (w', Raise e)
  end.

(** A computation on the store alone. *)
Definition in_store {A} (f : heap → outcome (heap * A)) : io A := λ w,
  match f (store w) with
  | Ok (h, a) => (World (files w) h, Ok a)
  | Raise e => (w, Raise e)
  end.

(** [dict(pairs)]: a name that occurs twice keeps its last value. *)
Definition dict_build (its : dict) : dict :=
  foldl (λ d it, dict_set it.1 it.2 d) [] its.

(** The objects [json.load] builds for a tree, new ones for every call. *)
Fixpoint json_load (j : json) (h : heap) : heap * val :=
  match j with
  | JNull => (h, VNone)
  | JBool b => (h, VBool b)
  | JInt z => (h, VInt z)
  | JFloat x => (h, VFloat x)
  | JStr s => (h, VStr s)
  | JArr js =>
      let '(h', vs) :=
        (fix elems js h :=
           match js with
           | [] => (h, [])
           | j :: js =>
               let '(h1, v) := json_load j h in
               let '(h2, vs) := elems js h1 in (h2, v :: vs)
           end) js h in
      (h' ++ [OList vs], VRef (length h'))
  | JObj ms =>
      let '(h', its) :=
        (fix members ms h :=
           match ms with
           | [] => (h, [])
           | (k, j) :: ms =>
               let '(h1, v) := json_load j h in
               let '(h2, its) := members ms h1 in (h2, (k, v) :: its)
           end) ms h in
      (h' ++ [ODict (dict_build its)], VRef (length h'))
  end.

(** The two inner loops of [json_load], by name. *)
Fixpoint load_elems (js : list json) (h : heap) : heap * list val :=
  match js with
  | [] => (h, [])
  | j :: js =>
      let '(h1, v) := json_load j h in
      let '(h2, vs) := load_elems js h1 in (h2, v :: vs)
  end.

Fixpoint load_members (ms : list (string * json)) (h : heap) : heap * dict :=
  match ms with
  | [] => (h, [])
  | (k, j) :: ms =>
      let '(h1, v) := json_load j h in
      let '(h2, its) := load_members ms h1 in (h2, (k, v) :: its)
  end.

(** The addresses among some values. *)
Definition refs (vs : list val) : list loc :=
  omap (λ v, match v with VRef l => Some l | _ => None end) vs.

Arguments refs : simpl never.

(** Induction on JSON trees, with the hypothesis for the subtrees. *)
Fixpoint json_tree_ind (P : json → Prop)
    (Hnull : P JNull) (Hbool : ∀ b, P (JBool b)) (Hint : ∀ z, P (JInt z))
    (Hfloat : ∀ x, P (JFloat x)) (Hstr : ∀ s, P (JStr s))
    (Harr : ∀ js, Forall P js → P (JArr js))
    (Hobj : ∀ ms, Forall (λ m, P m.2) ms → P (JObj ms))
    (j : json) : P j :=
  match j with
  | JNull => Hnull
  | JBool b => Hbool b
  | JInt z => Hint z
  | JFloat x => Hfloat x
  | JStr s => Hstr s
  | JArr js =>
      Harr js
        ((fix go js : Forall P js :=
            match js with
            | [] => Forall_nil_2 P
            | j :: js =>
                Forall_cons_2 P j js
                  (json_tree_ind P Hnull Hbool Hint Hfloat Hstr Harr Hobj j)
                  (go js)
            end) js)
  | JObj ms =>
      Hobj ms
        ((fix go ms : Forall (λ m, P m.2) ms :=
            match ms with
            | [] => Forall_nil_2 _
            | m :: ms =>
                Forall_cons_2 (λ m, P m.2) m ms
                  (json_tree_ind P Hnull Hbool Hint Hfloat Hstr Harr Hobj m.2)
                  (go ms)
            end) ms)
  end.

(** What [json.load] adds to the store [h]: new objects after the old
    ones, all well formed, and a value that is in the store and not an old
    object. *)
Record loaded (h h' : heap) (v : val) : Prop := Loaded {
  ld_ext : ∃ ext, h' = h ++ ext ∧ Forall (obj_ok (length h')) ext;
  ld_val : val_ok (length h') v;
  ld_fresh : ∀ l, v = VRef l → length h ≤ l
}.

(** What a loop of [json.load] adds: as [loaded], for each value, and no
    object is in two of the values. *)
Definition loaded_all (h h' : heap) (vs : list val) : Prop :=
  (∃ ext, h' = h ++ ext ∧ Forall (obj_ok (length h')) ext) ∧
  Forall (λ v, val_ok (length h') v ∧ ∀ l, v = VRef l → length h ≤ l) vs ∧
  NoDup (refs vs).

(** [load_json(path)]: any exception of [open] or [json.load] ends the run
    with the err_load dialog. *)
Definition load_json (path : string) : io val := λ w,
  match files w !! path with
  | Some (JsonText j) =>
      let '(h, v) := json_load j (store w) in (World (files w) h, Ok v)
  | _ => (w, Raise (LoadError path))
  end.

(** [pattern.format(base=base)], for a pattern made of text, [{{], [}}] and
    the field [{base}]. [field] is the name read so far inside braces. Any
    other field fails here; conversions and format specifications are not
    modelled. *)
Fixpoint str_format (pattern : string) (field : option string) (base : string)
    : outcome string :=
  match field, pattern with
  | None, EmptyString => Ok EmptyString
  | None, String "{"%char (String "{"%char rest) =>
      s ← str_format rest None base; Ok (String "{"%char s)
  | None, String "{"%char rest => str_format rest (Some EmptyString) base
  | None, String "}"%char (String "}"%char rest) =>
      s ← str_format rest None base; Ok (String "}"%char s)
  | None, String "}"%char _ => Raise ValueError
  | None, String c rest => s ← str_format rest None base; Ok (String c s)
  | Some name, EmptyString => Raise ValueError
  | Some name, String "}"%char rest =>
      if decide (name = "base") then
        s ← str_format rest None base; Ok (base +:+ s)
      else Raise KeyError
  | Some name, String c rest =>
      str_format rest (Some (name +:+ String c EmptyString)) base
  end.

(** The functions of [os.path] that [main] calls. Which ones they are
    depends on the platform. *)
Record os_path := OsPath {
  basename : string → string;
  dirname : string → string;
  splitext : string → string * string;
  join : string → string → string
}.

Section batch.
(** The platform: the path functions, the paths that can be opened for
    writing, and the nesting depth [json.dump] can handle. *)
Variable os : os_path.
Variable can_write : string → bool.
Variable depth : nat.

(** The user-tunable constants. *)
Variable ASK_WHERE_TO_SAVE : bool.
Variable OUTPUT_NAME_PATTERN : string.

(** [save_json(obj, path)]: [open(path, "w")] empties the file, then
    [json.dump] writes it. Any exception ends the run with the err_save
    dialog. *)
Definition save_json (obj : val) (path : string) : io () := λ w,
  if can_write path then
    match json_dump depth (store w) obj with
    | Some j => (World (<[path := JsonText j]> (files w)) (store w), Ok ())
    | None => (World (<[path := NotJson]> (files w)) (store w),
               Raise (SaveError path))
    end
  else (w, Raise (SaveError path)).

(** Truth value of what a dialog returned. *)
Definition chosen (answer : option string) : bool :=
  match answer with
  | Some path => negb (bool_decide (path = ""))
  | None => false
  end.

(** [os.path.join(os.path.dirname(dst_path),
                  OUTPUT_NAME_PATTERN.format(base=base))] *)
Definition pattern_path (out_dir : string) (dst_path : string)
    : outcome string :=
  let '(base, _ext) := splitext os (basename os dst_path) in
  name ← str_format OUTPUT_NAME_PATTERN None base;
  Ok (join os out_dir name).

(** [# Determine out_path] *)
Definition out_path_of (n_targets : nat)
    (chosen_out_file chosen_out_dir : option string) (dst_path : string)
    : outcome string :=
  if negb ASK_WHERE_TO_SAVE then
    pattern_path (dirname os dst_path) dst_path
  else if bool_decide (n_targets = 1) then
    if chosen chosen_out_file then Ok (default "" chosen_out_file)
    else pattern_path (dirname os dst_path) dst_path
  else
    pattern_path
      (if chosen chosen_out_dir then default "" chosen_out_dir
       else dirname os dst_path)
      dst_path.

(** Body of the loop over [dst_paths]. *)
Definition process_target (src_cfg : val) (n_targets : nat)
    (chosen_out_file chosen_out_dir : option string) (dst_path : string)
    : io string :=
  dst_cfg ← load_json dst_path;
  updated ← in_store (λ h, apply_binds h src_cfg dst_cfg);
  out_path ← (λ w, (w, out_path_of n_targets chosen_out_file chosen_out_dir
                         dst_path));
  _ ← save_json updated out_path;
  mret out_path.

(** [for dst_path in dst_paths: ...; generated_paths.append(out_path)] *)
Fixpoint process (src_cfg : val) (n_targets : nat)
    (chosen_out_file chosen_out_dir : option string)
    (dst_paths : list string) (generated_paths : list string)
    : io (list string) :=
  match dst_paths with
  | [] => mret generated_paths
  | dst_path :: rest =>
      out_path ← process_target src_cfg n_targets chosen_out_file
                   chosen_out_dir dst_path;
      process src_cfg n_targets chosen_out_file chosen_out_dir rest
        (generated_paths ++ [out_path])
  end.

(** [main()], given what the user answers in the dialogs: the source, the
    targets, and (when asked) an output file or an output folder. It
    returns [generated_paths], the list the last dialog reports. *)
Definition main (src_path : string) (dst_paths : list string)
    (chosen_out_file chosen_out_dir : option string) : io (list string) :=
  if bool_decide (src_path = "") then (λ w, (w, Raise Cancelled))
  else if bool_decide (dst_paths = []) then (λ w, (w, Raise Cancelled))
  else
    src_cfg ← load_json src_path;
    process src_cfg (length dst_paths) chosen_out_file chosen_out_dir
      dst_paths [].
End batch.

(** The two constants as the source sets them. *)
Definition ASK_WHERE_TO_SAVE : bool := false.
Definition OUTPUT_NAME_PATTERN : string := "{base}_mybind.json".

(** ** [posixpath] *)

(** [p.rpartition(c)] without the separator, when [c] occurs in [p]. *)
Fixpoint rsplit (c : ascii) (p : string) : option (string * string) :=
  match p with
  | EmptyString => None
  | String a rest =>
      match rsplit c rest with
      | Some (hd, tl) => Some (String a hd, tl)
      | None => if decide (a = c) then Some (EmptyString, rest) else None
      end
  end.

(** [p] is made of the character [c] only. *)
Fixpoint all_chars (c : ascii) (p : string) : bool :=
  match p with
  | EmptyString => true
  | String a rest => bool_decide (a = c) && all_chars c rest
  end.

(** [p.rstrip(c)] *)
Fixpoint rstrip (c : ascii) (p : string) : string :=
  match p with
  | EmptyString => EmptyString
  | String a rest =>
      match rstrip c rest with
      | EmptyString => if decide (a = c) then EmptyString else String a EmptyString
      | rest' => String a rest'
      end
  end.

Definition posix_basename (p : string) : string :=
  match rsplit "/"%char p with
  | Some (_, tl) => tl
  | None => p
  end.

Definition posix_dirname (p : string) : string :=
  match rsplit "/"%char p with
  | Some (hd, _) =>
      let head := hd +:+ "/" in
      if all_chars "/"%char head then head else rstrip "/"%char head
  | None => ""
  end.

Definition posix_splitext (p : string) : string * string :=
  match rsplit "."%char p with
  | Some (root, ext) =>
      if bool_decide (is_Some (rsplit "/"%char ext)) then (p, "")
      else if all_chars "."%char (posix_basename root) then (p, "")
      else (root, String "."%char ext)
  | None => (p, "")
  end.

Definition posix_join (a b : string) : string :=
  match b with
  | String "/"%char _ => b
  | _ =>
      match rsplit "/"%char a with
      | Some (_, EmptyString) => a +:+ b
      | _ => if decide (a = "") then b else a +:+ "/" +:+ b
      end
  end.

Definition posixpath : os_path :=
  OsPath posix_basename posix_dirname posix_splitext posix_join.

(** The JSON of the document a merge returns. *)
Definition merged_json (n : nat) (r : outcome (heap * val)) : option json :=
  match r with
  | Ok (h, doc) => json_dump n h doc
  | Raise _ => None
  end.

(** ** Example documents *)

(** The two documents of Scenario A, and of Scenario B. *)
Definition scenario_A_source : json :=
  JObj [("move", JObj [("key", JStr "W")]);
        ("jump", JObj [("key", JStr "SPACE")])].

Definition scenario_A_target : json :=
  JObj [("move", JObj [("key", JStr "UP");
                       ("sens", JFloat 4607182418800017408)]);
        ("chat", JObj [("key", JStr "T")])].

Definition scenario_B_target : json :=
  JObj [("move", JObj [("key", JStr "UP")])].

(** Load the source, load the target, merge, and dump the result. *)
Definition merge_json (n : nat) (source target : json) : option json :=
  let '(h1, src_cfg) := json_load source [] in
  let '(h2, dst_cfg) := json_load target h1 in
  merged_json n (apply_binds h2 src_cfg dst_cfg).

(** Scenario A of the specification, after both files are loaded: the
    source [{"move":{"key":"W"},"jump":{"key":"SPACE"}}] at address 2 and
    the target [{"move":{"key":"UP","sens":1.0},"chat":{"key":"T"}}] at 5. *)
Definition scenario_A : heap :=
  [ ODict [("key", VStr "W")];
    ODict [("key", VStr "SPACE")];
    ODict [("move", VRef 0); ("jump", VRef 1)];
    ODict [("key", VStr "UP"); ("sens", VFloat 4607182418800017408)];
    ODict [("key", VStr "T")];
    ODict [("move", VRef 3); ("chat", VRef 4)] ].

(** A source with a null key, a nested key and an entry that is not a
    mapping, and a target with entries that are not mappings: source at 4,
    target at 9. *)
Definition ex_src : dict :=
  [("move", VRef 0); ("jump", VRef 1); ("fly", VRef 3); ("zoom", VInt 7)].

Definition ex_dst : dict :=
  [("move", VRef 5); ("chat", VRef 6); ("jump", VInt 3); ("fly", VRef 7);
   ("zoom", VRef 8)].

Definition ex_heap : heap :=
  [ ODict [("key", VStr "W")];
    ODict [("key", VNone)];
    OList [VInt 1; VInt 2];
    ODict [("key", VRef 2)];
    ODict ex_src;
    ODict [("key", VStr "UP"); ("sens", VFloat 4607182418800017408)];
    ODict [("key", VStr "T"); ("on", VBool true)];
    OList [];
    ODict [("key", VStr "Z")];
    ODict ex_dst ].

(** Scenario C of the specification: a source and the two targets
    [a.json] and [b.json] in one directory. *)
Definition scenario_C : world :=
  World
    (<["/cfg/src.json" :=
         JsonText (JObj [("move", JObj [("key", JStr "W")]);
                         ("jump", JObj [("key", JStr "SPACE")])])]>
     (<["/cfg/a.json" :=
          JsonText (JObj [("move", JObj [("key", JStr "UP");
                                         ("sens", JFloat 4607182418800017408)]);
                          ("chat", JObj [("key", JStr "T")])])]>
      (<["/cfg/b.json" := JsonText (JObj [("jump", JNull)])]> ∅)))
    [].

(** Scenario E: the second of three targets is not JSON. *)
Definition scenario_E : world :=
  World (<["/cfg/bad.json" := NotJson]> (files scenario_C)) [].

(** A file whose JSON root is an array. *)
Definition array_file : world :=
  World (<["/cfg/list.json" := JsonText (JArr [JInt 1; JInt 2])]> ∅) [].

(** ** The state a merge leaves *)

(** The target items [dits] are settled for the source items [sits] in the
    store [h]: an entry whose module has a key in the source is a dict with
    that key as its last field and no other 'key', and any other entry has
    no 'key' field. *)
Definition settled (h : heap) (sits dits : dict) : Prop :=
  ∀ m v, dict_get m dits = Some v →
    match dict_get m sits ≫= (λ sp, field h sp "key") with
    | Some k =>
        ∃ e fs, v = VRef e ∧ h !! e = Some (ODict (fs ++ [("key", k)])) ∧
                dict_get "key" fs = None
    | None => field h v "key" = None
    end.

(** ** JSON trees as documents *)

(** Nesting depth of a tree: the levels [json.dump] has to go down. *)
Fixpoint json_depth (j : json) : nat :=
  match j with
  | JArr js => S (foldr (λ j n, json_depth j `max` n) 0 js)
  | JObj ms => S (foldr (λ m n, json_depth m.2 `max` n) 0 ms)
  | _ => 0
  end.

(** No object of the tree has a member name twice. *)
Fixpoint json_wf (j : json) : Prop :=
  match j with
  | JArr js => foldr (λ j P, json_wf j ∧ P) True js
  | JObj ms => NoDup ms.*1 ∧ foldr (λ m P, json_wf m.2 ∧ P) True ms
  | _ => True
  end.

(** Loading the tree [j] and dumping what was loaded gives [j] again. *)
Definition dumps_back (j : json) : Prop :=
  json_wf j → ∀ n h h' v,
    json_depth j ≤ n → json_load j h = (h', v) → json_dump n h' v = Some j.

(** ** The merge, on trees *)

(** The member [k] of a JSON object, and the object without it. *)
Fixpoint members_get (k : string) (ms : list (string * json)) : option json :=
  match ms with
  | [] => None
  | (k', j) :: rest => if decide (k = k') then Some j else members_get k rest
  end.

Fixpoint members_pop (k : string) (ms : list (string * json))
    : list (string * json) :=
  match ms with
  | [] => []
  | (k', j) :: rest =>
      if decide (k = k') then rest else (k', j) :: members_pop k rest
  end.

(** The key the source document has for the module [m]. *)
Definition source_key (source : list (string * json)) (m : string)
    : option json :=
  match members_get m source with
  | Some (JObj fields) => members_get "key" fields
  | _ => None
  end.

(** What the merge makes of the member [m] of the target. *)
Definition merged_member (source : list (string * json)) (m : string)
    (entry : json) : json :=
  match entry, source_key source m with
  | JObj fields, Some k => JObj (members_pop "key" fields ++ [("key", k)])
  | JObj fields, None => JObj (members_pop "key" fields)
  | _, Some k => JObj [("key", k)]
  | _, None => entry
  end.

(** The document the merge of two JSON objects comes to. *)
Definition merged_tree (source target : list (string * json)) : json :=
  JObj ((λ m, (m.1, merged_member source m.1 m.2)) <$> target).

(** The values one level below the entries of a document: the fields of an
    entry that is a dict, and an entry that is not one. *)
Definition below (h : heap) (its : dict) : list val :=
  its.*2 ≫= λ v, match dict_of h v with Some fs => fs.*2 | None => [v] end.

(** The values an object holds. *)
Definition obj_vals (o : obj) : list val :=
  match o with ODict d => d.*2 | OList vs => vs end.

(** The objects at the addresses from [a] to [b] hold references to
    objects of that range only, and to earlier ones than themselves:
    [json.load] makes the parts of a value before the value. *)
Definition grown (a b : nat) (h : heap) : Prop :=
  ∀ l o, a ≤ l < b → h !! l = Some o →
    Forall (λ v, ∀ r, v = VRef r → a ≤ r < l) (obj_vals o).

(** [json.load] of the tree [j] makes objects that hold references to
    objects of the same load only, and to earlier ones than themselves. *)
Definition grows (j : json) : Prop :=
  ∀ h h' v, json_load j h = (h', v) →
    ∀ ext, grown (length h) (length h') (h' ++ ext).

(** ** The files of a batch *)

(** One target of a run: the path of the target, the members of the JSON
    object in it, and the path its output goes to. *)
Record job := Job {
  job_target : string;
  job_members : list (string * json);
  job_output : string
}.

(** The files after the outputs of the jobs are written for the source
    object [source]. *)
Definition written (source : list (string * json)) (fs : gmap string file)
    (jobs : list job) : gmap string file :=
  foldl (λ fs jb,
           <[job_output jb := JsonText (merged_tree source (job_members jb))]>
             fs) fs jobs.

(** ** Patterns *)

(** A text without a brace: [str.format] copies it as it is. *)
Fixpoint brace_free (s : string) : bool :=
  match s with
  | EmptyString => true
  | String c rest =>
      negb (bool_decide (c = "{"%char)) && negb (bool_decide (c = "}"%char))
      && brace_free rest
  end.

(** ** Language and messages *)

(** [c.lower()] for an ASCII letter. No other character has [f] or [r] as
    its lower case, which is all [detect_lang] looks at. *)
Definition lower_char (c : ascii) : ascii :=
  let n := nat_of_ascii c in
  if Nat.leb 65 n && Nat.leb n 90 then ascii_of_nat (n + 32) else c.

Fixpoint lower (s : string) : string :=
  match s with
  | EmptyString => EmptyString
  | String c rest => String (lower_char c) (lower rest)
  end.

(** [detect_lang()], given what [locale.getlocale()[0]] and
    [locale.getdefaultlocale()[0]] return or raise. The second call is made
    only when the first gives [None] or an empty name. *)
Definition detect_lang (getlocale getdefaultlocale : outcome (option string))
    : string :=
  let lang :=
    match (first ← getlocale;
           if chosen first then Ok (lower (default "" first))
           else
             second ← getdefaultlocale;
             Ok (lower (if chosen second then default "" second else "")))
    with
    | Ok lang => lang
    | Raise _ => ""
    end in
  if String.prefix "fr" lang then "fr" else "en".

(** A line break. *)
Definition nl : string := String "010"%char "".

(** The message table. *)
Definition TXT : list (string * list (string * string)) :=
  [("fr",
    [("title", "Appliquer des binds");
     ("step1_title", "Étape 1");
     ("step1_msg", "Sélectionnez le fichier SOURCE (avec les binds).");
     ("step2_title", "Étape 2");
     ("step2_msg_single", "Sélectionnez le fichier CIBLE (où appliquer).");
     ("step2_msg_multi",
      "Sélectionnez un ou plusieurs fichiers CIBLES (où appliquer).");
     ("step3_title", "Étape 3");
     ("step3_msg_file",
      "Choisissez un fichier de SORTIE (ou annulez pour enregistrer au même endroit).");
     ("step3_msg_dir",
      "Choisissez un DOSSIER DE SORTIE pour tous les fichiers générés (ou annulez pour enregistrer à côté de chaque fichier CIBLE).");
     ("json_src_title", "Fichier JSON SOURCE");
     ("json_dst_title", "Fichier JSON CIBLE");
     ("json_dsts_title", "Fichiers JSON CIBLES");
     ("json_out_title", "Fichier de sortie");
     ("dir_out_title", "Dossier de sortie");
     ("done_title", "Terminé");
     ("done_msg_single",
      "Les binds ont été appliqués avec succès." +:+ nl +:+ "Résultat :"
      +:+ nl +:+ "{path}");
     ("done_msg_multi",
      "Les binds ont été appliqués avec succès." +:+ nl
      +:+ "Fichiers générés :" +:+ nl +:+ "{paths}");
     ("err_load", "Impossible de charger '{path}':" +:+ nl +:+ "{err}");
     ("err_save", "Impossible de sauvegarder '{path}':" +:+ nl +:+ "{err}");
     ("cancelled", "Opération annulée.")]);
   ("en",
    [("title", "Apply binds");
     ("step1_title", "Step 1");
     ("step1_msg", "Select the SOURCE file (with the binds).");
     ("step2_title", "Step 2");
     ("step2_msg_single", "Select the TARGET file (to apply to).");
     ("step2_msg_multi", "Select one or more TARGET files (to apply to).");
     ("step3_title", "Step 3");
     ("step3_msg_file",
      "Choose an OUTPUT file (or cancel to save in the same place).");
     ("step3_msg_dir",
      "Choose an OUTPUT FOLDER for all generated files (or cancel to save next to each TARGET).");
     ("json_src_title", "JSON SOURCE file");
     ("json_dst_title", "JSON TARGET file");
     ("json_dsts_title", "JSON TARGET files");
     ("json_out_title", "Output file");
     ("dir_out_title", "Output folder");
     ("done_title", "Done");
     ("done_msg_single",
      "Binds applied successfully." +:+ nl +:+ "Result:" +:+ nl +:+ "{path}");
     ("done_msg_multi",
      "Binds applied successfully." +:+ nl +:+ "Generated files:" +:+ nl
      +:+ "{paths}");
     ("err_load", "Cannot load '{path}':" +:+ nl +:+ "{err}");
     ("err_save", "Cannot save '{path}':" +:+ nl +:+ "{err}");
     ("cancelled", "Operation cancelled.")])].

(** [d.get(k)] for a table with string keys. *)
Fixpoint table_get {A} (k : string) (d : list (string * A)) : option A :=
  match d with
  | [] => None
  | (k', v) :: rest => if decide (k = k') then Some v else table_get k rest
  end.

(** [text.format] with keyword arguments, for a text made of characters,
    [{{], [}}] and named fields. [field] is the name read so far inside
    braces. A name
    that is not among the keyword arguments fails; positional fields,
    attribute and index access, conversions and format specifications are
    not modelled. *)
Fixpoint format_kw (text : string) (field : option string)
    (kwargs : list (string * string)) : outcome string :=
  match field, text with
  | None, EmptyString => Ok EmptyString
  | None, String "{"%char (String "{"%char rest) =>
      s ← format_kw rest None kwargs; Ok (String "{"%char s)
  | None, String "{"%char rest => format_kw rest (Some EmptyString) kwargs
  | None, String "}"%char (String "}"%char rest) =>
      s ← format_kw rest None kwargs; Ok (String "}"%char s)
  | None, String "}"%char _ => Raise ValueError
  | None, String c rest => s ← format_kw rest None kwargs; Ok (String c s)
  | Some name, EmptyString => Raise ValueError
  | Some name, String "}"%char rest =>
      match table_get name kwargs with
      | Some value => s ← format_kw rest None kwargs; Ok (value +:+ s)
      | None => Raise KeyError
      end
  | Some name, String c rest =>
      format_kw rest (Some (name +:+ String c EmptyString)) kwargs
  end.

(** [t(key, **kwargs)], for the value [LANG] of the global. *)
Definition t (LANG : string) (key : string) (kwargs : list (string * string))
    : outcome string :=
  match table_get "en" TXT with
  | None => Raise KeyError
  | Some english =>
      let text :=
        default key (table_get key (default english (table_get LANG TXT))) in
      if bool_decide (kwargs = []) then Ok text
      else format_kw text None kwargs
  end.

(** * Scenarios *)

Example scenario_A_loaded :
  json_load scenario_A_target (json_load scenario_A_source []).1
  = (scenario_A, VRef 5).
Proof. reflexivity. Qed.

Example scenario_A_merged :
  merge_json 2 scenario_A_source scenario_A_target
  = Some (JObj [("move", JObj [("sens", JFloat 4607182418800017408);
                               ("key", JStr "W")]);
                ("chat", JObj [])]).
Proof. reflexivity. Qed.

Example scenario_B_merged :
  merge_json 2 (JObj []) scenario_B_target = Some (JObj [("move", JObj [])]).
Proof. reflexivity. Qed.

(** Without separation the merge does something else: a document merged
    into itself loses every key. *)
Example apply_binds_same_document :
  merged_json 2 (apply_binds scenario_A (VRef 5) (VRef 5))
  = Some (JObj [("move", JObj [("sens", JFloat 4607182418800017408)]);
                ("chat", JObj [])]).
Proof. reflexivity. Qed.

Example posixpath_sibling :
  pattern_path posixpath OUTPUT_NAME_PATTERN
    (dirname posixpath "/cfg/a.json") "/cfg/a.json"
  = Ok "/cfg/a_mybind.json".
Proof. reflexivity. Qed.

(** * Proofs *)

(** ** Dicts *)

Section dict_facts.
Implicit Types (k f : string) (v : val) (d : dict).

Lemma dict_get_Some_elem k v d : dict_get k d = Some v → (k, v) ∈ d.
Proof.
  induction d as [|[k' v'] d IH]; csimpl; [done|].
  case_decide; intros ?; simplify_eq; [left | right; auto].
Qed.

Lemma dict_get_elem k v d : NoDup d.*1 → (k, v) ∈ d → dict_get k d = Some v.
Proof.
  induction d as [|[k' v'] d IH]; csimpl; intros Hnd Hin.
  - by apply elem_of_nil in Hin.
  - apply NoDup_cons in Hnd as [Hk Hnd].
    apply elem_of_cons in Hin as [?|Hin]; simplify_eq.
    + by rewrite decide_True.
    + rewrite decide_False; [auto|].
      intros ->. apply Hk, list_elem_of_fmap. by exists (k', v).
Qed.

Lemma dict_get_None k d : dict_get k d = None ↔ k ∉ d.*1.
Proof.
  induction d as [|[k' v'] d IH]; csimpl.
  - split; [intros _; apply not_elem_of_nil | done].
  - rewrite not_elem_of_cons. destruct (decide (k = k')) as [->|Hne].
    + split; [done|]. by intros [? _].
    + rewrite IH. split; [by split|by intros [_ ?]].
Qed.

Lemma dict_get_is_Some k d : is_Some (dict_get k d) ↔ k ∈ d.*1.
Proof.
  rewrite <-not_eq_None_Some, dict_get_None.
  split; [apply dec_stable | auto].
Qed.

Lemma dict_get_set k k' v d :
  dict_get k' (dict_set k v d) = if decide (k = k') then Some v else dict_get k' d.
Proof.
  induction d as [|[k0 v0] d IH]; csimpl.
  - repeat case_decide; congruence.
  - repeat (case_decide; csimpl; simplify_eq); try congruence.
Qed.

Lemma dict_set_keys k v d : k ∈ d.*1 → (dict_set k v d).*1 = d.*1.
Proof.
  induction d as [|[k0 v0] d IH]; csimpl; intros Hin.
  - by apply elem_of_nil in Hin.
  - case_decide; simplify_eq; csimpl; [done|].
    apply elem_of_cons in Hin as [?|?]; [done|]. by rewrite IH.
Qed.

Lemma dict_set_keys_fresh k v d : k ∉ d.*1 → (dict_set k v d).*1 = d.*1 ++ [k].
Proof.
  induction d as [|[k0 v0] d IH]; csimpl; intros Hin; [done|].
  apply not_elem_of_cons in Hin as [? ?].
  rewrite decide_False by done. csimpl. by rewrite IH.
Qed.

Lemma dict_set_NoDup k v d : NoDup d.*1 → NoDup (dict_set k v d).*1.
Proof.
  intros Hnd. destruct (decide (k ∈ d.*1)).
  - by rewrite dict_set_keys.
  - rewrite dict_set_keys_fresh by done.
    apply NoDup_app; split_and!; [done| |apply NoDup_singleton].
    intros x ? ->%list_elem_of_singleton. done.
Qed.

Lemma dict_set_values (Q : val → Prop) k v d :
  Q v → Forall Q d.*2 → Forall Q (dict_set k v d).*2.
Proof.
  intros Hv. induction d as [|[k0 v0] d IH]; csimpl; intros Hd.
  - by constructor.
  - apply Forall_cons in Hd as [? ?].
    case_decide; csimpl; constructor; auto.
Qed.

Lemma dict_pop_keys_sub k d x : x ∈ (dict_pop k d).*1 → x ∈ d.*1.
Proof.
  induction d as [|[k0 v0] d IH]; csimpl; [done|].
  destruct (decide (k = k0)); csimpl; rewrite ?elem_of_cons.
  - by right.
  - intros [->|?]; [by left|right; by apply IH].
Qed.

Lemma dict_pop_NoDup k d : NoDup d.*1 → NoDup (dict_pop k d).*1.
Proof.
  induction d as [|[k0 v0] d IH]; csimpl; [done|].
  intros [? ?]%NoDup_cons. case_decide; csimpl; [done|].
  apply NoDup_cons; split; [|auto].
  intros ?%dict_pop_keys_sub. done.
Qed.

Lemma dict_pop_values n k d :
  Forall (val_ok n) d.*2 → Forall (val_ok n) (dict_pop k d).*2.
Proof.
  induction d as [|[k0 v0] d IH]; csimpl; [done|].
  intros [? ?]%Forall_cons. case_decide; csimpl; [done|].
  constructor; auto.
Qed.

Lemma dict_get_pop_ne k f d : k ≠ f → dict_get f (dict_pop k d) = dict_get f d.
Proof.
  intros Hne. induction d as [|[k0 v0] d IH]; csimpl; [done|].
  repeat (case_decide; csimpl; simplify_eq); congruence.
Qed.

Lemma dict_get_pop k d : NoDup d.*1 → dict_get k (dict_pop k d) = None.
Proof.
  induction d as [|[k0 v0] d IH]; csimpl; [done|].
  intros [Hk ?]%NoDup_cons. case_decide; simplify_eq; csimpl.
  - by apply dict_get_None.
  - rewrite decide_False by done. auto.
Qed.

Lemma dict_get_pop_None k f d : dict_get f d = None → dict_get f (dict_pop k d) = None.
Proof.
  rewrite !dict_get_None. intros Hn ?%dict_pop_keys_sub. done.
Qed.

Lemma dict_get_values n k v d :
  Forall (val_ok n) d.*2 → dict_get k d = Some v → val_ok n v.
Proof.
  intros Hall Hget%dict_get_Some_elem.
  eapply Forall_forall in Hall; [done|].
  apply list_elem_of_fmap. by exists (k, v).
Qed.
End dict_facts.

(** ** The store *)

Section store_facts.
Implicit Types (h : heap) (l e : loc) (v : val) (fs : dict).

Lemma dict_of_Some h v fs :
  dict_of h v = Some fs ↔ ∃ l, v = VRef l ∧ h !! l = Some (ODict fs).
Proof.
  unfold dict_of. split.
  - destruct v as [| | | | |l]; try done.
    destruct (h !! l) as [[]|] eqn:?; intros; simplify_eq; eauto.
  - intros (l & -> & ->). done.
Qed.

Lemma is_dict_true h v :
  is_dict h v = true ↔ ∃ l fs, v = VRef l ∧ h !! l = Some (ODict fs).
Proof.
  unfold is_dict. split.
  - destruct (dict_of h v) as [fs|] eqn:Hd; [|done].
    apply dict_of_Some in Hd as (l & ? & ?). eauto.
  - intros (l & fs & -> & Hl). by rewrite (proj2 (dict_of_Some _ _ fs)); eauto.
Qed.

Lemma is_dict_dict_of h v : is_dict h v = true ↔ is_Some (dict_of h v).
Proof. unfold is_dict. destruct (dict_of h v); split; (done || by eauto || by intros []). Qed.

Lemma is_dict_false h v : is_dict h v = false ↔ dict_of h v = None.
Proof. unfold is_dict. by destruct (dict_of h v). Qed.

Lemma dict_of_update h e fs fs' v :
  h !! e = Some (ODict fs) →
  dict_of (<[e := ODict fs']> h) v
  = if decide (v = VRef e) then Some fs' else dict_of h v.
Proof.
  intros He. case_decide as Hv.
  - subst v. simpl. rewrite list_lookup_insert_eq; [done|].
    by eapply lookup_lt_Some.
  - destruct v as [| | | | |l]; try done. simpl.
    rewrite list_lookup_insert_ne; [done|congruence].
Qed.

Lemma is_dict_update h e fs fs' v :
  h !! e = Some (ODict fs) → is_dict (<[e := ODict fs']> h) v = is_dict h v.
Proof.
  intros He. unfold is_dict. erewrite dict_of_update by done.
  case_decide; [|done]. subst v. simpl. by rewrite He.
Qed.

Lemma dict_of_alloc h o v : val_ok (length h) v → dict_of (h ++ [o]) v = dict_of h v.
Proof.
  destruct v as [| | | | |l]; try done. simpl. intros Hl.
  by rewrite lookup_app_l.
Qed.

Lemma field_update_ne h e fs fs' v f :
  h !! e = Some (ODict fs) → v ≠ VRef e →
  field (<[e := ODict fs']> h) v f = field h v f.
Proof.
  intros He Hv. unfold field. erewrite dict_of_update by done.
  by rewrite decide_False.
Qed.

Lemma obj_ok_mono (n n' : nat) o : n ≤ n' → obj_ok n o → obj_ok n' o.
Proof.
  intros Hle.
  assert (∀ vs, Forall (val_ok n) vs → Forall (val_ok n') vs) as Hvs.
  { intros vs Hvs. eapply Forall_impl; [done|].
    intros [| | | | |l]; simpl; lia. }
  destruct o as [d|vs]; simpl; [|by apply Hvs].
  intros [? ?]. split; [done|by apply Hvs].
Qed.

Lemma heap_ok_lookup h l o : heap_ok h → h !! l = Some o → obj_ok (length h) o.
Proof. intros Hok Hl. by eapply (proj1 (Forall_lookup _ _) Hok). Qed.

Lemma heap_ok_keys h l fs : heap_ok h → h !! l = Some (ODict fs) → NoDup fs.*1.
Proof. intros Hok Hl. by destruct (heap_ok_lookup _ _ _ Hok Hl). Qed.

Lemma heap_ok_get h l fs k v :
  heap_ok h → h !! l = Some (ODict fs) → dict_get k fs = Some v →
  val_ok (length h) v.
Proof.
  intros Hok Hl Hget. destruct (heap_ok_lookup _ _ _ Hok Hl) as [_ Hvs].
  by eapply dict_get_values.
Qed.

Lemma heap_ok_update h e o :
  heap_ok h → obj_ok (length h) o → heap_ok (<[e := o]> h).
Proof.
  unfold heap_ok. intros Hok Ho. rewrite length_insert.
  by apply Forall_insert.
Qed.

Lemma heap_ok_alloc h o : heap_ok h → obj_ok (S (length h)) o → heap_ok (h ++ [o]).
Proof.
  unfold heap_ok. intros Hok Ho.
  rewrite length_app, Nat.add_1_r. apply Forall_app. split.
  - eapply Forall_impl; [done|]. intros o'. apply obj_ok_mono. lia.
  - by constructor.
Qed.
End store_facts.

(** ** Separate documents *)

Section inv_facts.
Implicit Types (h : heap) (l e s d : loc) (v : val) (fs its sits dits : dict).

Lemma elem_of_entry_locs h its l :
  l ∈ entry_locs h its ↔ ∃ m, (m, VRef l) ∈ its ∧ is_dict h (VRef l) = true.
Proof.
  unfold entry_locs. rewrite list_elem_of_omap. split.
  - intros ([m v] & Hin & Hf). simpl in Hf.
    destruct v as [| | | | |l']; try done.
    destruct (is_dict h (VRef l')) eqn:?; simplify_eq. eauto.
  - intros (m & Hin & Hd). exists (m, VRef l). split; [done|].
    simpl. by rewrite Hd.
Qed.

Lemma entry_locs_inj h its m m' l :
  NoDup (entry_locs h its) →
  (m, VRef l) ∈ its → (m', VRef l) ∈ its → is_dict h (VRef l) = true →
  m = m'.
Proof.
  intros Hnd Hm Hm' Hd. induction its as [|[m0 v0] its IH].
  { by apply elem_of_nil in Hm. }
  assert (NoDup (entry_locs h its) ∧
          (v0 = VRef l → l ∉ entry_locs h its)) as [Hnd' Hhd].
  { unfold entry_locs in *. simpl in Hnd.
    destruct v0 as [| | | | |l0]; try (split; [done|by intros ?]).
    destruct (is_dict h (VRef l0)) eqn:Hd0.
    - apply NoDup_cons in Hnd as [? ?]. split; [done|]. by intros [= ->].
    - split; [done|]. intros [= ->]. congruence. }
  apply elem_of_cons in Hm as [Hm|Hm], Hm' as [Hm'|Hm']; simplify_eq.
  - done.
  - exfalso. apply Hhd; [done|]. apply elem_of_entry_locs. eauto.
  - exfalso. apply Hhd; [done|]. apply elem_of_entry_locs. eauto.
  - auto.
Qed.

Lemma separate_inv h s sits d dits : separate h s sits d dits → inv h s sits d dits.
Proof.
  intros [Hok Hs Hd Htree Hapart].
  apply NoDup_cons in Htree as [Hself Hnd].
  apply Forall_cons in Hapart as [Hsd Hents].
  apply not_elem_of_cons in Hsd as [Hne Hse].
  assert (is_dict h (VRef s) = true) as Hsdict by (apply is_dict_true; eauto).
  assert (is_dict h (VRef d) = true) as Hddict by (apply is_dict_true; eauto).
  split; try done.
  - intros m Hm%dict_get_Some_elem. apply Hself, elem_of_entry_locs. eauto.
  - intros m Hm%dict_get_Some_elem. apply Hse, elem_of_entry_locs. eauto.
  - intros m Hm%dict_get_Some_elem.
    assert (d ∈ entry_locs h sits) as Hin by (apply elem_of_entry_locs; eauto).
    eapply Forall_forall in Hents; [|done]. apply Hents. left.
  - intros m m' l Hm%dict_get_Some_elem Hm'%dict_get_Some_elem.
    destruct (is_dict h (VRef l)) eqn:Hl; [|done]. exfalso.
    assert (l ∈ entry_locs h sits) as Hin by (apply elem_of_entry_locs; eauto).
    eapply Forall_forall in Hents; [|done]. apply Hents. right.
    apply elem_of_entry_locs. eauto.
  - intros m m' l Hm%dict_get_Some_elem Hm'%dict_get_Some_elem Hl.
    by eapply entry_locs_inj.
Qed.

(** Rewriting the fields of a dict other than the two documents. *)
Lemma inv_update h s sits d dits e fs fs' :
  inv h s sits d dits →
  h !! e = Some (ODict fs) → e ≠ s → e ≠ d →
  NoDup fs'.*1 → Forall (val_ok (length h)) fs'.*2 →
  inv (<[e := ODict fs']> h) s sits d dits.
Proof.
  intros [Hok Hs Hd Hne H1 H2 H3 H4 H5] He Hes Hed Hnd Hvs.
  split; try done.
  - by apply heap_ok_update.
  - by rewrite list_lookup_insert_ne.
  - by rewrite list_lookup_insert_ne.
  - intros m m' l ??. erewrite is_dict_update by done. eauto.
  - intros m m' l ??. erewrite is_dict_update by done. eauto.
Qed.
End inv_facts.

(** ** The strip pass *)

Lemma foldl_inv {A B} (f : A → B → A) (P : A → Prop) (l : list B) (a : A) :
  P a → (∀ a x, x ∈ l → P a → P (f a x)) → P (foldl f a l).
Proof.
  revert a. induction l as [|x l IH]; simpl; intros a Ha Hstep; [done|].
  apply IH.
  - apply Hstep; [left|done].
  - intros a' x' ?. apply Hstep. by right.
Qed.

Section strip_facts.
Implicit Types (h : heap) (l e s d : loc) (v x : val) (fs its sits dits : dict).

Lemma strip_entry_cases h v :
  strip_entry h v = h ∨
  ∃ e fs, v = VRef e ∧ h !! e = Some (ODict fs) ∧
          strip_entry h v = <[e := ODict (dict_pop "key" fs)]> h.
Proof.
  destruct v as [| | | | |e]; simpl; auto.
  destruct (h !! e) as [[fs|]|] eqn:He; eauto 10.
Qed.

Lemma strip_entry_length h v : length (strip_entry h v) = length h.
Proof.
  destruct (strip_entry_cases h v) as [->|(e & fs & _ & _ & ->)]; [done|].
  apply length_insert.
Qed.

Lemma strip_entry_is_dict h v x : is_dict (strip_entry h v) x = is_dict h x.
Proof.
  destruct (strip_entry_cases h v) as [->|(e & fs & _ & He & ->)]; [done|].
  by eapply is_dict_update.
Qed.

Lemma strip_entry_lookup h v l :
  (v = VRef l → is_dict h v = false) → strip_entry h v !! l = h !! l.
Proof.
  intros Hl.
  destruct (strip_entry_cases h v) as [->|(e & fs & -> & He & ->)]; [done|].
  apply list_lookup_insert_ne. intros ->.
  assert (is_dict h (VRef l) = true) by (apply is_dict_true; eauto).
  rewrite Hl in *; done.
Qed.

Lemma strip_entry_field h v x f :
  f ≠ "key" → field (strip_entry h v) x f = field h x f.
Proof.
  intros Hf.
  destruct (strip_entry_cases h v) as [->|(e & fs & -> & He & ->)]; [done|].
  unfold field. erewrite dict_of_update by done.
  case_decide; [|done]. subst x. simpl. rewrite He. simpl.
  by apply dict_get_pop_ne.
Qed.

Lemma strip_entry_key_None h v x :
  field h x "key" = None → field (strip_entry h v) x "key" = None.
Proof.
  destruct (strip_entry_cases h v) as [->|(e & fs & -> & He & ->)]; [done|].
  unfold field. erewrite dict_of_update by done.
  case_decide; [|done]. subst x. simpl. rewrite He. simpl.
  apply dict_get_pop_None.
Qed.

Lemma strip_entry_key h v :
  heap_ok h → field (strip_entry h v) v "key" = None.
Proof.
  intros Hok. unfold field.
  destruct v as [| | | | |e]; try done. simpl.
  destruct (h !! e) as [[fs|]|] eqn:He; simpl; rewrite ?He; try done.
  rewrite list_lookup_insert_eq by (by eapply lookup_lt_Some). simpl.
  apply dict_get_pop. by eapply heap_ok_keys.
Qed.

Lemma strip_entry_ok h v : heap_ok h → heap_ok (strip_entry h v).
Proof.
  intros Hok.
  destruct (strip_entry_cases h v) as [->|(e & fs & -> & He & ->)]; [done|].
  apply heap_ok_update; [done|].
  destruct (heap_ok_lookup _ _ _ Hok He). split.
  - by apply dict_pop_NoDup.
  - by apply dict_pop_values.
Qed.

Lemma strip_entry_inv h s sits d dits v :
  inv h s sits d dits → v ≠ VRef s → v ≠ VRef d →
  inv (strip_entry h v) s sits d dits.
Proof.
  intros Hinv Hs Hd.
  destruct (strip_entry_cases h v) as [->|(e & fs & -> & He & ->)]; [done|].
  destruct (heap_ok_lookup _ _ _ (inv_ok _ _ _ _ _ Hinv) He).
  eapply inv_update; [done..|congruence|congruence| |].
  - by apply dict_pop_NoDup.
  - by apply dict_pop_values.
Qed.

Lemma stripped_refl h dits : stripped h dits h.
Proof. by split. Qed.

Lemma strip_entry_stripped h0 dits h v :
  stripped h0 dits h → v ∈ dits.*2 → stripped h0 dits (strip_entry h v).
Proof.
  intros [Hlen Hdict Hframe Hfield Hkey] Hv. split.
  - by rewrite strip_entry_length.
  - intros x. by rewrite strip_entry_is_dict.
  - intros l Hl. rewrite strip_entry_lookup; [auto|].
    intros ->. destruct (is_dict h (VRef l)) eqn:Hd; [|done].
    exfalso. apply Hl, elem_of_entry_locs.
    apply list_elem_of_fmap in Hv as ([m v] & ? & ?); simplify_eq/=.
    exists m. split; [done|]. by rewrite <-Hdict.
  - intros x f Hf. rewrite strip_entry_field by done. auto.
  - intros x Hx. apply strip_entry_key_None. auto.
Qed.

Lemma strip_fold_key its h v :
  heap_ok h → v ∈ its.*2 →
  field (foldl (λ h it, strip_entry h it.2) h its) v "key" = None.
Proof.
  revert h. induction its as [|[m x] its IH]; intros h Hok Hv; csimpl in *.
  { by apply elem_of_nil in Hv. }
  apply elem_of_cons in Hv as [->|Hv].
  - apply (foldl_inv _ (λ h', field h' x "key" = None)).
    + by apply strip_entry_key.
    + intros h' it _. apply strip_entry_key_None.
  - apply IH; [|done]. by apply strip_entry_ok.
Qed.

Lemma strip_pass_spec h s sits d dits :
  inv h s sits d dits →
  ∃ h1, strip_pass h (VRef d) = Ok h1 ∧ inv h1 s sits d dits ∧
        stripped h dits h1 ∧
        (∀ m v, dict_get m dits = Some v → field h1 v "key" = None).
Proof.
  intros Hinv. unfold strip_pass. simpl. rewrite (inv_dst _ _ _ _ _ Hinv).
  eexists. split; [done|]. split_and!.
  - apply (foldl_inv _ (λ h', inv h' s sits d dits)); [done|].
    intros h' [m v] Hin Hinv'. simpl.
    assert (dict_get m dits = Some v) as Hget.
    { apply dict_get_elem; [|done].
      eapply heap_ok_keys; [apply Hinv'|apply Hinv']. }
    apply strip_entry_inv; [done|intros ->|intros ->].
    + by eapply inv_dst_src.
    + by eapply inv_dst_self.
  - apply (foldl_inv _ (stripped h dits)); [apply stripped_refl|].
    intros h' [m v] Hin Hst. apply strip_entry_stripped; [done|].
    apply list_elem_of_fmap. by exists (m, v).
  - intros m v Hget%dict_get_Some_elem. apply strip_fold_key.
    + apply Hinv.
    + apply list_elem_of_fmap. by exists (m, v).
Qed.
End strip_facts.

(** ** One step of the copy pass *)

Section copy_step_facts.
Implicit Types (h : heap) (l e s d : loc) (v : val) (fs its sits dits : dict).

Lemma renewed_length h d dits m k : length (renewed h d dits m k) = S (length h).
Proof. unfold renewed. rewrite !length_insert, length_app. simpl. lia. Qed.

Lemma renewed_lookup h d dits m k l :
  l < length h → l ≠ d → renewed h d dits m k !! l = h !! l.
Proof.
  intros Hl Hd. unfold renewed.
  rewrite !list_lookup_insert_ne by lia. by rewrite lookup_app_l.
Qed.

Lemma renewed_lookup_dst h d dits m k :
  d < length h →
  renewed h d dits m k !! d = Some (ODict (dict_set m (VRef (length h)) dits)).
Proof.
  intros Hd. unfold renewed. rewrite list_lookup_insert_ne by lia.
  apply list_lookup_insert_eq. rewrite length_app. simpl. lia.
Qed.

Lemma renewed_lookup_new h d dits m k :
  renewed h d dits m k !! length h = Some (ODict [("key", k)]).
Proof.
  unfold renewed. apply list_lookup_insert_eq.
  rewrite length_insert, length_app. simpl. lia.
Qed.

Lemma renewed_dict_of h d dits m k v :
  val_ok (length h) v → v ≠ VRef d →
  dict_of (renewed h d dits m k) v = dict_of h v.
Proof.
  destruct v as [| | | | |l]; try done. simpl. intros Hl Hd.
  rewrite renewed_lookup; [done..|congruence].
Qed.

Lemma renewed_is_dict h d dits dits0 m k l :
  h !! d = Some (ODict dits0) → l < length h →
  is_dict (renewed h d dits m k) (VRef l) = is_dict h (VRef l).
Proof.
  intros Hd Hl. unfold is_dict. simpl. destruct (decide (l = d)) as [->|].
  - by rewrite renewed_lookup_dst, Hd.
  - by rewrite renewed_lookup.
Qed.

Lemma getitem_dict h l fs (k : string) v :
  h !! l = Some (ODict fs) → dict_get k fs = Some v →
  getitem h (VRef l) k = Ok v.
Proof. intros Hl Hk. unfold getitem. simpl. by rewrite Hl, Hk. Qed.

Lemma copy_entry_step h s sits d dits m sp :
  inv h s sits d dits → dict_get m sits = Some sp →
  ∃ h' dits', copy_entry h (VRef d) m sp = Ok h' ∧
              copy_step h d dits m sp h' dits'.
Proof.
  intros Hinv Hsp. unfold copy_entry. simpl.
  pose proof (inv_dst _ _ _ _ _ Hinv) as Hd. rewrite Hd. simpl.
  destruct (dict_get m dits) as [cur|] eqn:Hcur; last first.
  { rewrite bool_decide_eq_false_2 by (by intros []). simpl.
    exists h, dits. split; [done|]. constructor. by left. }
  rewrite bool_decide_eq_true_2 by eauto. simpl.
  destruct (dict_of h sp) as [sfs|] eqn:Hsfs; last first.
  { apply is_dict_false in Hsfs as Hsd. rewrite Hsd. simpl.
    exists h, dits. split; [done|]. constructor. right.
    unfold field. by rewrite Hsfs. }
  assert (is_dict h sp = true) as -> by (apply is_dict_dict_of; eauto).
  simpl. destruct (dict_get "key" sfs) as [k|] eqn:Hk; last first.
  { rewrite bool_decide_eq_false_2 by (by intros []). simpl.
    exists h, dits. split; [done|]. constructor. right.
    unfold field. by rewrite Hsfs. }
  rewrite bool_decide_eq_true_2 by eauto. simpl.
  assert (field h sp "key" = Some k) as Hfield.
  { unfold field. by rewrite Hsfs. }
  rewrite (getitem_dict h d dits m cur) by done. simpl.
  destruct (is_dict h cur) eqn:Hcd.
  - apply is_dict_true in Hcd as (e & fs & -> & He). simpl.
    apply dict_of_Some in Hsfs as (p & -> & Hp).
    rewrite (getitem_dict h p sfs "key" k) by done. simpl.
    rewrite (getitem_dict h d dits m (VRef e)) by done. simpl.
    rewrite He. eexists _, _. split; [done|]. econstructor; eauto.
  - simpl.
    assert (d < length h) as Hdlt by (by eapply lookup_lt_Some).
    rewrite lookup_app_l by done. rewrite Hd. simpl.
    apply dict_of_Some in Hsfs as (p & -> & Hp).
    assert (p ≠ d) as Hpd.
    { intros ->. by eapply inv_src_dst. }
    assert (p < length h) as Hplt by (by eapply lookup_lt_Some).
    assert (length (h ++ [ODict []]) = S (length h)) as Hlen.
    { rewrite length_app. simpl. lia. }
    set (h1 := <[d := _]> (h ++ [ODict []])).
    assert (h1 !! p = Some (ODict sfs)) as Hp1.
    { unfold h1. rewrite list_lookup_insert_ne by done.
      by rewrite lookup_app_l. }
    assert (h1 !! d = Some (ODict (dict_set m (VRef (length h)) dits))) as Hd1.
    { unfold h1. apply list_lookup_insert_eq. lia. }
    assert (h1 !! length h = Some (ODict [])) as Hn1.
    { unfold h1. rewrite list_lookup_insert_ne by lia.
      by rewrite lookup_app_r, Nat.sub_diag. }
    rewrite (getitem_dict h1 p sfs "key" k) by done. simpl.
    rewrite (getitem_dict h1 d _ m (VRef (length h)) Hd1)
      by (by rewrite dict_get_set, decide_True).
    simpl. rewrite Hn1. eexists _, _. split; [done|]. by econstructor.
Qed.

Lemma copy_step_inv h s sits d dits m sp h' dits' :
  inv h s sits d dits → dict_get m sits = Some sp →
  copy_step h d dits m sp h' dits' → inv h' s sits d dits'.
Proof.
  intros Hinv Hsp Hstep.
  pose proof Hinv as [Hok Hs Hd Hne Hself Hds Hsd Hapart Hinj].
  destruct Hstep as [_|e fs k Hcur He Hk|cur k Hcur Hcd Hk]; [done|..].
  - (* set *)
    destruct (heap_ok_lookup _ _ _ Hok He) as [Hnd Hvs].
    apply bind_Some in Hk as (sfs & (p & -> & Hp)%dict_of_Some & Hk).
    eapply inv_update; [done..| | | |].
    + intros ->. by eapply Hds.
    + intros ->. by eapply Hself.
    + by apply dict_set_NoDup.
    + apply dict_set_values; [|done].
      by apply (heap_ok_get _ _ _ _ _ Hok Hp Hk).
  - (* new *)
    apply bind_Some in Hk as (sfs & (p & -> & Hp)%dict_of_Some & Hk).
    assert (d < length h) as Hdlt by (by eapply lookup_lt_Some).
    assert (s < length h) as Hslt by (by eapply lookup_lt_Some).
    assert (∀ m' l, dict_get m' dits = Some (VRef l) → l < length h) as Hcl.
    { intros m' l Hl. by apply (heap_ok_get _ _ _ _ _ Hok Hd Hl). }
    assert (∀ m' l, dict_get m' sits = Some (VRef l) → l < length h) as Hcls.
    { intros m' l Hl. by apply (heap_ok_get _ _ _ _ _ Hok Hs Hl). }
    destruct (heap_ok_lookup _ _ _ Hok Hd) as [Hnd Hvs].
    split.
    + unfold renewed. apply heap_ok_update; [apply heap_ok_update|].
      * apply heap_ok_alloc; [done|]. split; simpl; constructor.
      * rewrite length_app. simpl. split.
        -- by apply dict_set_NoDup.
        -- apply dict_set_values; [simpl; lia|].
           eapply Forall_impl; [done|]. intros [| | | | |l]; simpl; lia.
      * rewrite length_insert, length_app. simpl. split.
        -- apply NoDup_singleton.
        -- constructor; [|constructor].
           pose proof (heap_ok_get _ _ _ _ _ Hok Hp Hk) as Hkok.
           destruct k; simpl in *; lia.
    + rewrite renewed_lookup; [done|done|congruence].
    + by apply renewed_lookup_dst.
    + done.
    + intros m'. rewrite dict_get_set. case_decide; [|done].
      intros [= <-]. lia.
    + intros m'. rewrite dict_get_set. case_decide; [|done].
      intros [= <-]. lia.
    + done.
    + intros m1 m2 l Hm1. rewrite dict_get_set.
      destruct (decide (m = m2)) as [<-|?].
      * intros [= <-]. apply Hcls in Hm1. lia.
      * intros Hm2. erewrite renewed_is_dict; [by eauto|done|by eauto].
    + intros m1 m2 l. rewrite !dict_get_set.
      destruct (decide (m = m1)) as [<-|?], (decide (m = m2)) as [<-|?].
      * done.
      * intros [= <-] Hm2 _. apply Hcl in Hm2. lia.
      * intros Hm1 [= <-] _. apply Hcl in Hm1. lia.
      * intros Hm1 Hm2. erewrite renewed_is_dict; [by eauto|done|by eauto].
Qed.
Lemma field_set_key_ne h e fs k x f :
  h !! e = Some (ODict fs) → f ≠ "key" →
  field (<[e := ODict (dict_set "key" k fs)]> h) x f = field h x f.
Proof.
  intros He Hf. unfold field. erewrite dict_of_update by done.
  case_decide; [|done]. subst x. simpl. rewrite He. simpl.
  rewrite dict_get_set. by rewrite decide_False.
Qed.

Lemma copy_step_effect h s sits d dits m sp h' dits' :
  inv h s sits d dits → dict_get m sits = Some sp →
  copy_step h d dits m sp h' dits' →
  step_effect h d dits m sp h' dits'.
Proof.
  intros Hinv Hsp Hstep.
  pose proof Hinv as [Hok Hs Hd Hne Hself Hds Hsd Hapart Hinj].
  assert (∀ m' x, dict_get m' dits = Some x → val_ok (length h) x) as Hcl.
  { intros m' x Hx. by apply (heap_ok_get _ _ _ _ _ Hok Hd Hx). }
  destruct Hstep as [Hskip|e fs k Hcur He Hk|cur k Hcur Hcd Hk].
  - (* skip *)
    split; try done; [by auto|].
    intros k cur Hk Hcur. destruct Hskip; congruence.
  - (* set *)
    assert (is_dict h (VRef e) = true) as Hed by (apply is_dict_true; eauto).
    assert (e ≠ d) as Hned by (intros ->; by eapply Hself).
    split.
    + done.
    + by rewrite length_insert.
    + intros l _. by eapply is_dict_update.
    + intros l _ _ Hl. apply list_lookup_insert_ne. intros ->.
      by eapply Hl.
    + intros m0 e0 Hm0. erewrite is_dict_update by done. auto.
    + intros m0 f Hf. unfold field_of, entry.
      erewrite dict_of_update by done.
      rewrite decide_False by congruence.
      destruct (dict_of h (VRef d) ≫= dict_get m0) as [x|]; [|done].
      simpl. by apply field_set_key_ne.
    + intros m0 Hm0. split; [done|]. intros x Hx.
      erewrite dict_of_update by done. case_decide; [|done].
      subst x. destruct Hm0. by eapply Hinj.
    + intros k' cur' Hk' Hcur'. simplify_eq. exists (VRef e).
      split; [done|]. split.
      * unfold field. erewrite dict_of_update by done.
        rewrite decide_True by done. simpl.
        rewrite dict_get_set. by rewrite decide_True.
      * congruence.
    + intros [?|?]; congruence.
  - (* new *)
    assert (d < length h) as Hdlt by (by eapply lookup_lt_Some).
    split.
    + apply dict_set_keys, dict_get_is_Some. eauto.
    + rewrite renewed_length. lia.
    + intros l Hl. by eapply renewed_is_dict.
    + intros l Hl Hld _. by apply renewed_lookup.
    + intros m0 e0. rewrite dict_get_set. case_decide.
      * intros [= <-] _. by left.
      * intros Hm0 He0. right. split; [done|].
        erewrite <-renewed_is_dict; [done..|]. by apply (Hcl m0 (VRef e0)).
    + intros m0 f Hf. unfold field_of, entry. simpl.
      rewrite renewed_lookup_dst, Hd by done. simpl.
      rewrite dict_get_set. case_decide.
      * subst m0. rewrite Hcur. simpl. unfold field. simpl.
        rewrite renewed_lookup_new. simpl. rewrite decide_False by done.
        apply is_dict_false in Hcd. by rewrite Hcd.
      * destruct (dict_get m0 dits) as [x|] eqn:Hx; [|done]. simpl.
        unfold field. rewrite renewed_dict_of; [done|by eapply Hcl|].
        intros ->. by eapply Hself.
    + intros m0 Hm0. rewrite dict_get_set, decide_False by done.
      split; [done|]. intros x Hx.
      rewrite renewed_dict_of; [done|by eapply Hcl|].
      intros ->. by eapply Hself.
    + intros k' cur' Hk' Hcur'. simplify_eq. exists (VRef (length h)).
      rewrite dict_get_set, decide_True by done. split; [done|].
      unfold field. simpl. rewrite renewed_lookup_new. simpl. done.
    + intros [?|?]; congruence.
Qed.
End copy_step_facts.

(** ** The copy loop *)

Section copy_loop_facts.
Variables (h1 : heap) (s d : loc) (sits dits : dict).
Hypothesis Hinv1 : inv h1 s sits d dits.

Implicit Types (h : heap) (l e : loc) (v : val).

Lemma src_unique j j' m sp sp' :
  sits !! j = Some (m, sp) → sits !! j' = Some (m, sp') → j = j'.
Proof.
  intros Hj Hj'.
  assert (NoDup sits.*1) as Hnd.
  { eapply heap_ok_keys; [apply Hinv1|apply Hinv1]. }
  eapply NoDup_lookup; [exact Hnd| |].
  - by rewrite list_lookup_fmap, Hj.
  - by rewrite list_lookup_fmap, Hj'.
Qed.

Lemma src_get j m sp : sits !! j = Some (m, sp) → dict_get m sits = Some sp.
Proof.
  intros Hj. apply dict_get_elem.
  - eapply heap_ok_keys; [apply Hinv1|apply Hinv1].
  - by eapply list_elem_of_lookup_2.
Qed.

Lemma dst_closed m e : dict_get m dits = Some (VRef e) → e < length h1.
Proof.
  intros Hm.
  by apply (heap_ok_get _ _ _ _ _ (inv_ok _ _ _ _ _ Hinv1)
              (inv_dst _ _ _ _ _ Hinv1) Hm).
Qed.

Lemma progress_start : progress h1 s d sits dits 0 h1 dits.
Proof.
  split; try done.
  - intros m e Hm Hd. right. apply elem_of_entry_locs.
    exists m. split; [|done]. by apply dict_get_Some_elem.
  - intros m j sp k cur _ Hj. lia.
Qed.

(** The entries of the source are as the loop found them. *)
Lemma progress_src i h dits' m sp :
  progress h1 s d sits dits i h dits' → dict_get m sits = Some sp →
  dict_of h sp = dict_of h1 sp.
Proof.
  intros Hpr Hsp. destruct sp as [| | | | |p]; try done.
  assert (p < length h1) as Hp.
  { by apply (heap_ok_get _ _ _ _ _ (inv_ok _ _ _ _ _ Hinv1)
                (inv_src _ _ _ _ _ Hinv1) Hsp). }
  destruct (is_dict h1 (VRef p)) eqn:Hd.
  - simpl. rewrite (pr_frame _ _ _ _ _ _ _ _ Hpr); [done|done| |].
    + intros ->. by eapply inv_src_dst.
    + intros (m' & Hm' & _)%elem_of_entry_locs.
      assert (is_dict h1 (VRef p) = false); [|congruence].
      eapply inv_apart; [done..|].
      apply dict_get_elem; [|done].
      eapply heap_ok_keys; [apply Hinv1|apply Hinv1].
  - pose proof (pr_is_dict _ _ _ _ _ _ _ _ Hpr p Hp) as Hd'.
    rewrite Hd in Hd'. apply is_dict_false in Hd, Hd'. congruence.
Qed.

Lemma progress_step i h dits' m sp h' dits'' :
  progress h1 s d sits dits i h dits' → sits !! i = Some (m, sp) →
  copy_step h d dits' m sp h' dits'' →
  progress h1 s d sits dits (S i) h' dits''.
Proof.
  intros Hpr Hi Hstep.
  pose proof (src_get _ _ _ Hi) as Hsp.
  pose proof (pr_inv _ _ _ _ _ _ _ _ Hpr) as Hinv.
  pose proof (copy_step_effect _ _ _ _ _ _ _ _ _ Hinv Hsp Hstep) as Heff.
  assert (field h sp "key" = field h1 sp "key") as Hfield.
  { unfold field. by erewrite progress_src. }
  destruct (pr_todo _ _ _ _ _ _ _ _ Hpr m) as [Hcur_m Hent_m].
  { intros j sp' Hj Hlt. pose proof (src_unique _ _ _ _ _ Hi Hj). lia. }
  destruct Hpr as [_ Hnames Hlen Hframe Hisd Hentries Hfld Htodo Hdone].
  split.
  - by eapply copy_step_inv.
  - by rewrite (se_names _ _ _ _ _ _ _ Heff).
  - pose proof (se_length _ _ _ _ _ _ _ Heff). lia.
  - intros l Hl Hld Hle. rewrite (se_frame _ _ _ _ _ _ _ Heff); [auto|lia|done|].
    intros e He Hed ->. destruct (Hentries m e He Hed); [lia|done].
  - intros l Hl. rewrite (se_is_dict _ _ _ _ _ _ _ Heff) by lia. auto.
  - intros m0 e Hm0 He.
    destruct (se_entries _ _ _ _ _ _ _ Heff m0 e Hm0 He) as [?|[? ?]].
    + left. lia.
    + eauto.
  - intros m0 f Hf. rewrite (se_field _ _ _ _ _ _ _ Heff) by done. auto.
  - intros m0 Hnone. destruct (decide (m0 = m)) as [->|Hne].
    + destruct (se_skip _ _ _ _ _ _ _ Heff) as [-> ->].
      { right. rewrite Hfield. eapply Hnone; [done|lia]. }
      apply Htodo. intros j sp' Hj Hlt. eapply Hnone; [done|lia].
    + destruct (se_other _ _ _ _ _ _ _ Heff m0 Hne) as [Hget Hobj].
      destruct (Htodo m0) as [Hget' Hobj'].
      { intros j sp' Hj Hlt. eapply Hnone; [done|lia]. }
      split; [congruence|]. intros e He.
      rewrite Hobj by congruence. auto.
  - intros m0 j sp0 k cur Hj Hlt Hk Hcur.
    destruct (decide (j = i)) as [->|Hji].
    + simplify_eq.
      destruct (se_key _ _ _ _ _ _ _ Heff k cur) as (e & He & Hke & Hnew);
        [congruence..|].
      exists e. split_and!; [done..|].
      intros Hcd. apply Hnew. apply is_dict_false.
      rewrite Hent_m by done. by apply is_dict_false.
    + assert (m0 ≠ m) as Hne.
      { intros ->. by pose proof (src_unique _ _ _ _ _ Hi Hj). }
      destruct (Hdone m0 j sp0 k cur) as (e & He & Hke & Hnew);
        [done|lia|done..|].
      destruct (se_other _ _ _ _ _ _ _ Heff m0 Hne) as [Hget Hobj].
      exists e. split_and!.
      * congruence.
      * unfold field in *. by rewrite Hobj.
      * intros Hcd. rewrite Hobj by done. auto.
Qed.

Lemma copy_loop_spec n i h dits' :
  progress h1 s d sits dits i h dits' → i + n = length sits →
  ∃ h2 dits2,
    copy_loop n i (length sits) h (VRef s) (VRef d) = Ok h2 ∧
    progress h1 s d sits dits (length sits) h2 dits2.
Proof.
  revert i h dits'. induction n as [|n IH]; intros i h dits' Hpr Hn.
  - assert (i = length sits) as -> by lia.
    exists h, dits'. split; [|done]. simpl.
    rewrite (inv_src _ _ _ _ _ (pr_inv _ _ _ _ _ _ _ _ Hpr)).
    by rewrite bool_decide_eq_true_2.
  - destruct (lookup_lt_is_Some_2 sits i) as [[m sp] Hi]; [lia|].
    pose proof (pr_inv _ _ _ _ _ _ _ _ Hpr) as Hinv.
    destruct (copy_entry_step _ _ _ _ _ _ _ Hinv (src_get _ _ _ Hi))
      as (h' & dits'' & Hrun & Hstep).
    destruct (IH (S i) h' dits'') as (h2 & dits2 & Hloop & Hpr2);
      [by eapply progress_step|lia|].
    exists h2, dits2. split; [|done]. simpl.
    rewrite (inv_src _ _ _ _ _ Hinv).
    rewrite bool_decide_eq_true_2 by done. simpl.
    rewrite Hi, Hrun. done.
Qed.

Lemma copy_pass_spec :
  ∃ h2 dits2,
    copy_pass h1 (VRef s) (VRef d) = Ok h2 ∧
    progress h1 s d sits dits (length sits) h2 dits2.
Proof.
  unfold copy_pass. simpl. rewrite (inv_src _ _ _ _ _ Hinv1).
  apply (copy_loop_spec _ 0 h1 dits); [apply progress_start|lia].
Qed.
End copy_loop_facts.

(** ** The two passes together *)

Section apply_binds_facts.
Implicit Types (h : heap) (l e s d : loc) (v : val) (sits dits : dict).

(** The strip pass leaves the entries of the source alone. *)
Lemma stripped_src h h1 s sits d dits m sp :
  inv h s sits d dits → stripped h dits h1 →
  dict_get m sits = Some sp → dict_of h1 sp = dict_of h sp.
Proof.
  intros Hinv Hst Hsp. destruct sp as [| | | | |p]; try done. simpl.
  rewrite (st_frame _ _ _ Hst); [done|].
  intros (m' & Hm' & Hd)%elem_of_entry_locs.
  assert (is_dict h (VRef p) = false); [|congruence].
  eapply inv_apart; [done..|].
  apply dict_get_elem; [|done].
  eapply heap_ok_keys; [apply Hinv|apply Hinv].
Qed.

Lemma stripped_entry_locs h h1 dits :
  stripped h dits h1 → ∀ l, l ∈ entry_locs h1 dits ↔ l ∈ entry_locs h dits.
Proof.
  intros Hst l. rewrite !elem_of_entry_locs.
  by setoid_rewrite (st_is_dict _ _ _ Hst).
Qed.

Lemma stripped_dst h h1 s sits d dits :
  inv h s sits d dits → stripped h dits h1 → h1 !! d = h !! d.
Proof.
  intros Hinv Hst. apply (st_frame _ _ _ Hst).
  intros (m & Hm & _)%elem_of_entry_locs.
  eapply inv_dst_self; [done|].
  apply dict_get_elem; [|done].
  eapply heap_ok_keys; [apply Hinv|apply Hinv].
Qed.

Lemma apply_binds_spec h s sits d dits :
  separate h s sits d dits →
  ∃ h1 h2 dits2,
    apply_binds h (VRef s) (VRef d) = Ok (h2, VRef d) ∧
    inv h s sits d dits ∧ inv h1 s sits d dits ∧ stripped h dits h1 ∧
    (∀ m v, dict_get m dits = Some v → field h1 v "key" = None) ∧
    progress h1 s d sits dits (length sits) h2 dits2.
Proof.
  intros Hinv%separate_inv.
  destruct (strip_pass_spec _ _ _ _ _ Hinv) as (h1 & Hstrip & Hinv1 & Hst & Hkey).
  destruct (copy_pass_spec _ _ _ _ _ Hinv1) as (h2 & dits2 & Hcopy & Hpr).
  exists h1, h2, dits2. split_and!; try done.
  unfold apply_binds. rewrite Hstrip. simpl. by rewrite Hcopy.
Qed.

(** With nothing to copy the copy pass leaves the store as it is. *)
Lemma copy_loop_nothing h s sits d dits n i :
  inv h s sits d dits →
  (∀ m sp, dict_get m sits = Some sp →
           dict_get m dits = None ∨ field h sp "key" = None) →
  copy_loop n i (length sits) h (VRef s) (VRef d) = Ok h.
Proof.
  intros Hinv Hnone. revert i. induction n as [|n IH]; intros i; simpl;
    rewrite (inv_src _ _ _ _ _ Hinv), bool_decide_eq_true_2 by done; [done|].
  simpl. destruct (sits !! i) as [[m sp]|] eqn:Hi; [|done].
  assert (dict_get m sits = Some sp) as Hsp.
  { apply dict_get_elem; [|by eapply list_elem_of_lookup_2].
    eapply heap_ok_keys; [apply Hinv|apply Hinv]. }
  destruct (copy_entry_step _ _ _ _ _ _ _ Hinv Hsp) as (h' & dits' & -> & Hstep).
  destruct (se_skip _ _ _ _ _ _ _
              (copy_step_effect _ _ _ _ _ _ _ _ _ Hinv Hsp Hstep)) as [-> _];
    [by eapply Hnone|].
  simpl. apply IH.
Qed.
End apply_binds_facts.

(** ** Dumping after a change elsewhere *)

Lemma mapM_ext_elem {A B} (f g : A → option B) (l : list A) :
  (∀ x, x ∈ l → f x = g x) → mapM f l = mapM g l.
Proof.
  induction l as [|x l IH]; intros Hfg; [done|].
  assert (mapM f l = mapM g l) as Htl.
  { apply IH. intros y ?. apply Hfg. by right. }
  simpl. by rewrite (Hfg x), Htl by left.
Qed.

Lemma json_dump_frame n h h' v :
  (∀ l, l ∈ reach n h v → h' !! l = h !! l) →
  json_dump n h' v = json_dump n h v.
Proof.
  revert v. induction n as [|n IH]; intros v Hsame; destruct v as [| | | | |l];
    try done.
  simpl in *. rewrite Hsame by left.
  destruct (h !! l) as [[its|vs]|] eqn:Hl; [| |done].
  - f_equal. apply mapM_ext_elem. intros [k x] Hx. simpl. f_equal.
    apply IH. intros l' Hl'. apply Hsame. right.
    apply list_elem_of_bind. exists x. split; [done|].
    apply list_elem_of_fmap. by exists (k, x).
  - f_equal. apply mapM_ext_elem. intros x Hx.
    apply IH. intros l' Hl'. apply Hsame. right.
    apply list_elem_of_bind. by exists x.
Qed.

(** ** The merged target *)

Section merged.
Variables (h : heap) (s : loc) (sits : dict) (d : loc) (dits : dict).
Variables (h1 h2 : heap) (dits2 : dict).
Hypothesis Hinv : inv h s sits d dits.
Hypothesis Hinv1 : inv h1 s sits d dits.
Hypothesis Hst : stripped h dits h1.
Hypothesis Hkey : ∀ m v, dict_get m dits = Some v → field h1 v "key" = None.
Hypothesis Hpr : progress h1 s d sits dits (length sits) h2 dits2.

Lemma merged_dst : h2 !! d = Some (ODict dits2).
Proof. apply (inv_dst _ _ _ _ _ (pr_inv _ _ _ _ _ _ _ _ Hpr)). Qed.

Lemma merged_entry m : entry h2 (VRef d) m = dict_get m dits2.
Proof. unfold entry. simpl. by rewrite merged_dst. Qed.

Lemma merged_names : dits2.*1 = dits.*1.
Proof. apply (pr_names _ _ _ _ _ _ _ _ Hpr). Qed.

Lemma merged_frame l :
  l < length h → l ∉ dicts_of h d dits → h2 !! l = h !! l.
Proof.
  intros Hl [Hld Hle]%not_elem_of_cons.
  rewrite <-(st_frame _ _ _ Hst l Hle).
  apply (pr_frame _ _ _ _ _ _ _ _ Hpr); [|done|].
  - by rewrite (st_length _ _ _ Hst).
  - by rewrite stripped_entry_locs.
Qed.

Lemma merged_field m f :
  f ≠ "key" → field_of h2 (VRef d) m f = field_of h (VRef d) m f.
Proof.
  intros Hf. rewrite (pr_field _ _ _ _ _ _ _ _ Hpr) by done.
  unfold field_of, entry. simpl.
  rewrite (stripped_dst _ _ _ _ _ _ Hinv Hst).
  destruct (h !! d) as [[its|]|]; try done. simpl.
  destruct (dict_get m its); [|done]. simpl.
  by apply (st_field _ _ _ Hst).
Qed.

Lemma merged_key m sp k cur :
  dict_get m sits = Some sp → field h sp "key" = Some k →
  dict_get m dits = Some cur →
  ∃ e, entry h2 (VRef d) m = Some e ∧ field h2 e "key" = Some k ∧
       (is_dict h cur = false → dict_of h2 e = Some [("key", k)]).
Proof.
  intros Hsp Hk Hcur.
  destruct (list_elem_of_lookup_1 _ _ (dict_get_Some_elem _ _ _ Hsp)) as [j Hj].
  destruct (pr_done _ _ _ _ _ _ _ _ Hpr m j sp k cur) as (e & He & Hke & Hnew).
  - done.
  - by eapply lookup_lt_Some.
  - unfold field. by rewrite (stripped_src _ _ _ _ _ _ _ _ Hinv Hst Hsp).
  - done.
  - exists e. rewrite merged_entry. split_and!; [done..|].
    intros Hcd. apply Hnew. by rewrite (st_is_dict _ _ _ Hst).
Qed.

Lemma merged_no_key m v :
  dict_get m dits = Some v →
  dict_get m sits = None ∨
    (∃ sp, dict_get m sits = Some sp ∧ field h sp "key" = None) →
  entry h2 (VRef d) m = Some v ∧ field h2 v "key" = None.
Proof.
  intros Hv Hsrc.
  destruct (pr_todo _ _ _ _ _ _ _ _ Hpr m) as [Hget Hobj].
  { intros j sp Hj _. pose proof (src_get _ _ _ _ _ Hinv1 _ _ _ Hj) as Hsp.
    destruct Hsrc as [?|(sp' & Hsp' & Hnone)]; [congruence|].
    assert (sp' = sp) as -> by congruence. unfold field in *.
    by rewrite (stripped_src _ _ _ _ _ _ _ _ Hinv Hst Hsp). }
  rewrite merged_entry. split; [congruence|].
  unfold field. rewrite Hobj by done. by apply (Hkey m).
Qed.
End merged.

(** ** What json.load builds *)

Section load_facts.
Implicit Types (h : heap) (l : loc) (v : val) (its : dict) (vs : list val).

Lemma val_ok_mono (n n' : nat) v : n ≤ n' → val_ok n v → val_ok n' v.
Proof. destruct v; simpl; lia. Qed.

Lemma elem_of_refs vs l : l ∈ refs vs ↔ VRef l ∈ vs.
Proof.
  unfold refs. rewrite list_elem_of_omap. split.
  - intros (v & Hin & Hv). destruct v; by simplify_eq.
  - intros Hin. by exists (VRef l).
Qed.

Lemma refs_cons v vs :
  refs (v :: vs) = match v with VRef l => l :: refs vs | _ => refs vs end.
Proof. by destruct v. Qed.

Lemma dict_set_refs k v d l :
  l ∈ refs (dict_set k v d).*2 → l ∈ refs d.*2 ∨ v = VRef l.
Proof.
  rewrite !elem_of_refs.
  induction d as [|[k0 v0] d IH]; csimpl.
  - intros ->%list_elem_of_singleton. by right.
  - destruct (decide (k = k0)); csimpl; rewrite !elem_of_cons.
    + intros [<-|?]; [by right|left; by right].
    + intros [?|Hin]; [left; by left|].
      destruct (IH Hin); [left; by right|by right].
Qed.

Lemma dict_set_refs_NoDup k v d :
  NoDup (refs d.*2) → (∀ l, v = VRef l → l ∉ refs d.*2) →
  NoDup (refs (dict_set k v d).*2).
Proof.
  induction d as [|[k0 v0] d IH]; csimpl; intros Hnd Hv.
  - rewrite refs_cons. destruct v; try done. apply NoDup_singleton.
  - rewrite refs_cons in Hnd.
    assert (NoDup (refs d.*2)) as Hnd'.
    { destruct v0; try done. by apply NoDup_cons in Hnd as [_ ?]. }
    assert (∀ l, v = VRef l → l ∉ refs d.*2) as Hv'.
    { intros l Hl Hin. apply (Hv l Hl). rewrite refs_cons.
      destruct v0; try done. by right. }
    case_decide; csimpl; rewrite refs_cons.
    + destruct v as [| | | | |l]; try done.
      apply NoDup_cons. split; [by apply Hv'|done].
    + destruct v0 as [| | | | |l0]; try by apply IH.
      apply NoDup_cons in Hnd as [Hl0 _].
      apply NoDup_cons. split; [|by apply IH].
      intros [?| ->]%dict_set_refs; [done|].
      apply (Hv l0 eq_refl). rewrite refs_cons. by left.
Qed.

Lemma dict_build_NoDup its : NoDup (dict_build its).*1.
Proof.
  apply (foldl_inv _ (λ d, NoDup d.*1)); [constructor|].
  intros d it _. apply dict_set_NoDup.
Qed.

Lemma dict_build_values (Q : val → Prop) its :
  Forall Q its.*2 → Forall Q (dict_build its).*2.
Proof.
  intros Hall. apply (foldl_inv _ (λ d, Forall Q d.*2)); [constructor|].
  intros d it Hin Hd. apply dict_set_values; [|done].
  eapply Forall_forall in Hall; [done|].
  apply list_elem_of_fmap. by exists it.
Qed.

Lemma dict_build_refs its : NoDup (refs its.*2) → NoDup (refs (dict_build its).*2).
Proof.
  unfold dict_build.
  assert (∀ acc, NoDup (refs acc.*2 ++ refs its.*2) →
            NoDup (refs (foldl (λ d it, dict_set it.1 it.2 d) acc its).*2))
    as Hgen; [|by apply (Hgen [])].
  induction its as [|[k v] its IH]; intros acc Hnd; csimpl in *.
  { by rewrite app_nil_r in Hnd. }
  rewrite refs_cons in Hnd. apply IH.
  apply NoDup_app in Hnd as (Hacc & Hdis & Htl).
  assert (NoDup (refs its.*2)) as Htl'.
  { destruct v; try done. by apply NoDup_cons in Htl as [_ ?]. }
  assert (∀ l, v = VRef l → l ∉ refs acc.*2) as Hv.
  { intros l -> Hin. apply (Hdis l Hin). by left. }
  apply NoDup_app. split_and!; [by apply dict_set_refs_NoDup| |done].
  intros l [Hin| ->]%dict_set_refs Hin'.
  - apply (Hdis l Hin). destruct v; try done. by right.
  - by apply NoDup_cons in Htl as [? _].
Qed.

Lemma entry_locs_refs h its l : l ∈ entry_locs h its → l ∈ refs its.*2.
Proof.
  rewrite elem_of_entry_locs, elem_of_refs. intros (m & Hin & _).
  apply list_elem_of_fmap. by exists (m, VRef l).
Qed.

Lemma entry_locs_NoDup h its : NoDup (refs its.*2) → NoDup (entry_locs h its).
Proof.
  induction its as [|[k v] its IH]; csimpl; [constructor|].
  rewrite refs_cons. unfold entry_locs. csimpl. fold (entry_locs h its).
  destruct v as [| | | | |l]; try done.
  intros [Hl Hnd]%NoDup_cons. destruct (is_dict h (VRef l)); [|by auto].
  apply NoDup_cons. split; [|by auto].
  intros ?%entry_locs_refs. done.
Qed.

Lemma json_load_arr js h :
  json_load (JArr js) h
  = let '(h', vs) := load_elems js h in (h' ++ [OList vs], VRef (length h')).
Proof. reflexivity. Qed.

Lemma json_load_obj ms h :
  json_load (JObj ms) h
  = let '(h', its) := load_members ms h in
    (h' ++ [ODict (dict_build its)], VRef (length h')).
Proof. reflexivity. Qed.

Lemma loaded_all_nil h : loaded_all h h [].
Proof.
  split_and!; [|constructor|constructor].
  exists []. by rewrite app_nil_r.
Qed.

Lemma loaded_all_cons h ha hb v vs :
  loaded h ha v → loaded_all ha hb vs → loaded_all h hb (v :: vs).
Proof.
  intros [(ext1 & -> & Hext1) Hv Hfresh] ((ext2 & -> & Hext2) & Hvs & Hnd).
  assert (length (h ++ ext1) ≤ length ((h ++ ext1) ++ ext2)) as Hle
    by (rewrite (length_app (h ++ ext1)); lia).
  assert (length h ≤ length (h ++ ext1)) as Hle'
    by (rewrite length_app; lia).
  split_and!.
  - exists (ext1 ++ ext2). split; [by rewrite app_assoc|].
    apply Forall_app. split; [|done].
    eapply Forall_impl; [done|]. intros o. by apply obj_ok_mono.
  - constructor.
    + split; [by eapply val_ok_mono|done].
    + eapply Forall_impl; [done|]. intros v' [? Hf]. split; [done|].
      intros l Hl. specialize (Hf l Hl). lia.
  - rewrite refs_cons. destruct v as [| | | | |l]; try done.
    apply NoDup_cons. split; [|done].
    intros Hin%elem_of_refs. eapply Forall_forall in Hvs as [_ Hf]; [|done].
    specialize (Hf l eq_refl). simpl in Hv. lia.
Qed.

Lemma load_elems_loaded js :
  Forall (λ j, ∀ h h' v, json_load j h = (h', v) → loaded h h' v) js →
  ∀ h h' vs, load_elems js h = (h', vs) → loaded_all h h' vs.
Proof.
  induction 1 as [|j js Hj _ IH]; intros h h' vs Hload; simpl in Hload.
  - injection Hload as <- <-. apply loaded_all_nil.
  - destruct (json_load j h) as [ha v] eqn:Hv.
    destruct (load_elems js ha) as [hb vs'] eqn:Hvs.
    injection Hload as <- <-. eapply loaded_all_cons; eauto.
Qed.

Lemma load_members_loaded ms :
  Forall (λ m, ∀ h h' v, json_load m.2 h = (h', v) → loaded h h' v) ms →
  ∀ h h' its, load_members ms h = (h', its) → loaded_all h h' its.*2.
Proof.
  induction 1 as [|[k j] ms Hj _ IH]; intros h h' its Hload; simpl in Hload.
  - injection Hload as <- <-. apply loaded_all_nil.
  - destruct (json_load j h) as [ha v] eqn:Hv.
    destruct (load_members ms ha) as [hb its'] eqn:Hits.
    injection Hload as <- <-. csimpl. eapply loaded_all_cons; eauto.
Qed.

(** A container made of loaded values, put after them. *)
Lemma loaded_container h h' vs o :
  loaded_all h h' vs → obj_ok (S (length h')) o →
  loaded h (h' ++ [o]) (VRef (length h')).
Proof.
  intros ((ext & -> & Hext) & _ & _) Ho.
  assert (length ((h ++ ext) ++ [o]) = S (length (h ++ ext))) as Hlen
    by (rewrite (length_app (h ++ ext)); simpl; lia).
  split.
  - exists (ext ++ [o]). split; [by rewrite app_assoc|].
    rewrite Hlen. apply Forall_app. split; [|by constructor].
    eapply Forall_impl; [done|]. intros o'. apply obj_ok_mono. lia.
  - simpl. lia.
  - intros l [= <-]. rewrite length_app. lia.
Qed.

Lemma json_load_loaded j h h' v : json_load j h = (h', v) → loaded h h' v.
Proof.
  revert h h' v. induction j as [| | | | |js IH|ms IH] using json_tree_ind;
    intros h h' v Hload;
    try (injection Hload as <- <-; split; [|done..];
         exists []; by rewrite app_nil_r).
  - rewrite json_load_arr in Hload.
    destruct (load_elems js h) as [h1 vs] eqn:Hvs. injection Hload as <- <-.
    pose proof (load_elems_loaded js IH _ _ _ Hvs) as Hall.
    eapply loaded_container; [done|]. simpl.
    destruct Hall as (_ & Hall & _).
    eapply Forall_impl; [done|]. intros v [Hv _].
    eapply val_ok_mono; [|done]. lia.
  - rewrite json_load_obj in Hload.
    destruct (load_members ms h) as [h1 its] eqn:Hits. injection Hload as <- <-.
    pose proof (load_members_loaded ms IH _ _ _ Hits) as Hall.
    eapply loaded_container; [done|]. split.
    + apply dict_build_NoDup.
    + apply dict_build_values. destruct Hall as (_ & Hall & _).
      eapply Forall_impl; [done|]. intros v [Hv _].
      eapply val_ok_mono; [|done]. lia.
Qed.

Lemma loaded_heap_ok h h' v : heap_ok h → loaded h h' v → heap_ok h'.
Proof.
  intros Hok [(ext & -> & Hext) _ _]. unfold heap_ok.
  apply Forall_app. split; [|done].
  eapply Forall_impl; [done|]. intros o. apply obj_ok_mono.
  rewrite length_app. lia.
Qed.

(** A target that is loaded into a store is separate from the documents
    that are there already. *)
Lemma json_load_separate h s sits ms h' v :
  heap_ok h → h !! s = Some (ODict sits) →
  json_load (JObj ms) h = (h', v) →
  ∃ d dits, v = VRef d ∧ separate h' s sits d dits.
Proof.
  intros Hok Hs Hload.
  pose proof (json_load_loaded _ _ _ _ Hload) as Hld.
  pose proof (loaded_heap_ok _ _ _ Hok Hld) as Hok'.
  rewrite json_load_obj in Hload.
  destruct (load_members ms h) as [h1 its] eqn:Hits. injection Hload as <- <-.
  assert (loaded_all h h1 its.*2) as ((ext & -> & _) & Hvals & Hnd).
  { eapply load_members_loaded; [|done].
    apply Forall_forall. intros m _ h0 h0' v0. apply json_load_loaded. }
  set (dits := dict_build its). set (d := length (h ++ ext)).
  assert (s < length h) as Hslt by (by eapply lookup_lt_Some).
  assert (length h ≤ d) as Hd by (unfold d; rewrite length_app; lia).
  assert (Forall (λ v, val_ok d v ∧ ∀ l, v = VRef l → length h ≤ l) dits.*2)
    as Hdvals by (by apply dict_build_values).
  assert (∀ l, l ∈ entry_locs ((h ++ ext) ++ [ODict dits]) dits →
               length h ≤ l < d) as Hents.
  { intros l Hl%entry_locs_refs%elem_of_refs.
    eapply Forall_forall in Hdvals as [Hv Hf]; [|done].
    specialize (Hf l eq_refl). simpl in Hv. lia. }
  exists d, dits. split; [done|]. split.
  - done.
  - rewrite <-app_assoc. by rewrite lookup_app_l.
  - unfold d. by rewrite lookup_app_r, Nat.sub_diag.
  - apply NoDup_cons. split.
    + intros Hin%Hents. lia.
    + by apply entry_locs_NoDup, dict_build_refs.
  - apply Forall_forall. intros l Hl.
    assert (l < length h) as Hlt.
    { apply elem_of_cons in Hl as [->|Hl]; [done|].
      apply elem_of_entry_locs in Hl as (m & Hm & _).
      destruct (heap_ok_lookup _ _ _ Hok Hs) as [_ Hvs].
      eapply Forall_forall in Hvs; [|apply list_elem_of_fmap; by exists (m, VRef l)].
      done. }
    intros [->|Hin%Hents]%elem_of_cons; lia.
Qed.
(** Objects that were in the store before reach none of the new ones. *)
Lemma reach_old n h ext v :
  heap_ok h → val_ok (length h) v →
  Forall (λ l, l < length h) (reach n (h ++ ext) v).
Proof.
  intros Hok. revert v. induction n as [|n IH]; intros v Hv;
    destruct v as [| | | | |l]; try by constructor.
  simpl in *. constructor; [done|]. rewrite lookup_app_l by done.
  destruct (h !! l) as [[its|vs]|] eqn:Hl; [| |by constructor].
  - destruct (heap_ok_lookup _ _ _ Hok Hl) as [_ Hvs].
    apply Forall_forall. intros l' (x & Hl' & Hx)%list_elem_of_bind.
    eapply Forall_forall in Hvs; [|done].
    by eapply (proj1 (Forall_forall _ _) (IH x Hvs)).
  - pose proof (heap_ok_lookup _ _ _ Hok Hl) as Hvs. simpl in Hvs.
    apply Forall_forall. intros l' (x & Hl' & Hx)%list_elem_of_bind.
    eapply Forall_forall in Hvs; [|done].
    by eapply (proj1 (Forall_forall _ _) (IH x Hvs)).
Qed.

(** The traversal of a source that was in the store before the target was
    loaded meets no dict of the target. *)
Lemma json_load_source_apart h s sits ms h' d dits n :
  heap_ok h → h !! s = Some (ODict sits) →
  json_load (JObj ms) h = (h', VRef d) → h' !! d = Some (ODict dits) →
  Forall (λ l, l ∉ dicts_of h' d dits) (reach n h' (VRef s)).
Proof.
  intros Hok Hs Hload Hd.
  destruct (json_load_loaded _ _ _ _ Hload) as [(ext & -> & _) Hv Hfresh].
  assert (s < length h) as Hslt by (by eapply lookup_lt_Some).
  eapply Forall_impl; [by apply reach_old|]. simpl. intros l Hl.
  rewrite json_load_obj in Hload.
  destruct (load_members ms h) as [h1 its] eqn:Hits.
  injection Hload as Hh <-.
  assert (loaded_all h h1 its.*2) as ((ext1 & -> & _) & Hvals & _).
  { eapply load_members_loaded; [|done].
    apply Forall_forall. intros m _ h0 h0' v0. apply json_load_loaded. }
  assert (length h ≤ length (h ++ ext1)) as Hle by (rewrite length_app; lia).
  rewrite <-Hh in Hd. rewrite lookup_app_r, Nat.sub_diag in Hd by done.
  injection Hd as <-.
  intros [->|Hin%entry_locs_refs%elem_of_refs]%elem_of_cons; [lia|].
  assert (Forall (λ v, val_ok (length (h ++ ext1)) v ∧
                       ∀ l, v = VRef l → length h ≤ l) (dict_build its).*2)
    as Hdvals by (by apply dict_build_values).
  eapply Forall_forall in Hdvals as [_ Hf]; [|done].
  specialize (Hf l eq_refl). lia.
Qed.
End load_facts.

(** * The merge engine *)

Lemma reach_closed n h v :
  heap_ok h → val_ok (length h) v → Forall (λ l, l < length h) (reach n h v).
Proof.
  intros Hok. revert v. induction n as [|n IH]; intros v Hv;
    destruct v as [| | | | |l]; try by constructor.
  simpl. constructor; [done|].
  destruct (h !! l) as [[its|vs]|] eqn:Hl; [| |by constructor].
  - destruct (heap_ok_lookup _ _ _ Hok Hl) as [_ Hvs].
    apply Forall_forall. intros l' (x & Hl' & Hx)%list_elem_of_bind.
    eapply Forall_forall in Hvs; [|done].
    by eapply (proj1 (Forall_forall _ _) (IH x Hvs)).
  - pose proof (heap_ok_lookup _ _ _ Hok Hl) as Hvs. simpl in Hvs.
    apply Forall_forall. intros l' (x & Hl' & Hx)%list_elem_of_bind.
    eapply Forall_forall in Hvs; [|done].
    by eapply (proj1 (Forall_forall _ _) (IH x Hvs)).
Qed.

(** C1 (copy fidelity). For two separately loaded documents, if the module
    [m] is in both and the source's entry for [m] is a mapping with a 'key'
    field holding [k], then [apply_binds] returns the target, the target's
    entry for [m] is a mapping, and its 'key' field holds [k] itself. [k] is
    any value: null and empty structures are copied like the others. *)
Theorem apply_binds_copy_fidelity h s sits d dits m sp k :
  separate h s sits d dits →
  dict_get m sits = Some sp → field h sp "key" = Some k →
  is_Some (dict_get m dits) →
  ∃ h' e,
    apply_binds h (VRef s) (VRef d) = Ok (h', VRef d) ∧
    entry h' (VRef d) m = Some e ∧ is_dict h' e = true ∧
    field h' e "key" = Some k.
Proof.
  intros Hsep Hsp Hk [cur Hcur].
  destruct (apply_binds_spec _ _ _ _ _ Hsep)
    as (h1 & h2 & dits2 & Hrun & Hinv & Hinv1 & Hst & Hkey & Hpr).
  destruct (merged_key _ _ _ _ _ _ _ _ Hinv Hst Hpr m sp k cur)
    as (e & He & Hke & _); [done..|].
  exists h2, e. split_and!; [done..| |done].
  apply is_dict_dict_of. unfold field in Hke.
  destruct (dict_of h2 e); [by eauto|done].
Qed.

Lemma apply_binds_copy_fidelity_witness :
  separate ex_heap 4 ex_src 9 ex_dst ∧
  ∃ h' e,
    apply_binds ex_heap (VRef 4) (VRef 9) = Ok (h', VRef 9) ∧
    entry h' (VRef 9) "jump" = Some e ∧ is_dict h' e = true ∧
    field h' e "key" = Some VNone.
Proof.
  assert (separate ex_heap 4 ex_src 9 ex_dst) as Hsep by (split; compute_done).
  split; [done|].
  apply (apply_binds_copy_fidelity ex_heap 4 ex_src 9 ex_dst "jump" (VRef 1));
    [done|reflexivity|reflexivity|by eexists].
Defined.

(** C2 (strip result). For two separately loaded documents, [apply_binds]
    returns the target, and every module of the target whose counterpart in
    the source is absent, is not a mapping, or has no 'key' field keeps its
    entry, which has no 'key' field then. With an empty source that is every
    module of the target. *)
Theorem apply_binds_strip_result h s sits d dits :
  separate h s sits d dits →
  ∃ h',
    apply_binds h (VRef s) (VRef d) = Ok (h', VRef d) ∧
    (∀ m v,
       dict_get m dits = Some v →
       dict_get m sits = None ∨
         (∃ sp, dict_get m sits = Some sp ∧ is_dict h sp = false) ∨
         (∃ sp, dict_get m sits = Some sp ∧ field h sp "key" = None) →
       entry h' (VRef d) m = Some v ∧ field h' v "key" = None) ∧
    (sits = [] →
     ∀ m v, dict_get m dits = Some v →
            entry h' (VRef d) m = Some v ∧ field h' v "key" = None).
Proof.
  intros Hsep.
  destruct (apply_binds_spec _ _ _ _ _ Hsep)
    as (h1 & h2 & dits2 & Hrun & Hinv & Hinv1 & Hst & Hkey & Hpr).
  exists h2. split; [done|].
  assert (∀ m v,
    dict_get m dits = Some v →
    dict_get m sits = None ∨
      (∃ sp, dict_get m sits = Some sp ∧ field h sp "key" = None) →
    entry h2 (VRef d) m = Some v ∧ field h2 v "key" = None) as Hgen.
  { intros m v. by eapply merged_no_key. }
  split.
  - intros m v Hv [Hno|[(sp & Hsp & Hnd)|Hno]]; apply (Hgen m v Hv); eauto.
    right. exists sp. split; [done|]. unfold field.
    apply is_dict_false in Hnd. by rewrite Hnd.
  - intros -> m v Hv. apply (Hgen m v Hv). by left.
Qed.

Lemma apply_binds_strip_result_witness :
  separate ex_heap 4 ex_src 9 ex_dst ∧
  ∃ h',
    apply_binds ex_heap (VRef 4) (VRef 9) = Ok (h', VRef 9) ∧
    (entry h' (VRef 9) "chat" = Some (VRef 6) ∧ field h' (VRef 6) "key" = None) ∧
    (entry h' (VRef 9) "zoom" = Some (VRef 8) ∧ field h' (VRef 8) "key" = None).
Proof.
  assert (separate ex_heap 4 ex_src 9 ex_dst) as Hsep by (split; compute_done).
  split; [done|].
  destruct (apply_binds_strip_result ex_heap 4 ex_src 9 ex_dst Hsep)
    as (h' & Hrun & Hstrip & _).
  exists h'. split; [done|]. split.
  - apply Hstrip; [reflexivity|]. left. reflexivity.
  - apply Hstrip; [reflexivity|]. right. left. by exists (VInt 7).
Defined.

(** C3 (module-set preservation). For two separately loaded documents,
    [apply_binds] returns the target, which has the module names it had, in
    the order it had them: none is added, none is removed; a module that only
    the source has is not in the result. *)
Theorem apply_binds_module_set h s sits d dits :
  separate h s sits d dits →
  ∃ h' dits',
    apply_binds h (VRef s) (VRef d) = Ok (h', VRef d) ∧
    h' !! d = Some (ODict dits') ∧ dits'.*1 = dits.*1 ∧
    (∀ m, m ∈ dits'.*1 ↔ m ∈ dits.*1) ∧
    (∀ m, m ∈ sits.*1 → m ∉ dits.*1 → entry h' (VRef d) m = None).
Proof.
  intros Hsep.
  destruct (apply_binds_spec _ _ _ _ _ Hsep)
    as (h1 & h2 & dits2 & Hrun & Hinv & Hinv1 & Hst & Hkey & Hpr).
  pose proof (merged_names _ _ _ _ _ _ _ Hpr) as Hnames.
  exists h2, dits2. split_and!; [done| |done| |].
  - by eapply merged_dst.
  - intros m. by rewrite Hnames.
  - intros m _ Hm. erewrite merged_entry by done.
    apply dict_get_None. by rewrite Hnames.
Qed.

Lemma apply_binds_module_set_witness :
  separate ex_heap 4 ex_src 9 ex_dst ∧
  ∃ h' dits',
    apply_binds ex_heap (VRef 4) (VRef 9) = Ok (h', VRef 9) ∧
    h' !! 9 = Some (ODict dits') ∧
    dits'.*1 = ["move"; "chat"; "jump"; "fly"; "zoom"].
Proof.
  assert (separate ex_heap 4 ex_src 9 ex_dst) as Hsep by (split; compute_done).
  split; [done|].
  destruct (apply_binds_module_set ex_heap 4 ex_src 9 ex_dst Hsep)
    as (h' & dits' & Hrun & Hd & Hnames & _).
  by exists h', dits'.
Defined.

(** C6 (field isolation). For two separately loaded documents,
    [apply_binds] returns the target, and for every module [m] and every
    field [f] other than 'key', [target[m][f]] is after the merge what it
    was before: the same scalar or the same object, and an object that is
    not one of the target's own dicts also dumps to the same JSON. *)
Theorem apply_binds_field_isolation h s sits d dits :
  separate h s sits d dits →
  ∃ h',
    apply_binds h (VRef s) (VRef d) = Ok (h', VRef d) ∧
    (∀ m f, f ≠ "key" →
            field_of h' (VRef d) m f = field_of h (VRef d) m f) ∧
    (∀ m f v n,
       f ≠ "key" → field_of h (VRef d) m f = Some v →
       Forall (λ l, l ∉ dicts_of h d dits) (reach n h v) →
       json_dump n h' v = json_dump n h v).
Proof.
  intros Hsep.
  destruct (apply_binds_spec _ _ _ _ _ Hsep)
    as (h1 & h2 & dits2 & Hrun & Hinv & Hinv1 & Hst & Hkey & Hpr).
  exists h2. split_and!; [done| |].
  - intros m f. by eapply merged_field.
  - intros m f v n _ Hv Hout. apply json_dump_frame. intros l Hl.
    assert (val_ok (length h) v) as Hvok.
    { apply bind_Some in Hv as (e & _ & Hv).
      apply bind_Some in Hv as (fs & (p & -> & Hp)%dict_of_Some & Hv).
      by apply (heap_ok_get _ _ _ _ _ (inv_ok _ _ _ _ _ Hinv) Hp Hv). }
    eapply merged_frame; [done..| |].
    + by eapply (proj1 (Forall_forall _ _)
                   (reach_closed n h v (inv_ok _ _ _ _ _ Hinv) Hvok)).
    + by eapply (proj1 (Forall_forall _ _) Hout).
Qed.

Lemma apply_binds_field_isolation_witness :
  separate ex_heap 4 ex_src 9 ex_dst ∧
  ∃ h',
    apply_binds ex_heap (VRef 4) (VRef 9) = Ok (h', VRef 9) ∧
    field_of h' (VRef 9) "move" "sens" = Some (VFloat 4607182418800017408) ∧
    field_of h' (VRef 9) "chat" "on" = Some (VBool true).
Proof.
  assert (separate ex_heap 4 ex_src 9 ex_dst) as Hsep by (split; compute_done).
  split; [done|].
  destruct (apply_binds_field_isolation ex_heap 4 ex_src 9 ex_dst Hsep)
    as (h' & Hrun & Hsame & _).
  exists h'. by rewrite !Hsame.
Defined.

(** C9 (an entry that is not a mapping is replaced). For two separately
    loaded documents, if the module [m] is in both, the source's entry for
    [m] is a mapping with a 'key' field holding [k], and the target's entry
    for [m] is not a mapping, then [apply_binds] returns the target and the
    target's entry for [m] is another value, a mapping with the one field
    'key', holding [k]. *)
Theorem apply_binds_replaces_non_mapping h s sits d dits m sp k v :
  separate h s sits d dits →
  dict_get m sits = Some sp → field h sp "key" = Some k →
  dict_get m dits = Some v → is_dict h v = false →
  ∃ h' e,
    apply_binds h (VRef s) (VRef d) = Ok (h', VRef d) ∧
    entry h' (VRef d) m = Some e ∧ e ≠ v ∧
    dict_of h' e = Some [("key", k)].
Proof.
  intros Hsep Hsp Hk Hv Hvd.
  destruct (apply_binds_spec _ _ _ _ _ Hsep)
    as (h1 & h2 & dits2 & Hrun & Hinv & Hinv1 & Hst & Hkey & Hpr).
  destruct (merged_key _ _ _ _ _ _ _ _ Hinv Hst Hpr m sp k v)
    as (e & He & _ & Hnew); [done..|].
  exists h2, e. split_and!; [done..| |by auto].
  intros ->. specialize (Hnew Hvd).
  apply dict_of_Some in Hnew as (l & -> & Hl).
  assert (l < length h1) as Hlt by (by eapply dst_closed).
  assert (is_dict h2 (VRef l) = true) as Hd2 by (apply is_dict_true; eauto).
  rewrite (pr_is_dict _ _ _ _ _ _ _ _ Hpr l Hlt) in Hd2.
  rewrite (st_is_dict _ _ _ Hst) in Hd2. congruence.
Qed.

Lemma apply_binds_replaces_non_mapping_witness :
  separate ex_heap 4 ex_src 9 ex_dst ∧
  ∃ h' e,
    apply_binds ex_heap (VRef 4) (VRef 9) = Ok (h', VRef 9) ∧
    entry h' (VRef 9) "fly" = Some e ∧ e ≠ VRef 7 ∧
    dict_of h' e = Some [("key", VRef 2)].
Proof.
  assert (separate ex_heap 4 ex_src 9 ex_dst) as Hsep by (split; compute_done).
  split; [done|].
  by apply (apply_binds_replaces_non_mapping
              ex_heap 4 ex_src 9 ex_dst "fly" (VRef 3)).
Defined.

(** The merge writes to the dicts of the target and to new objects only. *)
Lemma apply_binds_frame h s sits d dits :
  separate h s sits d dits →
  ∃ h',
    apply_binds h (VRef s) (VRef d) = Ok (h', VRef d) ∧
    ∀ l, l < length h → l ∉ dicts_of h d dits → h' !! l = h !! l.
Proof.
  intros Hsep.
  destruct (apply_binds_spec _ _ _ _ _ Hsep)
    as (h1 & h2 & dits2 & Hrun & Hinv & Hinv1 & Hst & Hkey & Hpr).
  exists h2. split; [done|]. intros l. by eapply merged_frame.
Qed.

(** In [main], where the target is loaded after the source, the source
    dumps to the same JSON after the merge, at every depth. *)
Lemma loaded_source_unchanged h s sits ms h1 d n :
  heap_ok h → h !! s = Some (ODict sits) →
  json_load (JObj ms) h = (h1, VRef d) →
  ∃ h2,
    apply_binds h1 (VRef s) (VRef d) = Ok (h2, VRef d) ∧
    json_dump n h2 (VRef s) = json_dump n h1 (VRef s).
Proof.
  intros Hok Hs Hload.
  destruct (json_load_separate _ _ _ _ _ _ Hok Hs Hload)
    as (d' & dits & [= <-] & Hsep).
  destruct (apply_binds_frame _ _ _ _ _ Hsep) as (h2 & Hrun & Hframe).
  exists h2. split; [done|]. apply json_dump_frame. intros l Hl.
  apply Hframe.
  - assert (s < length h1) by (eapply lookup_lt_Some; apply Hsep).
    by eapply (proj1 (Forall_forall _ _)
                 (reach_closed n h1 (VRef s) (sep_ok _ _ _ _ _ Hsep) ltac:(done))).
  - eapply (proj1 (Forall_forall _ _)
              (json_load_source_apart _ _ _ _ _ _ _ n Hok Hs Hload
                 (sep_dst _ _ _ _ _ Hsep))); done.
Qed.

(** C10 (the source is only read). For two separately loaded documents,
    [apply_binds] returns the target and writes to no object but the dicts
    the target is made of (and new ones): every other object is as it was.
    So the source is the dict it was, and when the traversal of the source
    meets no dict of the target, the source dumps to the same JSON as
    before the call. *)
Theorem apply_binds_source_unchanged h s sits d dits :
  separate h s sits d dits →
  ∃ h',
    apply_binds h (VRef s) (VRef d) = Ok (h', VRef d) ∧
    (∀ l o, h !! l = Some o → l ∉ dicts_of h d dits → h' !! l = Some o) ∧
    h' !! s = Some (ODict sits) ∧
    (∀ n, Forall (λ l, l ∉ dicts_of h d dits) (reach n h (VRef s)) →
          json_dump n h' (VRef s) = json_dump n h (VRef s)).
Proof.
  intros Hsep.
  destruct (apply_binds_spec _ _ _ _ _ Hsep)
    as (h1 & h2 & dits2 & Hrun & Hinv & Hinv1 & Hst & Hkey & Hpr).
  assert (∀ l o, h !! l = Some o → l ∉ dicts_of h d dits → h2 !! l = Some o)
    as Hframe.
  { intros l o Hl Hout. rewrite <-Hl.
    eapply merged_frame; [done..|by eapply lookup_lt_Some|done]. }
  exists h2. split_and!; [done..| |].
  - apply Hframe; [apply Hinv|].
    destruct Hsep as [_ _ _ _ Hapart].
    by apply Forall_cons in Hapart as [? _].
  - intros n Hout. apply json_dump_frame. intros l Hl.
    eapply merged_frame; [done..| |].
    + assert (s < length h) by (eapply lookup_lt_Some; apply Hinv).
      by eapply (proj1 (Forall_forall _ _)
                   (reach_closed n h (VRef s) (inv_ok _ _ _ _ _ Hinv) ltac:(done))).
    + by eapply (proj1 (Forall_forall _ _) Hout).
Qed.

Lemma apply_binds_source_unchanged_witness :
  separate ex_heap 4 ex_src 9 ex_dst ∧
  ∃ h',
    apply_binds ex_heap (VRef 4) (VRef 9) = Ok (h', VRef 9) ∧
    h' !! 4 = Some (ODict ex_src) ∧
    json_dump 4 h' (VRef 4) = json_dump 4 ex_heap (VRef 4).
Proof.
  assert (separate ex_heap 4 ex_src 9 ex_dst) as Hsep by (split; compute_done).
  split; [done|].
  destruct (apply_binds_source_unchanged ex_heap 4 ex_src 9 ex_dst Hsep)
    as (h' & Hrun & _ & Hs & Hdump).
  exists h'. split_and!; [done..|]. apply Hdump. compute_done.
Defined.

(** C8, as stated, fails: on Scenario A the copy pass followed by the strip
    pass leaves [move] without the key the source has for it. *)
Lemma passes_order_matters :
  merged_json 2 (apply_binds scenario_A (VRef 2) (VRef 5))
  = Some (JObj [("move", JObj [("sens", JFloat 4607182418800017408);
                               ("key", JStr "W")]);
                ("chat", JObj [])]) ∧
  merged_json 2 (apply_binds_swapped scenario_A (VRef 2) (VRef 5))
  = Some (JObj [("move", JObj [("sens", JFloat 4607182418800017408)]);
                ("chat", JObj [])]) ∧
  merged_json 2 (apply_binds_swapped scenario_A (VRef 2) (VRef 5))
  ≠ merged_json 2 (apply_binds scenario_A (VRef 2) (VRef 5)).
Proof. split_and!; [reflexivity|reflexivity|discriminate]. Qed.

(** C8, amended. For two separately loaded documents the order of the two
    passes matters exactly when there is something to copy. When no module
    of the target has a 'key' field in the source, both orders give the
    same store. When the module [m] of the target has one, holding [k],
    both orders return the target, but strip-then-copy ([apply_binds])
    leaves [k] in the 'key' field of [m] and copy-then-strip leaves [m]
    with no 'key' field. *)
Theorem passes_commute_iff_nothing_copied h s sits d dits :
  separate h s sits d dits →
  ((∀ m sp, dict_get m sits = Some sp → is_Some (dict_get m dits) →
            field h sp "key" = None) →
   apply_binds_swapped h (VRef s) (VRef d) = apply_binds h (VRef s) (VRef d)) ∧
  (∀ m sp k,
     dict_get m sits = Some sp → is_Some (dict_get m dits) →
     field h sp "key" = Some k →
     ∃ h' h'',
       apply_binds h (VRef s) (VRef d) = Ok (h', VRef d) ∧
       apply_binds_swapped h (VRef s) (VRef d) = Ok (h'', VRef d) ∧
       field_of h' (VRef d) m "key" = Some k ∧
       field_of h'' (VRef d) m "key" = None).
Proof.
  intros Hsep. pose proof (separate_inv _ _ _ _ _ Hsep) as Hinv. split.
  - intros Hnone.
    destruct (strip_pass_spec _ _ _ _ _ Hinv) as (h1 & Hstrip & Hinv1 & Hst & _).
    unfold apply_binds, apply_binds_swapped, copy_pass. simpl.
    rewrite (inv_src _ _ _ _ _ Hinv), Hstrip. simpl.
    rewrite (inv_src _ _ _ _ _ Hinv1).
    rewrite (copy_loop_nothing h s sits d dits), (copy_loop_nothing h1 s sits d dits);
      try done.
    + simpl. by rewrite Hstrip.
    + intros m sp Hsp. destruct (dict_get m dits) eqn:Hm; [|by left].
      right. unfold field. rewrite (stripped_src _ _ _ _ _ _ _ _ Hinv Hst Hsp).
      apply (Hnone m); [done|]. by rewrite Hm.
    + intros m sp Hsp. destruct (dict_get m dits) eqn:Hm; [|by left].
      right. apply (Hnone m); [done|]. by rewrite Hm.
  - intros m sp k Hsp [cur Hcur] Hk.
    destruct (apply_binds_spec _ _ _ _ _ Hsep)
      as (h1 & h2 & dits2 & Hrun & _ & Hinv1 & Hst & Hkey & Hpr).
    destruct (merged_key _ _ _ _ _ _ _ _ Hinv Hst Hpr m sp k cur)
      as (e & He & Hke & _); [done..|].
    destruct (copy_pass_spec _ _ _ _ _ Hinv) as (hc & ditsc & Hcopy & Hprc).
    pose proof (pr_inv _ _ _ _ _ _ _ _ Hprc) as Hinvc.
    destruct (strip_pass_spec _ _ _ _ _ Hinvc) as (hs & Hstrip & Hinvs & _ & Hnokey).
    exists h2, hs. split_and!.
    + done.
    + unfold apply_binds_swapped. rewrite Hcopy. simpl. by rewrite Hstrip.
    + unfold field_of. by rewrite He.
    + unfold field_of, entry. simpl. rewrite (inv_dst _ _ _ _ _ Hinvs). simpl.
      destruct (dict_get m ditsc) as [x|] eqn:Hx; [|done]. simpl.
      by apply (Hnokey m).
Qed.

Lemma passes_commute_iff_nothing_copied_witness :
  separate ex_heap 4 ex_src 9 ex_dst ∧
  ∃ h' h'',
    apply_binds ex_heap (VRef 4) (VRef 9) = Ok (h', VRef 9) ∧
    apply_binds_swapped ex_heap (VRef 4) (VRef 9) = Ok (h'', VRef 9) ∧
    field_of h' (VRef 9) "move" "key" = Some (VStr "W") ∧
    field_of h'' (VRef 9) "move" "key" = None.
Proof.
  assert (separate ex_heap 4 ex_src 9 ex_dst) as Hsep by (split; compute_done).
  split; [done|].
  destruct (passes_commute_iff_nothing_copied ex_heap 4 ex_src 9 ex_dst Hsep)
    as [_ Hdiff].
  apply (Hdiff "move" (VRef 0) (VStr "W")); [reflexivity|by eexists|reflexivity].
Defined.

(** * The batch run *)

Lemma io_bind_Ok {A B} (m : io A) (f : A → io B) w w' b :
  (m ≫= f) w = (w', Ok b) →
  ∃ w1 a, m w = (w1, Ok a) ∧ f a w1 = (w', Ok b).
Proof.
  unfold mbind, io_bind. destruct (m w) as [w1 [a|e]]; [eauto|done].
Qed.

Lemma str_format_default base :
  str_format OUTPUT_NAME_PATTERN None base = Ok (base +:+ "_mybind.json").
Proof. reflexivity. Qed.

Section batch_facts.
Variables (os : os_path) (can_write : string → bool) (depth : nat).
Variables (ask : bool) (pattern : string).
Variables (src_cfg : val) (n_targets : nat).
Variables (chosen_out_file chosen_out_dir : option string).

Local Abbreviation run_target :=
  (process_target os can_write depth ask pattern src_cfg n_targets
     chosen_out_file chosen_out_dir).
Local Abbreviation run :=
  (process os can_write depth ask pattern src_cfg n_targets
     chosen_out_file chosen_out_dir).

Lemma process_target_out dst_path w w' out :
  run_target dst_path w = (w', Ok out) →
  out_path_of os ask pattern n_targets chosen_out_file chosen_out_dir dst_path
  = Ok out.
Proof.
  unfold process_target. intros Hrun.
  apply io_bind_Ok in Hrun as (w1 & dst_cfg & _ & Hrun).
  apply io_bind_Ok in Hrun as (w2 & updated & _ & Hrun).
  apply io_bind_Ok in Hrun as (w3 & out_path & Hout & Hrun).
  apply io_bind_Ok in Hrun as (w4 & [] & _ & Hrun).
  unfold mret, io_ret in Hrun. by simplify_eq.
Qed.

Lemma process_out dst_paths generated_paths w w' outs :
  run dst_paths generated_paths w = (w', Ok outs) →
  ∃ outs',
    outs = generated_paths ++ outs' ∧
    Forall2 (λ dst out,
               out_path_of os ask pattern n_targets chosen_out_file
                 chosen_out_dir dst = Ok out) dst_paths outs'.
Proof.
  revert generated_paths w.
  induction dst_paths as [|dst rest IH]; intros gen w Hrun; simpl in Hrun.
  - unfold mret, io_ret in Hrun. simplify_eq. exists [].
    split; [by rewrite app_nil_r|constructor].
  - apply io_bind_Ok in Hrun as (w1 & out & Hout%process_target_out & Hrun).
    apply IH in Hrun as (outs' & -> & Hall).
    exists (out :: outs'). split; [by rewrite <-app_assoc|].
    by constructor.
Qed.

Lemma process_app pre post generated_paths w :
  run (pre ++ post) generated_paths w
  = match run pre generated_paths w with
    | (w1, Ok outs) => run post outs w1
    | (w1, Raise e) => (w1, Raise e)
    end.
Proof.
  revert generated_paths w.
  induction pre as [|dst pre IH]; intros gen w; simpl; [done|].
  unfold mbind, io_bind.
  destruct (process_target _ _ _ _ _ _ _ _ _ dst w) as [w1 [out|e]]; [|done].
  apply IH.
Qed.

Lemma process_target_load_fails dst_path w :
  files w !! dst_path = None ∨ files w !! dst_path = Some NotJson →
  run_target dst_path w = (w, Raise (LoadError dst_path)).
Proof.
  intros Hfile. unfold process_target, mbind, io_bind, load_json.
  by destruct Hfile as [-> | ->].
Qed.
End batch_facts.

Lemma json_load_root j h h' v :
  json_load j h = (h', v) →
  match j with
  | JObj _ => is_dict h' v = true
  | _ => is_dict h' v = false
  end.
Proof.
  destruct j as [| | | | |js|ms]; simpl; try by intros [= <- <-].
  - match goal with |- (let (_, _) := ?x in _) = _ → _ =>
      destruct x as [h1 vs] end.
    intros [= <- <-]. unfold is_dict. simpl.
    by rewrite lookup_app_r, Nat.sub_diag.
  - match goal with |- (let (_, _) := ?x in _) = _ → _ =>
      destruct x as [h1 its] end.
    intros [= <- <-]. unfold is_dict. simpl.
    by rewrite lookup_app_r, Nat.sub_diag.
Qed.

(** In the loop of [main] every merge is between separate documents: a
    target that loads as an object is separate from the source, and after
    the target is processed the store is well formed and the source is the
    dict it was. *)
Lemma load_json_separate path w s sits ms :
  heap_ok (store w) → store w !! s = Some (ODict sits) →
  files w !! path = Some (JsonText (JObj ms)) →
  ∃ h d dits,
    load_json path w = (World (files w) h, Ok (VRef d)) ∧
    separate h s sits d dits.
Proof.
  intros Hok Hs Hfile. unfold load_json. rewrite Hfile.
  destruct (json_load (JObj ms) (store w)) as [h v] eqn:Hload.
  destruct (json_load_separate _ _ _ _ _ _ Hok Hs Hload) as (d & dits & -> & Hsep).
  by exists h, d, dits.
Qed.

Lemma process_target_keeps_source os can_write depth ask pattern s sits
    n_targets chosen_out_file chosen_out_dir dst_path w w' out :
  heap_ok (store w) → store w !! s = Some (ODict sits) →
  process_target os can_write depth ask pattern (VRef s) n_targets
    chosen_out_file chosen_out_dir dst_path w = (w', Ok out) →
  heap_ok (store w') ∧ store w' !! s = Some (ODict sits).
Proof.
  intros Hok Hs Hrun. unfold process_target in Hrun.
  apply io_bind_Ok in Hrun as (w1 & dst_cfg & Hload & Hrun).
  apply io_bind_Ok in Hrun as (w2 & updated & Hmerge & Hrun).
  apply io_bind_Ok in Hrun as (w3 & out_path & Hout & Hrun).
  apply io_bind_Ok in Hrun as (w4 & [] & Hsave & Hrun).
  unfold mret, io_ret in Hrun. injection Hrun as <- _.
  injection Hout as <- _.
  assert (store w4 = store w2) as ->.
  { unfold save_json in Hsave. destruct (can_write out_path); [|done].
    destruct (json_dump depth (store w2) updated); by injection Hsave as <-. }
  unfold load_json in Hload.
  destruct (files w !! dst_path) as [[|j]|] eqn:Hfile; try done.
  destruct (json_load j (store w)) as [h v] eqn:Hj.
  injection Hload as <- <-.
  unfold in_store in Hmerge. simpl in Hmerge.
  destruct (apply_binds h (VRef s) v) as [[h2 r]|] eqn:Hrun; [|done].
  injection Hmerge as <- _. simpl.
  destruct j as [| | | | | |ms];
    try (pose proof (json_load_root _ _ _ _ Hj) as Hnd; simpl in Hnd;
         unfold apply_binds, strip_pass in Hrun;
         apply is_dict_false in Hnd; by rewrite Hnd in Hrun).
  destruct (json_load_separate _ _ _ _ _ _ Hok Hs Hj) as (d & dits & -> & Hsep).
  destruct (apply_binds_spec _ _ _ _ _ Hsep)
    as (h1 & h2' & dits2 & Hrun' & _ & _ & _ & _ & Hpr).
  rewrite Hrun' in Hrun. injection Hrun as <- _.
  pose proof (pr_inv _ _ _ _ _ _ _ _ Hpr) as Hinv.
  split; apply Hinv.
Qed.

(** C4 (outputs in sibling mode). When [ASK_WHERE_TO_SAVE] is off, as it is
    in the source, and the run succeeds, there was at least one target, and
    the returned paths are as many as the targets, in their order: the path
    for a target is its own directory joined with the pattern applied to
    the stem of its file name. With the pattern of the source,
    ["{base}_mybind.json"], the file name is the stem followed by
    ["_mybind.json"]. *)
Theorem main_sibling_outputs os can_write depth pattern src_path dst_paths
    chosen_out_file chosen_out_dir w w' outs :
  main os can_write depth ASK_WHERE_TO_SAVE pattern src_path dst_paths
    chosen_out_file chosen_out_dir w = (w', Ok outs) →
  dst_paths ≠ [] ∧
  length outs = length dst_paths ∧
  Forall2 (λ dst out,
             ∃ name,
               str_format pattern None (splitext os (basename os dst)).1
               = Ok name ∧
               out = join os (dirname os dst) name) dst_paths outs ∧
  (pattern = OUTPUT_NAME_PATTERN →
   outs = (λ dst, join os (dirname os dst)
                    ((splitext os (basename os dst)).1 +:+ "_mybind.json"))
          <$> dst_paths).
Proof.
  unfold main. intros Hrun.
  case_bool_decide; [done|]. case_bool_decide as Hne; [done|].
  apply io_bind_Ok in Hrun as (w1 & src_cfg & _ & Hrun).
  apply process_out in Hrun as (outs' & -> & Hall). simpl.
  assert (Forall2 (λ dst out,
            ∃ name,
              str_format pattern None (splitext os (basename os dst)).1
              = Ok name ∧
              out = join os (dirname os dst) name) dst_paths outs') as Hall'.
  { eapply Forall2_impl; [done|]. intros dst out. simpl.
    unfold out_path_of, pattern_path. simpl.
    destruct (splitext os (basename os dst)) as [base ext]. simpl.
    destruct (str_format pattern None base) as [name|]; [|done].
    simpl. intros [= <-]. eauto. }
  split_and!; [done| |done|].
  - symmetry. by eapply Forall2_length.
  - intros ->. clear Hall Hne.
    induction Hall' as [|dst out l k Hhd _ IH]; [done|].
    destruct Hhd as (name & Hname & ->).
    rewrite str_format_default in Hname. injection Hname as <-.
    csimpl. by rewrite IH.
Qed.

Lemma main_sibling_outputs_witness :
  ∃ w',
    main posixpath (λ _, true) 8 ASK_WHERE_TO_SAVE OUTPUT_NAME_PATTERN
      "/cfg/src.json" ["/cfg/a.json"; "/cfg/b.json"] None None scenario_C
    = (w', Ok ["/cfg/a_mybind.json"; "/cfg/b_mybind.json"]) ∧
    ["/cfg/a_mybind.json"; "/cfg/b_mybind.json"]
    = (λ dst, join posixpath (dirname posixpath dst)
                ((splitext posixpath (basename posixpath dst)).1
                 +:+ "_mybind.json"))
      <$> ["/cfg/a.json"; "/cfg/b.json"].
Proof.
  eexists. split; [vm_compute; reflexivity|].
  eapply (main_sibling_outputs posixpath (λ _, true) 8 OUTPUT_NAME_PATTERN
            "/cfg/src.json" ["/cfg/a.json"; "/cfg/b.json"] None None scenario_C);
    [vm_compute; reflexivity|reflexivity].
Defined.

(** C5 (a target that does not load halts the run). If the source loads,
    the targets before [p] are processed without error, and then [p] cannot
    be read or is not JSON, [main] ends with the load error for [p] in the
    very world the earlier targets left: nothing is written for [p], no
    later target is loaded, merged or written, and the files written before
    stay as they are. *)
Theorem main_halts_on_load_failure os can_write depth ask pattern src_path
    pre p post chosen_out_file chosen_out_dir w w0 src_cfg w1 outs :
  src_path ≠ "" →
  load_json src_path w = (w0, Ok src_cfg) →
  process os can_write depth ask pattern src_cfg (length (pre ++ p :: post))
    chosen_out_file chosen_out_dir pre [] w0 = (w1, Ok outs) →
  files w1 !! p = None ∨ files w1 !! p = Some NotJson →
  main os can_write depth ask pattern src_path (pre ++ p :: post)
    chosen_out_file chosen_out_dir w = (w1, Raise (LoadError p)).
Proof.
  intros Hsrc Hload Hpre Hfile. unfold main.
  rewrite bool_decide_eq_false_2 by done.
  rewrite bool_decide_eq_false_2 by (by destruct pre).
  unfold mbind at 1, io_bind. rewrite Hload.
  rewrite process_app, Hpre. simpl.
  unfold mbind at 1, io_bind.
  by rewrite process_target_load_fails.
Qed.

Lemma main_halts_on_load_failure_witness :
  ∃ w1,
    files w1 !! "/cfg/a_mybind.json"
    = Some (JsonText
        (JObj [("move", JObj [("sens", JFloat 4607182418800017408);
                              ("key", JStr "W")]);
               ("chat", JObj [])])) ∧
    files w1 !! "/cfg/bad_mybind.json" = None ∧
    files w1 !! "/cfg/b_mybind.json" = None ∧
    main posixpath (λ _, true) 8 ASK_WHERE_TO_SAVE OUTPUT_NAME_PATTERN
      "/cfg/src.json"
      (["/cfg/a.json"] ++ "/cfg/bad.json" :: ["/cfg/b.json"]) None None
      scenario_E
    = (w1, Raise (LoadError "/cfg/bad.json")).
Proof.
  eexists. split_and!; [..|
    eapply (main_halts_on_load_failure posixpath (λ _, true) 8
              ASK_WHERE_TO_SAVE OUTPUT_NAME_PATTERN "/cfg/src.json"
              ["/cfg/a.json"]
              "/cfg/bad.json" ["/cfg/b.json"] None None scenario_E);
    [done|vm_compute; reflexivity|vm_compute; reflexivity|
     right; vm_compute; reflexivity]];
    vm_compute; reflexivity.
Defined.

(** * Loading *)

(** C7, as stated, fails: a file whose root is an array loads without a
    load error, and [load_json] returns the list. *)
Lemma load_json_accepts_array :
  load_json "/cfg/list.json" array_file
  = (World (files array_file) [OList [VInt 1; VInt 2]], Ok (VRef 0)) ∧
  (load_json "/cfg/list.json" array_file).2 ≠ Raise (LoadError "/cfg/list.json").
Proof. split; [reflexivity|discriminate]. Qed.

(** C7, amended. [load_json] ends the run with a load error exactly when
    the file cannot be read or is not JSON text, and leaves the world as it
    is then. A JSON text loads whatever its root is: [load_json] returns
    what [json.load] built, a dict when the root is an object; when the root
    is anything else the value is not a dict, and [apply_binds] raises
    AttributeError on such a target and on such a source. *)
Theorem load_json_any_root path w :
  (files w !! path = None ∨ files w !! path = Some NotJson →
   load_json path w = (w, Raise (LoadError path))) ∧
  (∀ j, files w !! path = Some (JsonText j) →
     ∃ h v,
       load_json path w = (World (files w) h, Ok v) ∧
       json_load j (store w) = (h, v) ∧
       ((∃ ms, j = JObj ms) → is_dict h v = true) ∧
       ((∀ ms, j ≠ JObj ms) →
        is_dict h v = false ∧
        (∀ src_cfg, apply_binds h src_cfg v = Raise AttributeError) ∧
        (∀ dst_cfg, apply_binds h v dst_cfg = Raise AttributeError))).
Proof.
  split.
  - unfold load_json. by intros [-> | ->].
  - intros j Hj. unfold load_json. rewrite Hj.
    destruct (json_load j (store w)) as [h v] eqn:Hload.
    exists h, v. pose proof (json_load_root _ _ _ _ Hload) as Hroot.
    split_and!; [done..| |].
    + by intros [ms ->].
    + intros Hnot.
      assert (is_dict h v = false) as Hnd.
      { destruct j; try done. by destruct (Hnot members). }
      split_and!; [done| |].
      * intros src_cfg. unfold apply_binds, strip_pass.
        apply is_dict_false in Hnd. by rewrite Hnd.
      * intros dst_cfg. unfold apply_binds, strip_pass.
        destruct (dict_of h dst_cfg) as [its|]; [|done]. simpl.
        unfold copy_pass.
        assert (is_dict (foldl (λ h it, strip_entry h it.2) h its) v = false)
          as Hnd'.
        { apply (foldl_inv _ (λ h', is_dict h' v = false)); [done|].
          intros h' it _. by rewrite strip_entry_is_dict. }
        apply is_dict_false in Hnd'. by rewrite Hnd'.
Qed.

Lemma load_json_any_root_witness :
  ∃ h v,
    load_json "/cfg/list.json" array_file = (World (files array_file) h, Ok v) ∧
    is_dict h v = false ∧
    apply_binds h (VRef 0) v = Raise AttributeError.
Proof.
  destruct (load_json_any_root "/cfg/list.json" array_file) as [_ Hany].
  destruct (Hany (JArr [JInt 1; JInt 2])) as (h & v & Hload & _ & _ & Hnot);
    [reflexivity|].
  exists h, v. destruct Hnot as (Hnd & Hraise & _); [by intros ms|]. auto.
Defined.

(** * More on the merge *)

(** ** The strip pass alone *)

Lemma dict_pop_absent (k : string) (d : dict) :
  dict_get k d = None → dict_pop k d = d.
Proof.
  induction d as [|[k0 v0] d IH]; csimpl; [done|].
  destruct (decide (k = k0)); [done|]. intros Hd. by rewrite IH.
Qed.

Lemma dict_pop_subseteq (k : string) (d : dict) : dict_pop k d ⊆ d.
Proof.
  induction d as [|[k0 v0] d IH]; csimpl; [done|].
  destruct (decide (k = k0)).
  - intros x ?. by right.
  - intros x [->|?]%elem_of_cons; [left|right; by apply IH].
Qed.

Lemma strip_entry_no_key (h : heap) (v : val) :
  field h v "key" = None → strip_entry h v = h.
Proof.
  destruct (strip_entry_cases h v) as [->|(e & fs & -> & He & ->)]; [done|].
  unfold field. simpl. rewrite He. simpl. intros Hk.
  rewrite dict_pop_absent by done. by apply list_insert_id.
Qed.

(** Every dict is after the strip pass a part of what it was. *)
Lemma strip_fold_sub (its : dict) (h : heap) (l : loc) (fs : dict) :
  h !! l = Some (ODict fs) →
  ∃ fs1, foldl (λ h it, strip_entry h it.2) h its !! l = Some (ODict fs1) ∧
         fs1 ⊆ fs.
Proof.
  intros Hl.
  apply (foldl_inv _ (λ h', ∃ fs1, h' !! l = Some (ODict fs1) ∧ fs1 ⊆ fs)).
  { by exists fs. }
  intros h' it _ (fs1 & Hl' & Hsub).
  destruct (strip_entry_cases h' it.2) as [->|(e & gs & _ & He & ->)];
    [by eauto|].
  destruct (decide (e = l)) as [->|Hne].
  - exists (dict_pop "key" gs). split.
    + apply list_lookup_insert_eq. by eapply lookup_lt_Some.
    + assert (gs = fs1) as -> by congruence.
      etrans; [apply dict_pop_subseteq|done].
  - exists fs1. by rewrite list_lookup_insert_ne.
Qed.

(** X1 (the strip pass is idempotent). In a well-formed store, when the
    strip pass has run on a document, running it again changes nothing. *)
Theorem strip_pass_idempotent (h h1 : heap) (dst_cfg : val) :
  heap_ok h → strip_pass h dst_cfg = Ok h1 → strip_pass h1 dst_cfg = Ok h1.
Proof.
  intros Hok. unfold strip_pass.
  destruct (dict_of h dst_cfg) as [dits|] eqn:Hd; [|done]. intros [= <-].
  apply dict_of_Some in Hd as (d & -> & Hd). simpl.
  destruct (strip_fold_sub dits h d dits Hd) as (dits1 & -> & Hsub).
  f_equal. apply (foldl_inv _ (λ h', h' = _)); [done|].
  intros h' [m v] Hin ->. apply strip_entry_no_key, strip_fold_key; [done|].
  apply list_elem_of_fmap. exists (m, v). split; [done|]. by apply Hsub.
Qed.

Lemma strip_pass_idempotent_witness :
  heap_ok scenario_A ∧
  ∃ h1, strip_pass scenario_A (VRef 5) = Ok h1 ∧ strip_pass h1 (VRef 5) = Ok h1.
Proof.
  assert (heap_ok scenario_A) as Hok by compute_done.
  split; [done|]. eexists. split; [reflexivity|].
  by apply (strip_pass_idempotent scenario_A).
Defined.

(** ** A copy pass that copies nothing *)

Lemma copy_loop_const (h : heap) (src_cfg dst_cfg : val) (its : dict) n i :
  dict_of h src_cfg = Some its →
  (∀ m sp, (m, sp) ∈ its → copy_entry h dst_cfg m sp = Ok h) →
  copy_loop n i (length its) h src_cfg dst_cfg = Ok h.
Proof.
  intros Hsrc Hstep. revert i. induction n as [|n IH]; intros i; simpl;
    rewrite Hsrc, bool_decide_eq_true_2 by done; [done|].
  simpl. destruct (its !! i) as [[m sp]|] eqn:Hi; [|done].
  rewrite Hstep by (by eapply list_elem_of_lookup_2). simpl. apply IH.
Qed.

Lemma copy_entry_absent (h : heap) (d : loc) (dits : dict) (m : string) sp :
  h !! d = Some (ODict dits) → m ∉ dits.*1 →
  copy_entry h (VRef d) m sp = Ok h.
Proof.
  intros Hd Hm. unfold copy_entry. simpl. rewrite Hd. simpl.
  rewrite bool_decide_eq_false_2; [done|].
  by rewrite dict_get_is_Some.
Qed.

Lemma copy_entry_no_key (h : heap) (dst_cfg : val) (m : string) sp present :
  contains h dst_cfg m = Ok present → field h sp "key" = None →
  copy_entry h dst_cfg m sp = Ok h.
Proof.
  intros Hc Hk. unfold copy_entry. rewrite Hc. simpl.
  unfold field in Hk. rewrite Hk.
  rewrite (bool_decide_eq_false_2 (is_Some None)) by (by intros []).
  by rewrite !andb_false_r.
Qed.

(** With no module name in common the merge is the strip pass. *)
Lemma apply_binds_disjoint (h h1 : heap) (s d : loc) (sits dits : dict) :
  h !! s = Some (ODict sits) → h !! d = Some (ODict dits) →
  (∀ m, m ∈ sits.*1 → m ∉ dits.*1) →
  strip_pass h (VRef d) = Ok h1 →
  apply_binds h (VRef s) (VRef d) = Ok (h1, VRef d).
Proof.
  intros Hs Hd Hdis Hstrip. unfold apply_binds. rewrite Hstrip. simpl.
  unfold strip_pass in Hstrip. simpl in Hstrip. rewrite Hd in Hstrip.
  injection Hstrip as <-.
  destruct (strip_fold_sub dits h s sits Hs) as (sits1 & Hs1 & Hsub).
  destruct (strip_fold_sub dits h d dits Hd) as (dits1 & Hd1 & Hsubd).
  unfold copy_pass. simpl. rewrite Hs1.
  rewrite copy_loop_const; [done|by simpl; rewrite Hs1|].
  intros m sp Hin. eapply copy_entry_absent; [done|].
  intros (x & -> & Hx%Hsubd)%list_elem_of_fmap.
  apply (Hdis x.1).
  - apply list_elem_of_fmap. exists (x.1, sp). split; [done|]. by apply Hsub.
  - apply list_elem_of_fmap. by exists x.
Qed.

(** X2 (modules of the source alone are ignored). When no module name of
    the source is a module name of the target, [apply_binds] returns the
    target after the strip pass: the copy pass changes nothing, whatever
    the two documents share. *)
Theorem apply_binds_nothing_in_common (h : heap) (s d : loc) (sits dits : dict) :
  h !! s = Some (ODict sits) → h !! d = Some (ODict dits) →
  (∀ m, m ∈ sits.*1 → m ∉ dits.*1) →
  ∃ h1,
    strip_pass h (VRef d) = Ok h1 ∧
    apply_binds h (VRef s) (VRef d) = Ok (h1, VRef d).
Proof.
  intros Hs Hd Hdis.
  assert (∃ h1, strip_pass h (VRef d) = Ok h1) as [h1 Hstrip].
  { unfold strip_pass. simpl. rewrite Hd. eauto. }
  exists h1. split; [done|]. by eapply apply_binds_disjoint.
Qed.

Lemma apply_binds_nothing_in_common_witness :
  ∃ h1,
    strip_pass scenario_A (VRef 3) = Ok h1 ∧
    apply_binds scenario_A (VRef 2) (VRef 3) = Ok (h1, VRef 3).
Proof.
  apply (apply_binds_nothing_in_common scenario_A 2 3
           [("move", VRef 0); ("jump", VRef 1)]
           [("key", VStr "UP"); ("sens", VFloat 4607182418800017408)]);
    [reflexivity|reflexivity|].
  apply (proj1 (Forall_forall _ _)). compute_done.
Defined.

(** X3 (an empty target). Merging any document into a target that has no
    module returns the target and leaves the whole store as it is. *)
Theorem apply_binds_empty_target (h : heap) (src_cfg : val) (d : loc) :
  is_dict h src_cfg = true → h !! d = Some (ODict []) →
  apply_binds h src_cfg (VRef d) = Ok (h, VRef d).
Proof.
  intros (s & sits & -> & Hs)%is_dict_true Hd.
  eapply apply_binds_disjoint; [done..| |].
  - intros m _. apply not_elem_of_nil.
  - unfold strip_pass. simpl. by rewrite Hd.
Qed.

Lemma apply_binds_empty_target_witness :
  apply_binds [ODict [("move", VRef 1)]; ODict [("key", VInt 1)]; ODict []]
    (VRef 0) (VRef 2)
  = Ok ([ODict [("move", VRef 1)]; ODict [("key", VInt 1)]; ODict []], VRef 2).
Proof.
  by apply (apply_binds_empty_target
              [ODict [("move", VRef 1)]; ODict [("key", VInt 1)]; ODict []]
              (VRef 0) 2).
Defined.

(** X4 (a document merged into itself). When source and target are one and
    the same object of a well-formed store, [apply_binds] is the strip pass:
    every 'key' field is removed and none is restored. *)
Theorem apply_binds_same_object (h h1 : heap) (cfg : val) :
  heap_ok h → strip_pass h cfg = Ok h1 →
  apply_binds h cfg cfg = Ok (h1, cfg).
Proof.
  intros Hok Hstrip. unfold apply_binds. rewrite Hstrip. simpl.
  unfold strip_pass in Hstrip.
  destruct (dict_of h cfg) as [dits|] eqn:Hd; [|done]. injection Hstrip as <-.
  apply dict_of_Some in Hd as (d & -> & Hd).
  destruct (strip_fold_sub dits h d dits Hd) as (dits1 & Hd1 & Hsub).
  unfold copy_pass. simpl. rewrite Hd1.
  rewrite copy_loop_const; [done|by simpl; rewrite Hd1|].
  intros m sp Hin. eapply copy_entry_no_key.
  - simpl. by rewrite Hd1.
  - apply strip_fold_key; [done|].
    apply list_elem_of_fmap. exists (m, sp). split; [done|]. by apply Hsub.
Qed.

Lemma apply_binds_same_object_witness :
  heap_ok scenario_A ∧
  ∃ h1,
    strip_pass scenario_A (VRef 5) = Ok h1 ∧
    apply_binds scenario_A (VRef 5) (VRef 5) = Ok (h1, VRef 5).
Proof.
  assert (heap_ok scenario_A) as Hok by compute_done.
  split; [done|]. eexists. split; [reflexivity|].
  by apply (apply_binds_same_object scenario_A).
Defined.

(** ** The fields of a merged entry *)

Lemma strip_fold_popped (its : dict) (h : heap) (e : loc) (gs : dict) :
  h !! e = Some (ODict gs) → dict_get "key" gs = None →
  foldl (λ h it, strip_entry h it.2) h its !! e = Some (ODict gs).
Proof.
  intros He Hk. apply (foldl_inv _ (λ h', h' !! e = Some (ODict gs))); [done|].
  intros h' it _ He'.
  destruct (strip_entry_cases h' it.2) as [->|(e' & fs' & _ & Hl & ->)]; [done|].
  destruct (decide (e' = e)) as [->|Hne].
  - assert (fs' = gs) as -> by congruence.
    rewrite dict_pop_absent by done.
    apply list_lookup_insert_eq. by eapply lookup_lt_Some.
  - by rewrite list_lookup_insert_ne.
Qed.

(** The strip pass takes the 'key' field out of an entry and leaves its
    other fields in their order. *)
Lemma strip_fold_exact (its : dict) (h : heap) (e : loc) (fs : dict) :
  NoDup fs.*1 → h !! e = Some (ODict fs) → VRef e ∈ its.*2 →
  foldl (λ h it, strip_entry h it.2) h its !! e
  = Some (ODict (dict_pop "key" fs)).
Proof.
  intros Hnd. revert h. induction its as [|[m x] its IH]; intros h He Hin;
    csimpl in *.
  { by apply elem_of_nil in Hin. }
  destruct (decide (x = VRef e)) as [->|Hne].
  - apply strip_fold_popped; [|by apply dict_get_pop].
    simpl. rewrite He. apply list_lookup_insert_eq. by eapply lookup_lt_Some.
  - apply elem_of_cons in Hin as [?|Hin]; [done|].
    apply IH; [|done]. rewrite strip_entry_lookup; [done|]. congruence.
Qed.

Lemma dict_set_fresh (k : string) (v : val) (d : dict) :
  dict_get k d = None → dict_set k v d = d ++ [(k, v)].
Proof.
  induction d as [|[k0 v0] d IH]; csimpl; [done|].
  destruct (decide (k = k0)); [done|]. intros Hd. by rewrite IH.
Qed.

Lemma dict_pop_set_fresh (k : string) (v : val) (d : dict) :
  dict_get k d = None → dict_pop k (dict_set k v d) = d.
Proof.
  induction d as [|[k0 v0] d IH]; csimpl.
  - by rewrite decide_True.
  - destruct (decide (k = k0)) as [->|Hne]; [done|]. intros Hd. csimpl.
    rewrite decide_False by done. by rewrite IH.
Qed.

Section copied_entry.
Variables (h1 : heap) (s d : loc) (sits dits : dict).
Hypothesis Hinv1 : inv h1 s sits d dits.

(** The copy loop, with an invariant [P] of one's own on top of
    [progress]. *)
Lemma copy_loop_with (P : nat → heap → dict → Prop) n i h dits' :
  (∀ i h dits' m sp h' dits'',
     progress h1 s d sits dits i h dits' → P i h dits' →
     sits !! i = Some (m, sp) → copy_step h d dits' m sp h' dits'' →
     P (S i) h' dits'') →
  progress h1 s d sits dits i h dits' → P i h dits' →
  i + n = length sits →
  ∃ h2 dits2,
    copy_loop n i (length sits) h (VRef s) (VRef d) = Ok h2 ∧
    progress h1 s d sits dits (length sits) h2 dits2 ∧
    P (length sits) h2 dits2.
Proof.
  intros Hstep. revert i h dits'.
  induction n as [|n IH]; intros i h dits' Hpr HP Hn.
  - assert (i = length sits) as -> by lia.
    exists h, dits'. split; [|done]. simpl.
    rewrite (inv_src _ _ _ _ _ (pr_inv _ _ _ _ _ _ _ _ Hpr)).
    by rewrite bool_decide_eq_true_2.
  - destruct (lookup_lt_is_Some_2 sits i) as [[m sp] Hi]; [lia|].
    pose proof (pr_inv _ _ _ _ _ _ _ _ Hpr) as Hinv.
    destruct (copy_entry_step _ _ _ _ _ _ _ Hinv
                (src_get _ _ _ _ _ Hinv1 _ _ _ Hi))
      as (h' & dits'' & Hrun & Hcs).
    destruct (IH (S i) h' dits'') as (h2 & dits2 & Hloop & Hpr2 & HP2).
    + by eapply progress_step.
    + by eapply Hstep.
    + lia.
    + exists h2, dits2. split; [|done]. simpl.
      rewrite (inv_src _ _ _ _ _ Hinv).
      rewrite bool_decide_eq_true_2 by done. simpl.
      by rewrite Hi, Hrun.
Qed.

Lemma copy_pass_with (P : nat → heap → dict → Prop) :
  (∀ i h dits' m sp h' dits'',
     progress h1 s d sits dits i h dits' → P i h dits' →
     sits !! i = Some (m, sp) → copy_step h d dits' m sp h' dits'' →
     P (S i) h' dits'') →
  P 0 h1 dits →
  ∃ h2 dits2,
    copy_pass h1 (VRef s) (VRef d) = Ok h2 ∧
    progress h1 s d sits dits (length sits) h2 dits2 ∧
    P (length sits) h2 dits2.
Proof.
  intros Hstep HP. unfold copy_pass. simpl. rewrite (inv_src _ _ _ _ _ Hinv1).
  apply (copy_loop_with P _ 0 h1 dits); [done| |done|lia].
  by apply progress_start.
Qed.

(** An entry of the target that is a dict keeps its fields and gets the
    key of the source as 'key'. *)
Lemma copy_pass_entry m sp k e fs1 :
  dict_get m sits = Some sp → field h1 sp "key" = Some k →
  dict_get m dits = Some (VRef e) → h1 !! e = Some (ODict fs1) →
  ∃ h2 dits2,
    copy_pass h1 (VRef s) (VRef d) = Ok h2 ∧
    progress h1 s d sits dits (length sits) h2 dits2 ∧
    dict_get m dits2 = Some (VRef e) ∧
    h2 !! e = Some (ODict (dict_set "key" k fs1)).
Proof.
  intros Hsp Hk Hm He.
  destruct (list_elem_of_lookup_1 _ _ (dict_get_Some_elem _ _ _ Hsp)) as [j Hj].
  set (P := λ (i : nat) (h : heap) (dits' : dict),
         j < i → dict_get m dits' = Some (VRef e) ∧
                 h !! e = Some (ODict (dict_set "key" k fs1))).
  destruct (copy_pass_with P) as (h2 & dits2 & Hcopy & Hpr & HP).
  - intros i h dits' m' sp' h' dits'' Hpr HP Hi Hcs Hlt.
    pose proof (pr_inv _ _ _ _ _ _ _ _ Hpr) as Hinv.
    pose proof (src_get _ _ _ _ _ Hinv1 _ _ _ Hi) as Hsp'.
    destruct (decide (i = j)) as [->|Hij].
    + assert (m' = m ∧ sp' = sp) as [-> ->] by (split; congruence).
      destruct (pr_todo _ _ _ _ _ _ _ _ Hpr m) as [Hget Hobj].
      { intros j' sp'' Hj' Hlt'.
        pose proof (src_unique _ _ _ _ _ Hinv1 _ _ _ _ _ Hj Hj'). lia. }
      specialize (Hobj _ Hm). simpl in Hobj. rewrite He in Hobj.
      assert (h !! e = Some (ODict fs1)) as He'.
      { destruct (h !! e) as [[?|?]|]; by simplify_eq. }
      assert (field h sp "key" = Some k) as Hk'.
      { unfold field. by erewrite progress_src. }
      rewrite Hm in Hget.
      destruct Hcs as [[?|?]|e' fs' k' Hcur He'' Hk''|cur k' Hcur Hcd Hk''];
        try congruence.
      * assert (e' = e) as -> by congruence.
        assert (fs' = fs1) as -> by congruence.
        assert (k' = k) as -> by congruence.
        split; [done|]. apply list_lookup_insert_eq. by eapply lookup_lt_Some.
      * assert (cur = VRef e) as -> by congruence.
        assert (is_dict h (VRef e) = true) by (apply is_dict_true; eauto).
        congruence.
    + destruct HP as [Hget He']; [lia|].
      assert (m' ≠ m) as Hne.
      { intros ->. pose proof (src_unique _ _ _ _ _ Hinv1 _ _ _ _ _ Hi Hj). lia. }
      destruct (se_other _ _ _ _ _ _ _
                  (copy_step_effect _ _ _ _ _ _ _ _ _ Hinv Hsp' Hcs) m
                  ltac:(congruence)) as [Hget' Hobj].
      split; [congruence|].
      specialize (Hobj _ Hget). simpl in Hobj. rewrite He' in Hobj.
      destruct (h' !! e) as [[?|?]|]; by simplify_eq.
  - intros ?. lia.
  - exists h2, dits2. split_and!; [done..| |]; apply HP; by eapply lookup_lt_Some.
Qed.

(** When every entry of the target that gets a key is a dict, the copy pass
    makes no object and leaves the target's own items as they are. *)
Lemma copy_pass_no_alloc :
  (∀ m sp k cur,
     dict_get m sits = Some sp → field h1 sp "key" = Some k →
     dict_get m dits = Some cur → is_dict h1 cur = true) →
  ∃ h2,
    copy_pass h1 (VRef s) (VRef d) = Ok h2 ∧
    progress h1 s d sits dits (length sits) h2 dits ∧
    length h2 = length h1.
Proof.
  intros Hdicts.
  set (P := λ (i : nat) (h : heap) (dits' : dict),
         dits' = dits ∧ length h = length h1).
  destruct (copy_pass_with P) as (h2 & dits2 & Hcopy & Hpr & -> & Hlen);
    [|done|by exists h2].
  intros i h dits' m sp h' dits'' Hpr [-> Hlen] Hi Hcs.
  pose proof (src_get _ _ _ _ _ Hinv1 _ _ _ Hi) as Hsp.
  destruct Hcs as [?|e fs k Hcur He Hk|cur k Hcur Hcd Hk].
  - done.
  - split; [done|]. by rewrite length_insert.
  - exfalso.
    assert (field h1 sp "key" = Some k) as Hk1.
    { unfold field in *. by erewrite <-progress_src. }
    pose proof (Hdicts m sp k cur Hsp Hk1 Hcur) as Hd1.
    apply is_dict_true in Hd1 as (l & fs & -> & Hl).
    rewrite (pr_is_dict _ _ _ _ _ _ _ _ Hpr) in Hcd
      by (by eapply lookup_lt_Some).
    assert (is_dict h1 (VRef l) = true) by (apply is_dict_true; eauto).
    congruence.
Qed.
End copied_entry.

(** The two passes, one after the other, on documents that are apart. *)
Lemma apply_binds_run (h : heap) (s d : loc) (sits dits : dict) :
  inv h s sits d dits →
  ∃ h1 h2 dits2,
    h1 = foldl (λ h it, strip_entry h it.2) h dits ∧
    copy_pass h1 (VRef s) (VRef d) = Ok h2 ∧
    apply_binds h (VRef s) (VRef d) = Ok (h2, VRef d) ∧
    inv h1 s sits d dits ∧ stripped h dits h1 ∧
    (∀ m v, dict_get m dits = Some v → field h1 v "key" = None) ∧
    progress h1 s d sits dits (length sits) h2 dits2.
Proof.
  intros Hinv.
  destruct (strip_pass_spec _ _ _ _ _ Hinv) as (h1 & Hstrip & Hinv1 & Hst & Hkey).
  destruct (copy_pass_spec _ _ _ _ _ Hinv1) as (h2 & dits2 & Hcopy & Hpr).
  exists h1, h2, dits2. split_and!; try done.
  - unfold strip_pass in Hstrip. simpl in Hstrip.
    rewrite (inv_dst _ _ _ _ _ Hinv) in Hstrip. by injection Hstrip as <-.
  - unfold apply_binds. rewrite Hstrip. simpl. by rewrite Hcopy.
Qed.

(** The key the source has for a module, in the store [h]. *)
Lemma source_key_stripped (h h1 : heap) (s d : loc) (sits dits : dict) m :
  inv h s sits d dits → stripped h dits h1 →
  dict_get m sits ≫= (λ sp, field h1 sp "key")
  = dict_get m sits ≫= (λ sp, field h sp "key").
Proof.
  intros Hinv Hst. destruct (dict_get m sits) as [sp|] eqn:Hsp; [|done].
  simpl. unfold field. by rewrite (stripped_src _ _ _ _ _ _ _ _ Hinv Hst Hsp).
Qed.

Lemma source_key_progress (h1 h2 : heap) (s d : loc) (sits dits dits2 : dict)
    i m :
  inv h1 s sits d dits → progress h1 s d sits dits i h2 dits2 →
  dict_get m sits ≫= (λ sp, field h2 sp "key")
  = dict_get m sits ≫= (λ sp, field h1 sp "key").
Proof.
  intros Hinv1 Hpr. destruct (dict_get m sits) as [sp|] eqn:Hsp; [|done].
  simpl. unfold field. by rewrite (progress_src _ _ _ _ _ Hinv1 _ _ _ _ _ Hpr Hsp).
Qed.

(** The fields of an entry of the target that is a dict, after the merge. *)
Lemma apply_binds_entry (h h2 : heap) (s d : loc) (sits dits : dict) m e fs :
  inv h s sits d dits →
  apply_binds h (VRef s) (VRef d) = Ok (h2, VRef d) →
  dict_get m dits = Some (VRef e) → h !! e = Some (ODict fs) →
  entry h2 (VRef d) m = Some (VRef e) ∧
  h2 !! e = Some (ODict (dict_pop "key" fs ++
              match dict_get m sits ≫= (λ sp, field h sp "key") with
              | Some k => [("key", k)]
              | None => []
              end)).
Proof.
  intros Hinv Hrun Hm He.
  destruct (apply_binds_run _ _ _ _ _ Hinv)
    as (h1 & h2' & dits2 & Hh1 & Hcopy & Hrun' & Hinv1 & Hst & Hkey & Hpr).
  rewrite Hrun' in Hrun. injection Hrun as ->.
  assert (NoDup fs.*1) as Hnd.
  { eapply heap_ok_keys; [apply Hinv|done]. }
  assert (h1 !! e = Some (ODict (dict_pop "key" fs))) as He1.
  { rewrite Hh1. apply strip_fold_exact; [done..|].
    apply list_elem_of_fmap. exists (m, VRef e).
    split; [done|]. by apply dict_get_Some_elem. }
  rewrite <-(source_key_stripped h h1 s d sits dits m Hinv Hst).
  unfold entry. simpl. rewrite (inv_dst _ _ _ _ _ (pr_inv _ _ _ _ _ _ _ _ Hpr)).
  simpl.
  destruct (dict_get m sits) as [sp|] eqn:Hsp; simpl;
    [destruct (field h1 sp "key") as [k|] eqn:Hk|].
  - destruct (copy_pass_entry _ _ _ _ _ Hinv1 m sp k e _ Hsp Hk Hm He1)
      as (h2' & dits2' & Hcopy' & Hpr' & Hget & He2).
    rewrite Hcopy in Hcopy'. injection Hcopy' as <-.
    assert (dits2' = dits2) as ->.
    { pose proof (inv_dst _ _ _ _ _ (pr_inv _ _ _ _ _ _ _ _ Hpr)).
      pose proof (inv_dst _ _ _ _ _ (pr_inv _ _ _ _ _ _ _ _ Hpr')).
      congruence. }
    split; [done|]. rewrite He2. rewrite dict_set_fresh; [done|].
    by apply dict_get_pop.
  - destruct (pr_todo _ _ _ _ _ _ _ _ Hpr m) as [Hget Hobj].
    { intros j sp' Hj _.
      pose proof (src_get _ _ _ _ _ Hinv1 _ _ _ Hj). congruence. }
    split; [congruence|]. specialize (Hobj _ Hm). simpl in Hobj.
    rewrite He1 in Hobj. rewrite app_nil_r.
    destruct (h2 !! e) as [[?|?]|]; by simplify_eq.
  - destruct (pr_todo _ _ _ _ _ _ _ _ Hpr m) as [Hget Hobj].
    { intros j sp' Hj _.
      pose proof (src_get _ _ _ _ _ Hinv1 _ _ _ Hj). congruence. }
    split; [congruence|]. specialize (Hobj _ Hm). simpl in Hobj.
    rewrite He1 in Hobj. rewrite app_nil_r.
    destruct (h2 !! e) as [[?|?]|]; by simplify_eq.
Qed.

(** X5 (the fields of a merged entry, in their order). For two separately
    loaded documents, an entry of the target that is a mapping is the same
    object after the merge. Its fields are the ones it had, without 'key',
    in the order they had; when the source has a 'key' for the module, that
    value follows as the last field, also when the entry had 'key' at
    another place before. *)
Theorem apply_binds_entry_fields (h : heap) (s d : loc) (sits dits : dict)
    (m : string) (e : loc) (fs : dict) :
  separate h s sits d dits →
  dict_get m dits = Some (VRef e) → h !! e = Some (ODict fs) →
  ∃ h',
    apply_binds h (VRef s) (VRef d) = Ok (h', VRef d) ∧
    entry h' (VRef d) m = Some (VRef e) ∧
    h' !! e = Some (ODict (dict_pop "key" fs ++
                match dict_get m sits ≫= (λ sp, field h sp "key") with
                | Some k => [("key", k)]
                | None => []
                end)).
Proof.
  intros Hinv%separate_inv Hm He.
  destruct (apply_binds_run _ _ _ _ _ Hinv)
    as (h1 & h2 & dits2 & _ & _ & Hrun & _).
  exists h2. split; [done|]. by eapply apply_binds_entry.
Qed.

Lemma apply_binds_entry_fields_witness :
  separate ex_heap 4 ex_src 9 ex_dst ∧
  ∃ h',
    apply_binds ex_heap (VRef 4) (VRef 9) = Ok (h', VRef 9) ∧
    entry h' (VRef 9) "move" = Some (VRef 5) ∧
    h' !! 5 = Some (ODict [("sens", VFloat 4607182418800017408);
                           ("key", VStr "W")]).
Proof.
  assert (separate ex_heap 4 ex_src 9 ex_dst) as Hsep by (split; compute_done).
  split; [done|].
  by apply (apply_binds_entry_fields ex_heap 4 9 ex_src ex_dst "move" 5
              [("key", VStr "UP"); ("sens", VFloat 4607182418800017408)]).
Defined.

(** ** Merging twice *)

(** After a merge the target is settled. *)
Lemma apply_binds_settles (h h2 : heap) (s d : loc) (sits dits : dict) :
  inv h s sits d dits →
  apply_binds h (VRef s) (VRef d) = Ok (h2, VRef d) →
  ∃ dits2, inv h2 s sits d dits2 ∧ settled h2 sits dits2.
Proof.
  intros Hinv Hrun.
  destruct (apply_binds_run _ _ _ _ _ Hinv)
    as (h1 & h2' & dits2 & Hh1 & Hcopy & Hrun' & Hinv1 & Hst & Hkey & Hpr).
  assert (h2' = h2) as -> by congruence.
  pose proof (pr_inv _ _ _ _ _ _ _ _ Hpr) as Hinv2.
  exists dits2. split; [done|]. intros m v Hv.
  assert (entry h2 (VRef d) m = Some v) as Hentry.
  { unfold entry. simpl. by rewrite (inv_dst _ _ _ _ _ Hinv2). }
  destruct (dict_get m dits) as [cur|] eqn:Hcur.
  2:{ apply dict_get_None in Hcur.
      rewrite <-(pr_names _ _ _ _ _ _ _ _ Hpr) in Hcur.
      apply dict_get_None in Hcur. congruence. }
  rewrite (source_key_progress h1 h2 s d sits dits dits2 _ m Hinv1 Hpr).
  rewrite (source_key_stripped h h1 s d sits dits m Hinv Hst).
  destruct (is_dict h cur) eqn:Hcd.
  - apply is_dict_true in Hcd as (e & fs & -> & He).
    destruct (apply_binds_entry h h2 s d sits dits m e fs Hinv Hrun Hcur He)
      as [Hentry' He2].
    assert (v = VRef e) as -> by congruence.
    assert (dict_get "key" (dict_pop "key" fs) = None) as Hpop.
    { apply dict_get_pop. eapply heap_ok_keys; [apply Hinv|done]. }
    destruct (dict_get m sits ≫= (λ sp, field h sp "key")) as [k|].
    + exists e, (dict_pop "key" fs). by split_and!.
    + unfold field. simpl. rewrite He2. simpl. by rewrite app_nil_r.
  - destruct (dict_get m sits ≫= (λ sp, field h sp "key")) as [k|] eqn:Hk.
    + apply bind_Some in Hk as (sp & Hsp & Hk).
      destruct (merged_key _ _ _ _ _ _ _ _ Hinv Hst Hpr m sp k cur)
        as (e' & He' & _ & Hnew); [done..|].
      assert (e' = v) as -> by congruence.
      apply dict_of_Some in Hnew as (e & -> & He); [|done].
      by exists e, [].
    + assert (entry h2 (VRef d) m = Some cur ∧ field h2 cur "key" = None)
        as [Hentry' Hnone].
      { apply (merged_no_key h s sits d dits h1 h2 dits2 Hinv Hinv1 Hst Hkey
                 Hpr m cur Hcur).
        destruct (dict_get m sits) as [sp|]; [|by left].
        right. by exists sp. }
      congruence.
Qed.

(** A merge into a settled target changes nothing at all. *)
Lemma apply_binds_settled (h : heap) (s d : loc) (sits dits : dict) :
  inv h s sits d dits → settled h sits dits →
  apply_binds h (VRef s) (VRef d) = Ok (h, VRef d).
Proof.
  intros Hinv Hset.
  destruct (apply_binds_run _ _ _ _ _ Hinv)
    as (h1 & h2 & dits2 & Hh1 & Hcopy & Hrun & Hinv1 & Hst & Hkey & _).
  assert (NoDup dits.*1) as Hnd.
  { eapply heap_ok_keys; [apply Hinv|apply Hinv]. }
  destruct (copy_pass_no_alloc _ _ _ _ _ Hinv1) as (h2' & Hcopy' & Hpr & Hlen).
  { intros m sp k cur Hsp Hk Hcur. rewrite (st_is_dict _ _ _ Hst).
    specialize (Hset m cur Hcur). rewrite Hsp in Hset. simpl in Hset.
    unfold field in Hk. rewrite (stripped_src _ _ _ _ _ _ _ _ Hinv Hst Hsp) in Hk.
    unfold field in Hset. rewrite Hk in Hset.
    destruct Hset as (e & fs & -> & He & _). apply is_dict_true. eauto. }
  assert (h2' = h2) as -> by congruence.
  rewrite Hrun. do 2 f_equal. apply list_eq. intros l.
  destruct (decide (l < length h)) as [Hl|Hl].
  2:{ rewrite !lookup_ge_None_2; [done|lia|].
      rewrite Hlen, (st_length _ _ _ Hst). lia. }
  destruct (decide (l = d)) as [->|Hld].
  { rewrite (inv_dst _ _ _ _ _ (pr_inv _ _ _ _ _ _ _ _ Hpr)).
    by rewrite (inv_dst _ _ _ _ _ Hinv). }
  destruct (decide (l ∈ entry_locs h dits)) as [Hin|Hout].
  - apply elem_of_entry_locs in Hin as (m & Hm & Hd).
    apply (dict_get_elem _ _ _ Hnd) in Hm.
    pose proof (Hset m _ Hm) as Hcase.
    destruct (dict_get m sits) as [sp|] eqn:Hsp; simpl in Hcase;
      [destruct (field h sp "key") as [k|] eqn:Hk|].
    + destruct Hcase as (e & fs & [= <-] & He & Hfs).
      assert (h1 !! l = Some (ODict fs)) as He1.
      { rewrite Hh1.
        rewrite (strip_fold_exact dits h l (fs ++ [("key", k)])).
        - rewrite <-(dict_set_fresh "key" k fs Hfs).
          by rewrite dict_pop_set_fresh.
        - eapply heap_ok_keys; [apply Hinv|done].
        - done.
        - apply list_elem_of_fmap. exists (m, VRef l).
          split; [done|]. by apply dict_get_Some_elem. }
      assert (field h1 sp "key" = Some k) as Hk1.
      { unfold field in *.
        by rewrite (stripped_src _ _ _ _ _ _ _ _ Hinv Hst Hsp). }
      destruct (copy_pass_entry _ _ _ _ _ Hinv1 m sp k l fs Hsp Hk1 Hm He1)
        as (h2' & dits2' & Hcopy'' & _ & _ & He2).
      assert (h2' = h2) as -> by congruence.
      rewrite He2, He. by rewrite dict_set_fresh.
    + apply is_dict_true in Hd as (l' & gs & [= <-] & Hgs).
      unfold field in Hcase. simpl in Hcase. rewrite Hgs in Hcase.
      simpl in Hcase.
      assert (h1 !! l = Some (ODict gs)) as He1.
      { rewrite Hh1. by apply strip_fold_popped. }
      destruct (pr_todo _ _ _ _ _ _ _ _ Hpr m) as [_ Hobj].
      { intros j sp' Hj _.
        pose proof (src_get _ _ _ _ _ Hinv1 _ _ _ Hj) as Hsp'.
        assert (sp' = sp) as -> by congruence. unfold field in *.
        by rewrite (stripped_src _ _ _ _ _ _ _ _ Hinv Hst Hsp). }
      specialize (Hobj _ Hm). simpl in Hobj. rewrite He1 in Hobj.
      rewrite Hgs. destruct (h2 !! l) as [[?|?]|]; by simplify_eq.
    + apply is_dict_true in Hd as (l' & gs & [= <-] & Hgs).
      unfold field in Hcase. simpl in Hcase. rewrite Hgs in Hcase.
      simpl in Hcase.
      assert (h1 !! l = Some (ODict gs)) as He1.
      { rewrite Hh1. by apply strip_fold_popped. }
      destruct (pr_todo _ _ _ _ _ _ _ _ Hpr m) as [_ Hobj].
      { intros j sp' Hj _.
        pose proof (src_get _ _ _ _ _ Hinv1 _ _ _ Hj). congruence. }
      specialize (Hobj _ Hm). simpl in Hobj. rewrite He1 in Hobj.
      rewrite Hgs. destruct (h2 !! l) as [[?|?]|]; by simplify_eq.
  - rewrite <-(st_frame _ _ _ Hst l Hout).
    apply (pr_frame _ _ _ _ _ _ _ _ Hpr); [|done|].
    + by rewrite (st_length _ _ _ Hst).
    + by rewrite stripped_entry_locs.
Qed.

(** X6 (merging twice). For two separately loaded documents, [apply_binds]
    returns the target, and a second call with the same source and that
    target returns it again and leaves every object of the store as the
    first call left it: the merge is idempotent. *)
Theorem apply_binds_idempotent (h : heap) (s d : loc) (sits dits : dict) :
  separate h s sits d dits →
  ∃ h',
    apply_binds h (VRef s) (VRef d) = Ok (h', VRef d) ∧
    apply_binds h' (VRef s) (VRef d) = Ok (h', VRef d).
Proof.
  intros Hinv%separate_inv.
  destruct (apply_binds_run _ _ _ _ _ Hinv)
    as (h1 & h2 & dits2 & _ & _ & Hrun & _).
  destruct (apply_binds_settles _ _ _ _ _ _ Hinv Hrun) as (dits2' & Hinv2 & Hset).
  exists h2. split; [done|]. by eapply apply_binds_settled.
Qed.

Lemma apply_binds_idempotent_witness :
  separate ex_heap 4 ex_src 9 ex_dst ∧
  ∃ h',
    apply_binds ex_heap (VRef 4) (VRef 9) = Ok (h', VRef 9) ∧
    apply_binds h' (VRef 4) (VRef 9) = Ok (h', VRef 9).
Proof.
  assert (separate ex_heap 4 ex_src 9 ex_dst) as Hsep by (split; compute_done).
  split; [done|]. by apply (apply_binds_idempotent ex_heap 4 9 ex_src ex_dst).
Defined.

(** * More on the batch run *)

(** ** Which files a run writes *)

Lemma load_json_files (path : string) (w : world) :
  files (load_json path w).1 = files w.
Proof.
  unfold load_json. destruct (files w !! path) as [[|j]|]; try done.
  by destruct (json_load j (store w)).
Qed.

Lemma in_store_files {A} (f : heap → outcome (heap * A)) (w : world) :
  files (in_store f w).1 = files w.
Proof. unfold in_store. by destruct (f (store w)) as [[h a]|]. Qed.

Lemma save_json_files (can_write : string → bool) (depth : nat) (obj : val)
    (path p : string) (w : world) :
  p ≠ path → files (save_json can_write depth obj path w).1 !! p = files w !! p.
Proof.
  intros Hp. unfold save_json. destruct (can_write path); [|done].
  destruct (json_dump depth (store w) obj); simpl; by rewrite lookup_insert_ne.
Qed.

Section written_files.
Variables (os : os_path) (can_write : string → bool) (depth : nat).
Variables (ask : bool) (pattern : string).
Variables (src_cfg : val) (n_targets : nat).
Variables (chosen_out_file chosen_out_dir : option string).

Lemma process_target_files dst_path p w :
  out_path_of os ask pattern n_targets chosen_out_file chosen_out_dir dst_path
    ≠ Ok p →
  files (process_target os can_write depth ask pattern src_cfg n_targets
           chosen_out_file chosen_out_dir dst_path w).1 !! p
  = files w !! p.
Proof.
  intros Hp. unfold process_target, mbind, io_bind.
  pose proof (load_json_files dst_path w) as Hload.
  destruct (load_json dst_path w) as [w1 [dst_cfg|e]]; simpl in *;
    [|by rewrite Hload].
  pose proof (in_store_files (λ h, apply_binds h src_cfg dst_cfg) w1) as Hmerge.
  destruct (in_store _ w1) as [w2 [updated|e]]; simpl in *;
    [|by rewrite Hmerge, Hload].
  destruct (out_path_of _ _ _ _ _ _ dst_path) as [out|e]; simpl;
    [|by rewrite Hmerge, Hload].
  pose proof (save_json_files can_write depth updated out p w2) as Hsave.
  destruct (save_json _ _ updated out w2) as [w3 [[]|e]]; simpl in *;
    rewrite Hsave, Hmerge, Hload; congruence.
Qed.

Lemma process_files dst_paths generated_paths p w :
  (∀ dst, dst ∈ dst_paths →
     out_path_of os ask pattern n_targets chosen_out_file chosen_out_dir dst
       ≠ Ok p) →
  files (process os can_write depth ask pattern src_cfg n_targets
           chosen_out_file chosen_out_dir dst_paths generated_paths w).1 !! p
  = files w !! p.
Proof.
  revert generated_paths w.
  induction dst_paths as [|dst rest IH]; intros gen w Hp; simpl; [done|].
  unfold mbind, io_bind.
  pose proof (process_target_files dst p w (Hp dst ltac:(left))) as Hhd.
  destruct (process_target _ _ _ _ _ _ _ _ _ dst w) as [w1 [out|e]];
    simpl in *; [|done].
  rewrite IH; [done|]. intros dst' ?. apply Hp. by right.
Qed.
End written_files.

(** X7 (a run writes the output files only). However [main] ends, with
    the list of outputs or with an error, a file whose path is not the
    output path of one of the targets is after the run what it was before:
    not written, not created, not removed. *)
Theorem main_writes_outputs_only os can_write depth ask pattern src_path
    dst_paths chosen_out_file chosen_out_dir w w' r p :
  main os can_write depth ask pattern src_path dst_paths chosen_out_file
    chosen_out_dir w = (w', r) →
  (∀ dst, dst ∈ dst_paths →
     out_path_of os ask pattern (length dst_paths) chosen_out_file
       chosen_out_dir dst ≠ Ok p) →
  files w' !! p = files w !! p.
Proof.
  unfold main. intros Hrun Hp.
  case_bool_decide; [by injection Hrun as <- _|].
  case_bool_decide; [by injection Hrun as <- _|].
  unfold mbind, io_bind in Hrun.
  pose proof (load_json_files src_path w) as Hload.
  destruct (load_json src_path w) as [w1 [src_cfg|e]]; simpl in *.
  - pose proof (process_files os can_write depth ask pattern src_cfg
                  (length dst_paths) chosen_out_file chosen_out_dir
                  dst_paths [] p w1 Hp) as Hfiles.
    rewrite Hrun in Hfiles. simpl in Hfiles. by rewrite Hfiles, Hload.
  - injection Hrun as <- _. by rewrite Hload.
Qed.

Lemma main_writes_outputs_only_witness :
  ∃ w',
    (main posixpath (λ _, true) 8 ASK_WHERE_TO_SAVE OUTPUT_NAME_PATTERN
       "/cfg/src.json" ["/cfg/a.json"; "/cfg/b.json"] None None scenario_C).1
    = w' ∧
    files w' !! "/cfg/a.json" = files scenario_C !! "/cfg/a.json".
Proof.
  eexists. split; [reflexivity|].
  eapply (main_writes_outputs_only posixpath (λ _, true) 8 ASK_WHERE_TO_SAVE
            OUTPUT_NAME_PATTERN "/cfg/src.json" ["/cfg/a.json"; "/cfg/b.json"]
            None None scenario_C).
  - apply surjective_pairing.
  - apply (proj1 (Forall_forall _ _)). repeat constructor; by vm_compute.
Defined.

(** ** A target that cannot be saved, or is not an object *)

Lemma process_target_save_fails os can_write depth ask pattern src_cfg
    n_targets chosen_out_file chosen_out_dir dst_path w w1 dst_cfg h updated
    out :
  load_json dst_path w = (w1, Ok dst_cfg) →
  apply_binds (store w1) src_cfg dst_cfg = Ok (h, updated) →
  out_path_of os ask pattern n_targets chosen_out_file chosen_out_dir dst_path
  = Ok out →
  can_write out = false →
  process_target os can_write depth ask pattern src_cfg n_targets
    chosen_out_file chosen_out_dir dst_path w
  = (World (files w) h, Raise (SaveError out)).
Proof.
  intros Hload Hmerge Hout Hcw.
  pose proof (load_json_files dst_path w) as Hfiles.
  rewrite Hload in Hfiles. simpl in Hfiles.
  unfold process_target, mbind, io_bind. rewrite Hload.
  unfold in_store. rewrite Hmerge, Hout. unfold save_json. rewrite Hcw.
  by rewrite Hfiles.
Qed.

(** X8 (a target that cannot be written halts the run). If the source
    loads, the targets before [p] are processed without error, and [p] loads
    and merges but its output path cannot be opened for writing, [main] ends
    with the save error for that path. The files are the ones the earlier
    targets left: their outputs stay, nothing is written for [p], and no
    later target is processed. *)
Theorem main_halts_on_save_failure os can_write depth ask pattern src_path
    pre p post chosen_out_file chosen_out_dir w w0 src_cfg w1 outs w2 dst_cfg
    h updated out :
  src_path ≠ "" →
  load_json src_path w = (w0, Ok src_cfg) →
  process os can_write depth ask pattern src_cfg (length (pre ++ p :: post))
    chosen_out_file chosen_out_dir pre [] w0 = (w1, Ok outs) →
  load_json p w1 = (w2, Ok dst_cfg) →
  apply_binds (store w2) src_cfg dst_cfg = Ok (h, updated) →
  out_path_of os ask pattern (length (pre ++ p :: post)) chosen_out_file
    chosen_out_dir p = Ok out →
  can_write out = false →
  main os can_write depth ask pattern src_path (pre ++ p :: post)
    chosen_out_file chosen_out_dir w
  = (World (files w1) h, Raise (SaveError out)).
Proof.
  intros Hsrc Hload Hpre Hp Hmerge Hout Hcw. unfold main.
  rewrite bool_decide_eq_false_2 by done.
  rewrite bool_decide_eq_false_2 by (by destruct pre).
  unfold mbind at 1, io_bind. rewrite Hload.
  rewrite process_app, Hpre. simpl.
  unfold mbind at 1, io_bind.
  by erewrite process_target_save_fails.
Qed.

Lemma main_halts_on_save_failure_witness :
  ∃ w1 h,
    files w1 !! "/cfg/a_mybind.json"
    = Some (JsonText
        (JObj [("move", JObj [("sens", JFloat 4607182418800017408);
                              ("key", JStr "W")]);
               ("chat", JObj [])])) ∧
    files w1 !! "/cfg/b_mybind.json" = None ∧
    main posixpath (λ p, negb (bool_decide (p = "/cfg/b_mybind.json"))) 8
      ASK_WHERE_TO_SAVE OUTPUT_NAME_PATTERN "/cfg/src.json"
      (["/cfg/a.json"] ++ "/cfg/b.json" :: []) None None scenario_C
    = (World (files w1) h, Raise (SaveError "/cfg/b_mybind.json")).
Proof.
  eexists _, _. split_and!; [..|
    eapply (main_halts_on_save_failure posixpath
              (λ p, negb (bool_decide (p = "/cfg/b_mybind.json"))) 8
              ASK_WHERE_TO_SAVE OUTPUT_NAME_PATTERN "/cfg/src.json"
              ["/cfg/a.json"] "/cfg/b.json" [] None None scenario_C);
    [done|vm_compute; reflexivity|vm_compute; reflexivity|
     vm_compute; reflexivity|vm_compute; reflexivity|
     vm_compute; reflexivity|vm_compute; reflexivity]];
    vm_compute; reflexivity.
Defined.

Lemma dict_of_app (h ext : heap) (v : val) :
  val_ok (length h) v → dict_of (h ++ ext) v = dict_of h v.
Proof.
  destruct v as [| | | | |l]; try done. simpl. intros Hl.
  by rewrite lookup_app_l.
Qed.

(** A value [json.load] made before is what it was after the next load. *)
Lemma json_load_is_dict (j : json) (h h' : heap) (v x : val) :
  json_load j h = (h', v) → val_ok (length h) x →
  is_dict h' x = is_dict h x.
Proof.
  intros Hload Hx. destruct (json_load_loaded _ _ _ _ Hload)
    as [(ext & -> & _) _ _].
  intros. unfold is_dict. by rewrite dict_of_app.
Qed.

Lemma apply_binds_source_not_dict (h : heap) (src_cfg dst_cfg : val) :
  is_dict h src_cfg = false →
  apply_binds h src_cfg dst_cfg = Raise AttributeError.
Proof.
  intros Hnd. unfold apply_binds, strip_pass.
  destruct (dict_of h dst_cfg) as [its|]; [|done]. simpl.
  unfold copy_pass.
  assert (is_dict (foldl (λ h it, strip_entry h it.2) h its) src_cfg = false)
    as Hnd'.
  { apply (foldl_inv _ (λ h', is_dict h' src_cfg = false)); [done|].
    intros h' it _. by rewrite strip_entry_is_dict. }
  apply is_dict_false in Hnd'. by rewrite Hnd'.
Qed.

Lemma apply_binds_target_not_dict (h : heap) (src_cfg dst_cfg : val) :
  is_dict h dst_cfg = false →
  apply_binds h src_cfg dst_cfg = Raise AttributeError.
Proof.
  intros Hnd%is_dict_false. unfold apply_binds, strip_pass. by rewrite Hnd.
Qed.

(** X9 (a target that is JSON but not an object). If the source loads, the
    targets before [p] are processed without error, and [p] is a JSON text
    whose root is not an object (an array, a string, a number, true, false
    or null), [main] ends with AttributeError, which no handler catches.
    The files are the ones the earlier targets left: nothing is written for
    [p] and no later target is processed. *)
Theorem main_halts_on_non_object_target os can_write depth ask pattern
    src_path pre p post chosen_out_file chosen_out_dir w w0 src_cfg w1 outs j :
  src_path ≠ "" →
  load_json src_path w = (w0, Ok src_cfg) →
  process os can_write depth ask pattern src_cfg (length (pre ++ p :: post))
    chosen_out_file chosen_out_dir pre [] w0 = (w1, Ok outs) →
  files w1 !! p = Some (JsonText j) → (∀ ms, j ≠ JObj ms) →
  ∃ w2,
    main os can_write depth ask pattern src_path (pre ++ p :: post)
      chosen_out_file chosen_out_dir w = (w2, Raise AttributeError) ∧
    files w2 = files w1.
Proof.
  intros Hsrc Hload Hpre Hfile Hnot. unfold main.
  rewrite bool_decide_eq_false_2 by done.
  rewrite bool_decide_eq_false_2 by (by destruct pre).
  unfold mbind at 1, io_bind. rewrite Hload.
  rewrite process_app, Hpre. simpl.
  unfold mbind at 1, io_bind. unfold process_target.
  unfold mbind at 1, io_bind. unfold load_json at 1. rewrite Hfile.
  destruct (json_load j (store w1)) as [h v] eqn:Hj.
  pose proof (json_load_root _ _ _ _ Hj) as Hroot.
  assert (is_dict h v = false) as Hnd.
  { destruct j; try done. by destruct (Hnot members). }
  unfold mbind at 1, io_bind. unfold in_store. simpl.
  rewrite apply_binds_target_not_dict by done. by eexists.
Qed.

Lemma main_halts_on_non_object_target_witness :
  ∃ w1 w2,
    main posixpath (λ _, true) 8 ASK_WHERE_TO_SAVE OUTPUT_NAME_PATTERN
      "/cfg/src.json" (["/cfg/a.json"] ++ "/cfg/list.json" :: ["/cfg/b.json"])
      None None
      (World (<["/cfg/list.json" := JsonText (JArr [JInt 1; JInt 2])]>
                (files scenario_C)) [])
    = (w2, Raise AttributeError) ∧
    files w2 = files w1 ∧
    is_Some (files w1 !! "/cfg/a_mybind.json") ∧
    files w1 !! "/cfg/list_mybind.json" = None ∧
    files w1 !! "/cfg/b_mybind.json" = None.
Proof.
  edestruct (main_halts_on_non_object_target posixpath (λ _, true) 8
               ASK_WHERE_TO_SAVE OUTPUT_NAME_PATTERN "/cfg/src.json"
               ["/cfg/a.json"] "/cfg/list.json" ["/cfg/b.json"] None None
               (World (<["/cfg/list.json" := JsonText (JArr [JInt 1; JInt 2])]>
                         (files scenario_C)) []))
    as (w2 & Hrun & Hfiles);
    [done|vm_compute; reflexivity|vm_compute; reflexivity|
     vm_compute; reflexivity|done|].
  eexists _, w2. split_and!; [exact Hrun|exact Hfiles|..].
  - eexists. vm_compute. reflexivity.
  - vm_compute. reflexivity.
  - vm_compute. reflexivity.
Defined.

(** X10 (a source that is JSON but not an object). If the source file is a
    JSON text whose root is not an object, no run produces an output: with
    at least one target chosen, [main] ends with the load error of the first
    target or with AttributeError, and every file is what it was. *)
Theorem main_source_not_object os can_write depth ask pattern src_path dst
    rest chosen_out_file chosen_out_dir w j :
  src_path ≠ "" →
  files w !! src_path = Some (JsonText j) → (∀ ms, j ≠ JObj ms) →
  ∃ w' e,
    main os can_write depth ask pattern src_path (dst :: rest)
      chosen_out_file chosen_out_dir w = (w', Raise e) ∧
    files w' = files w ∧
    (e = LoadError dst ∨ e = AttributeError).
Proof.
  intros Hsrc Hfile Hnot. unfold main.
  rewrite bool_decide_eq_false_2 by done.
  rewrite bool_decide_eq_false_2 by done.
  unfold mbind at 1, io_bind. unfold load_json at 1. rewrite Hfile.
  destruct (json_load j (store w)) as [h v] eqn:Hj.
  pose proof (json_load_root _ _ _ _ Hj) as Hroot.
  assert (is_dict h v = false) as Hnd.
  { destruct j; try done. by destruct (Hnot members). }
  pose proof (json_load_loaded _ _ _ _ Hj) as [_ Hv _].
  simpl. unfold mbind at 1, io_bind. unfold process_target.
  unfold mbind at 1, io_bind. unfold load_json at 1. simpl.
  destruct (files w !! dst) as [[|j']|] eqn:Hdst; [by eauto 10| |by eauto 10].
  destruct (json_load j' h) as [h' v'] eqn:Hj'.
  unfold mbind at 1, io_bind. unfold in_store. simpl.
  rewrite apply_binds_source_not_dict; [by eauto 10|].
  by rewrite (json_load_is_dict _ _ _ _ _ Hj' Hv).
Qed.

Lemma main_source_not_object_witness :
  ∃ w' e,
    main posixpath (λ _, true) 8 ASK_WHERE_TO_SAVE OUTPUT_NAME_PATTERN
      "/cfg/list.json" ("/cfg/list.json" :: []) None None array_file
    = (w', Raise e) ∧
    files w' = files array_file ∧
    (e = LoadError "/cfg/list.json" ∨ e = AttributeError).
Proof.
  by apply (main_source_not_object posixpath (λ _, true) 8 ASK_WHERE_TO_SAVE
              OUTPUT_NAME_PATTERN "/cfg/list.json" "/cfg/list.json" [] None
              None array_file (JArr [JInt 1; JInt 2])).
Defined.

(** ** Asking where to save *)

Lemma out_path_of_fallback os pattern n_targets chosen_out_file chosen_out_dir
    dst_path :
  (n_targets = 1 → chosen chosen_out_file = false) →
  (n_targets ≠ 1 → chosen chosen_out_dir = false) →
  out_path_of os true pattern n_targets chosen_out_file chosen_out_dir dst_path
  = out_path_of os false pattern n_targets chosen_out_file chosen_out_dir
      dst_path.
Proof.
  intros Hfile Hdir. unfold out_path_of. simpl. case_bool_decide.
  - by rewrite Hfile.
  - by rewrite Hdir.
Qed.

Lemma process_ext os can_write depth ask ask' pattern src_cfg n_targets
    chosen_out_file chosen_out_dir dst_paths generated_paths w :
  (∀ dst,
     out_path_of os ask pattern n_targets chosen_out_file chosen_out_dir dst
     = out_path_of os ask' pattern n_targets chosen_out_file chosen_out_dir
         dst) →
  process os can_write depth ask pattern src_cfg n_targets chosen_out_file
    chosen_out_dir dst_paths generated_paths w
  = process os can_write depth ask' pattern src_cfg n_targets chosen_out_file
      chosen_out_dir dst_paths generated_paths w.
Proof.
  intros Hout. revert generated_paths w.
  induction dst_paths as [|dst rest IH]; intros gen w; simpl; [done|].
  unfold mbind, io_bind.
  assert (process_target os can_write depth ask pattern src_cfg n_targets
            chosen_out_file chosen_out_dir dst w
          = process_target os can_write depth ask' pattern src_cfg n_targets
              chosen_out_file chosen_out_dir dst w) as ->.
  { unfold process_target. by rewrite Hout. }
  destruct (process_target _ _ _ _ _ _ _ _ _ dst w) as [w1 [out|e]]; [|done].
  apply IH.
Qed.

(** X11 (nothing chosen in step 3). With [ASK_WHERE_TO_SAVE] on, when the
    user cancels the dialog of step 3 (the answer is empty: for one target
    the output file, for several the output folder), the run is the run
    with [ASK_WHERE_TO_SAVE] off: same outputs next to the targets, same
    files, same error if there is one. An answer to the dialog that was not
    shown plays no part. *)
Theorem main_ask_nothing_chosen os can_write depth pattern src_path dst_paths
    chosen_out_file chosen_out_dir w :
  (length dst_paths = 1 → chosen chosen_out_file = false) →
  (length dst_paths ≠ 1 → chosen chosen_out_dir = false) →
  main os can_write depth true pattern src_path dst_paths chosen_out_file
    chosen_out_dir w
  = main os can_write depth false pattern src_path dst_paths chosen_out_file
      chosen_out_dir w.
Proof.
  intros Hfile Hdir. unfold main.
  case_bool_decide; [done|]. case_bool_decide; [done|].
  unfold mbind, io_bind.
  destruct (load_json src_path w) as [w1 [src_cfg|e]]; [|done].
  apply process_ext. intros dst. by apply out_path_of_fallback.
Qed.

Lemma main_ask_nothing_chosen_witness :
  main posixpath (λ _, true) 8 true OUTPUT_NAME_PATTERN "/cfg/src.json"
    ["/cfg/a.json"; "/cfg/b.json"] (Some "/out/x.json") (Some "") scenario_C
  = main posixpath (λ _, true) 8 false OUTPUT_NAME_PATTERN "/cfg/src.json"
      ["/cfg/a.json"; "/cfg/b.json"] (Some "/out/x.json") (Some "") scenario_C.
Proof.
  by apply (main_ask_nothing_chosen posixpath (λ _, true) 8
              OUTPUT_NAME_PATTERN "/cfg/src.json"
              ["/cfg/a.json"; "/cfg/b.json"] (Some "/out/x.json") (Some "")
              scenario_C).
Defined.

(** X12 (outputs when the user chooses). With [ASK_WHERE_TO_SAVE] on and a
    run that succeeds: for a single target and a chosen output file, that
    file is the one output, whatever the target is called and whatever the
    pattern is; for several targets and a chosen folder, the outputs are as
    many as the targets, in their order, each the chosen folder joined with
    the pattern applied to the stem of the target's file name. *)
Theorem main_ask_outputs os can_write depth pattern src_path dst_paths
    chosen_out_file chosen_out_dir w w' outs :
  main os can_write depth true pattern src_path dst_paths chosen_out_file
    chosen_out_dir w = (w', Ok outs) →
  (∀ f, length dst_paths = 1 → chosen_out_file = Some f → f ≠ "" →
        outs = [f]) ∧
  (∀ dir, length dst_paths ≠ 1 → chosen_out_dir = Some dir → dir ≠ "" →
     Forall2 (λ dst out,
                ∃ name,
                  str_format pattern None (splitext os (basename os dst)).1
                  = Ok name ∧
                  out = join os dir name) dst_paths outs).
Proof.
  unfold main. intros Hrun.
  case_bool_decide; [done|]. case_bool_decide as Hne; [done|].
  apply io_bind_Ok in Hrun as (w1 & src_cfg & _ & Hrun).
  apply process_out in Hrun as (outs' & -> & Hall). simpl. split.
  - intros f Hone -> Hf.
    destruct dst_paths as [|dst [|? ?]]; try done.
    apply Forall2_cons_inv_l in Hall as (out & outs'' & Hout & Hnil & ->).
    apply Forall2_nil_inv_l in Hnil as ->.
    unfold out_path_of in Hout. simpl in Hout.
    rewrite bool_decide_eq_false_2 in Hout by done. simpl in Hout.
    by injection Hout as <-.
  - intros dir Hmany -> Hdir.
    eapply Forall2_impl; [done|]. intros dst out. simpl.
    unfold out_path_of, pattern_path. simpl.
    rewrite (bool_decide_eq_false_2 (length dst_paths = 1)) by done.
    rewrite (bool_decide_eq_false_2 (dir = "")) by done. simpl.
    destruct (splitext os (basename os dst)) as [base ext]. simpl.
    destruct (str_format pattern None base) as [name|]; [|done].
    simpl. intros [= <-]. eauto.
Qed.

Lemma main_ask_outputs_witness :
  ∃ w',
    main posixpath (λ _, true) 8 true OUTPUT_NAME_PATTERN "/cfg/src.json"
      ["/cfg/a.json"] (Some "/out/x.json") None scenario_C
    = (w', Ok ["/out/x.json"]) ∧
    ["/out/x.json"] = ["/out/x.json"].
Proof.
  eexists. split; [vm_compute; reflexivity|].
  eapply (main_ask_outputs posixpath (λ _, true) 8 OUTPUT_NAME_PATTERN
            "/cfg/src.json" ["/cfg/a.json"] (Some "/out/x.json") None
            scenario_C);
    [vm_compute; reflexivity|done..].
Defined.

(** * The ways a merge can end *)

(** On a target that is a dict the body of the copy loop never fails,
    whatever the two documents share, and what was a dict stays one. *)
Lemma copy_entry_total (h : heap) (d : loc) (dits : dict) (m : string)
    (sp : val) :
  h !! d = Some (ODict dits) →
  ∃ h', copy_entry h (VRef d) m sp = Ok h' ∧
        ∀ v, is_dict h v = true → is_dict h' v = true.
Proof.
  intros Hd. unfold copy_entry. simpl. rewrite Hd. simpl.
  destruct (dict_get m dits) as [cur|] eqn:Hcur; last first.
  { rewrite bool_decide_eq_false_2 by (by intros []). simpl. by exists h. }
  rewrite bool_decide_eq_true_2 by eauto. simpl.
  destruct (dict_of h sp) as [sfs|] eqn:Hsfs; last first.
  { apply is_dict_false in Hsfs as Hsd. rewrite Hsd. simpl. by exists h. }
  assert (is_dict h sp = true) as -> by (apply is_dict_dict_of; eauto).
  simpl. destruct (dict_get "key" sfs) as [k|] eqn:Hk; last first.
  { rewrite bool_decide_eq_false_2 by (by intros []). simpl. by exists h. }
  rewrite bool_decide_eq_true_2 by eauto. simpl.
  rewrite (getitem_dict h d dits m cur) by done. simpl.
  apply dict_of_Some in Hsfs as (p & -> & Hp).
  destruct (is_dict h cur) eqn:Hcd.
  - apply is_dict_true in Hcd as (e & fs & -> & He). simpl.
    rewrite (getitem_dict h p sfs "key" k) by done. simpl.
    rewrite (getitem_dict h d dits m (VRef e)) by done. simpl.
    rewrite He. eexists. split; [done|].
    intros v. by erewrite is_dict_update.
  - simpl.
    assert (d < length h) as Hdlt by (by eapply lookup_lt_Some).
    assert (p < length h) as Hplt by (by eapply lookup_lt_Some).
    rewrite lookup_app_l by done. rewrite Hd. simpl.
    set (h1 := <[d := _]> (h ++ [ODict []])).
    assert (h1 !! d = Some (ODict (dict_set m (VRef (length h)) dits))) as Hd1.
    { unfold h1. apply list_lookup_insert_eq. rewrite length_app. lia. }
    assert (h1 !! length h = Some (ODict [])) as Hn1.
    { unfold h1. rewrite list_lookup_insert_ne by lia.
      by rewrite lookup_app_r, Nat.sub_diag. }
    assert (∃ k', getitem h1 (VRef p) "key" = Ok k') as [k' ->].
    { destruct (decide (p = d)) as [->|Hpd].
      - assert (sfs = dits) as -> by congruence.
        unfold getitem. simpl. rewrite Hd1, dict_get_set.
        case_decide; [by eauto|]. rewrite Hk. eauto.
      - exists k. apply (getitem_dict h1 p sfs); [|done].
        unfold h1. rewrite list_lookup_insert_ne by done.
        by rewrite lookup_app_l. }
    simpl.
    rewrite (getitem_dict h1 d _ m (VRef (length h)) Hd1)
      by (by rewrite dict_get_set, decide_True).
    simpl. rewrite Hn1. eexists. split; [done|].
    intros v Hv. erewrite is_dict_update by done.
    unfold h1. erewrite is_dict_update
      by (by rewrite lookup_app_l).
    unfold is_dict in *. rewrite dict_of_app; [done|].
    destruct v as [| | | | |l]; try done. simpl in *.
    destruct (h !! l) eqn:Hl; [|done]. by eapply lookup_lt_Some.
Qed.

Lemma copy_loop_outcome (src_cfg : val) (d : loc) n : ∀ i used h,
  is_dict h src_cfg = true → is_dict h (VRef d) = true →
  (∃ h', copy_loop n i used h src_cfg (VRef d) = Ok h') ∨
  copy_loop n i used h src_cfg (VRef d) = Raise RuntimeError.
Proof.
  induction n as [|n IH]; intros i used h Hs Hd; simpl;
    apply is_dict_dict_of in Hs as Hs'; destruct Hs' as [its Hits];
    rewrite Hits; case_bool_decide; simpl; eauto.
  destruct (its !! i) as [[m sp]|]; [|by eauto].
  apply is_dict_true in Hd as Hd'. destruct Hd' as (d' & dits & [= <-] & Hdd).
  destruct (copy_entry_total h d dits m sp Hdd) as (h' & -> & Hkeep).
  simpl. apply IH; by apply Hkeep.
Qed.

(** X18 (the ways a merge can end). [apply_binds] ends in one of three
    ways, whatever the store looks like and whatever objects the two
    arguments share. When the target or the source is not a dict it raises
    AttributeError. When both are dicts it returns the target, or it raises
    RuntimeError because the source changed size while the copy loop went
    through it; it never raises KeyError or TypeError. *)
Theorem apply_binds_outcomes (h : heap) (src_cfg dst_cfg : val) :
  (is_dict h dst_cfg = false ∨ is_dict h src_cfg = false →
   apply_binds h src_cfg dst_cfg = Raise AttributeError) ∧
  (is_dict h src_cfg = true → is_dict h dst_cfg = true →
   (∃ h', apply_binds h src_cfg dst_cfg = Ok (h', dst_cfg)) ∨
   apply_binds h src_cfg dst_cfg = Raise RuntimeError).
Proof.
  split.
  - intros [Hd|Hs];
      [by apply apply_binds_target_not_dict
      |by apply apply_binds_source_not_dict].
  - intros Hs Hd. unfold apply_binds, strip_pass.
    apply is_dict_true in Hd as Hd'. destruct Hd' as (d & dits & -> & Hdd).
    simpl. rewrite Hdd. simpl.
    set (h1 := foldl _ h dits).
    assert (∀ v, is_dict h1 v = is_dict h v) as Hkeep.
    { intros v. apply (foldl_inv _ (λ h', is_dict h' v = is_dict h v)); [done|].
      intros h' it _. by rewrite strip_entry_is_dict. }
    unfold copy_pass.
    assert (is_dict h1 src_cfg = true) as Hs1 by (by rewrite Hkeep).
    apply is_dict_dict_of in Hs1 as Hs1'. destruct Hs1' as [its Hits].
    rewrite Hits.
    destruct (copy_loop_outcome src_cfg d (length its) 0 (length its) h1)
      as [[h' ->]| ->]; [done|by rewrite Hkeep|by eauto|by right].
Qed.

Lemma apply_binds_outcomes_witness :
  apply_binds [OList []; ODict [("move", VRef 0)]] (VRef 0) (VRef 1)
  = Raise AttributeError ∧
  ((∃ h', apply_binds scenario_A (VRef 2) (VRef 5) = Ok (h', VRef 5)) ∨
   apply_binds scenario_A (VRef 2) (VRef 5) = Raise RuntimeError).
Proof.
  split.
  - apply (apply_binds_outcomes [OList []; ODict [("move", VRef 0)]]
             (VRef 0) (VRef 1)). by right.
  - by apply (apply_binds_outcomes scenario_A (VRef 2) (VRef 5)).
Defined.

(** RuntimeError does happen: when an entry of the target is the source
    itself, the copy loop puts a 'key' into the dict it goes through. *)
Example apply_binds_changed_size :
  apply_binds
    [ODict [("key", VInt 1)]; ODict [("move", VRef 0)]; ODict [("move", VRef 1)]]
    (VRef 1) (VRef 2)
  = Raise RuntimeError.
Proof. reflexivity. Qed.

(** * Saving and loading *)

(** ** Trees *)

Lemma json_wf_arr (js : list json) : json_wf (JArr js) ↔ Forall json_wf js.
Proof.
  induction js as [|j js IH]; [by split; [constructor|]|].
  rewrite Forall_cons, <-IH. done.
Qed.

Lemma json_wf_obj (ms : list (string * json)) :
  json_wf (JObj ms) ↔ NoDup ms.*1 ∧ Forall (λ m, json_wf m.2) ms.
Proof.
  assert (foldr (λ m P, json_wf m.2 ∧ P) True ms
          ↔ Forall (λ m, json_wf m.2) ms) as Hall.
  { induction ms as [|m ms IH]; [by split; [constructor|]|].
    rewrite Forall_cons, <-IH. done. }
  by rewrite <-Hall.
Qed.

Lemma json_depth_arr (js : list json) (n : nat) :
  json_depth (JArr js) ≤ S n ↔ Forall (λ j, json_depth j ≤ n) js.
Proof.
  assert (foldr (λ j n, json_depth j `max` n) 0 js ≤ n
          ↔ Forall (λ j, json_depth j ≤ n) js) as Hall.
  { induction js as [|j js IH]; [by split; [constructor|simpl; lia]|].
    rewrite Forall_cons, <-IH. simpl. lia. }
  rewrite <-Hall. simpl. lia.
Qed.

Lemma json_depth_obj (ms : list (string * json)) (n : nat) :
  json_depth (JObj ms) ≤ S n ↔ Forall (λ m, json_depth m.2 ≤ n) ms.
Proof.
  assert (foldr (λ m n, json_depth m.2 `max` n) 0 ms ≤ n
          ↔ Forall (λ m, json_depth m.2 ≤ n) ms) as Hall.
  { induction ms as [|m ms IH]; [by split; [constructor|simpl; lia]|].
    rewrite Forall_cons, <-IH. simpl. lia. }
  rewrite <-Hall. simpl. lia.
Qed.

(** ** Dumps *)

(** Dumping the fields of a dict, and the elements of a list. *)
Lemma json_dump_dict (n : nat) (h : heap) (l : loc) (its : dict) :
  h !! l = Some (ODict its) →
  json_dump (S n) h (VRef l)
  = JObj <$> mapM (λ it, pair it.1 <$> json_dump n h it.2) its.
Proof. intros Hl. simpl. by rewrite Hl. Qed.

Lemma json_dump_list (n : nat) (h : heap) (l : loc) (vs : list val) :
  h !! l = Some (OList vs) →
  json_dump (S n) h (VRef l) = JArr <$> mapM (json_dump n h) vs.
Proof. intros Hl. simpl. by rewrite Hl. Qed.

Lemma dump_members (f : val → option json) (its : dict)
    (ms : list (string * json)) :
  mapM (λ it, pair it.1 <$> f it.2) its = Some ms ↔
  Forall2 (λ it m, it.1 = m.1 ∧ f it.2 = Some m.2) its ms.
Proof.
  rewrite mapM_Some.
  split; intros Hall; (eapply Forall2_impl; [exact Hall|]);
    intros [k v] [k' j]; simpl.
  - destruct (f v) as [j'|]; simpl; [|done]. by intros [= <- <-].
  - by intros [-> ->].
Qed.

Lemma Forall2_names (its : dict) (ms : list (string * json))
    (R : val → json → Prop) :
  Forall2 (λ it m, it.1 = m.1 ∧ R it.2 m.2) its ms → its.*1 = ms.*1.
Proof. induction 1 as [|?????? IH]; csimpl; [done|]. f_equal; [tauto|done]. Qed.

(** A dump sees the objects it reaches only: new objects change nothing. *)
Lemma json_dump_app (n : nat) (h ext : heap) (v : val) (j : json) :
  json_dump n h v = Some j → json_dump n (h ++ ext) v = Some j.
Proof.
  revert v j. induction n as [|n IH]; intros v j; destruct v as [| | | | |l];
    try done.
  simpl. destruct (h !! l) as [[its|vs]|] eqn:Hl; [| |done];
    rewrite (lookup_app_l_Some _ _ _ _ Hl).
  - intros (ms & Hms & ->)%fmap_Some. apply fmap_Some. exists ms.
    split; [|done]. apply dump_members. apply dump_members in Hms.
    eapply Forall2_impl; [done|]. intros it m [? ?]. split; [done|]. by apply IH.
  - intros (js & Hjs & ->)%fmap_Some. apply fmap_Some. exists js.
    split; [|done]. apply mapM_Some. apply mapM_Some in Hjs.
    eapply Forall2_impl; [done|]. intros x y. apply IH.
Qed.

(** What is dumped has every member name once, and the depth of the
    traversal at most. *)
Lemma json_dump_wf (n : nat) (h : heap) (v : val) (j : json) :
  heap_ok h → json_dump n h v = Some j → json_wf j ∧ json_depth j ≤ n.
Proof.
  intros Hok. revert v j.
  induction n as [|n IH]; intros v j; destruct v as [| | | | |l];
    try (intros [= <-]; simpl; split; [done|lia]); try done.
  simpl. destruct (h !! l) as [[its|vs]|] eqn:Hl; [| |done].
  - intros (ms & Hms%dump_members & ->)%fmap_Some.
    rewrite json_wf_obj, json_depth_obj. split_and!.
    + rewrite <-(Forall2_names _ _ (λ v j, json_dump n h v = Some j) Hms).
      by eapply heap_ok_keys.
    + eapply Forall2_Forall_r; [done|]. apply Forall_true.
      intros it m [_ Hm]. by apply (IH _ _ Hm).
    + eapply Forall2_Forall_r; [done|]. apply Forall_true.
      intros it m [_ Hm]. by apply (IH _ _ Hm).
  - intros (js & Hjs%mapM_Some & ->)%fmap_Some.
    rewrite json_wf_arr, json_depth_arr. split.
    + eapply Forall2_Forall_r; [done|]. apply Forall_true.
      intros it m Hm. by apply (IH _ _ Hm).
    + eapply Forall2_Forall_r; [done|]. apply Forall_true.
      intros it m Hm. by apply (IH _ _ Hm).
Qed.

(** ** Loading a dump *)

Lemma dict_build_id (its : dict) : NoDup its.*1 → dict_build its = its.
Proof.
  unfold dict_build.
  assert (∀ acc, NoDup (acc.*1 ++ its.*1) →
            foldl (λ d it, dict_set it.1 it.2 d) acc its = acc ++ its)
    as Hgen; [|by apply (Hgen [])].
  induction its as [|[k v] its IH]; intros acc Hnd; csimpl in *.
  { by rewrite app_nil_r. }
  rewrite IH.
  - rewrite dict_set_fresh; [by rewrite <-app_assoc|].
    apply dict_get_None. apply NoDup_app in Hnd as (_ & Hdis & _).
    intros Hin. apply (Hdis k Hin). by left.
  - rewrite dict_set_keys_fresh.
    + rewrite <-app_assoc. done.
    + apply NoDup_app in Hnd as (_ & Hdis & _).
      intros Hin. apply (Hdis k Hin). by left.
Qed.

Lemma load_elems_dump (js : list json) (n : nat) :
  Forall dumps_back js → Forall json_wf js →
  Forall (λ j, json_depth j ≤ n) js →
  ∀ h h' vs ext, load_elems js h = (h', vs) →
    mapM (json_dump n (h' ++ ext)) vs = Some js.
Proof.
  induction 1 as [|j js Hj _ IH]; intros Hwf Hdepth h h' vs ext Hload;
    simpl in Hload.
  { by injection Hload as <- <-. }
  apply Forall_cons in Hwf as [Hwf Hwfs].
  apply Forall_cons in Hdepth as [Hd Hds].
  destruct (json_load j h) as [ha v] eqn:Hv.
  destruct (load_elems js ha) as [hb vs'] eqn:Hvs.
  injection Hload as <- <-.
  assert (loaded_all ha hb vs') as ((ext' & -> & _) & _ & _).
  { eapply load_elems_loaded; [|done].
    apply Forall_forall. intros j' _ h0 h0' v0. apply json_load_loaded. }
  apply mapM_Some. constructor.
  - rewrite <-app_assoc. apply json_dump_app. by eapply Hj.
  - apply mapM_Some. apply (IH Hwfs Hds _ _ _ _ Hvs).
Qed.

Lemma load_members_dump (ms : list (string * json)) (n : nat) :
  Forall (λ m, dumps_back m.2) ms → Forall (λ m, json_wf m.2) ms →
  Forall (λ m, json_depth m.2 ≤ n) ms →
  ∀ h h' its ext, load_members ms h = (h', its) →
    its.*1 = ms.*1 ∧
    mapM (λ it, pair it.1 <$> json_dump n (h' ++ ext) it.2) its = Some ms.
Proof.
  induction 1 as [|[k j] ms Hj _ IH]; intros Hwf Hdepth h h' its ext Hload;
    simpl in Hload.
  { by injection Hload as <- <-. }
  apply Forall_cons in Hwf as [Hwf Hwfs].
  apply Forall_cons in Hdepth as [Hd Hds].
  destruct (json_load j h) as [ha v] eqn:Hv.
  destruct (load_members ms ha) as [hb its'] eqn:Hits.
  injection Hload as <- <-.
  assert (loaded_all ha hb its'.*2) as ((ext' & -> & _) & _ & _).
  { eapply load_members_loaded; [|done].
    apply Forall_forall. intros j' _ h0 h0' v0. apply json_load_loaded. }
  destruct (IH Hwfs Hds _ _ _ ext Hits) as [Hnames Hdump].
  split; [csimpl; by rewrite Hnames|].
  apply dump_members. constructor.
  - split; [done|]. simpl. rewrite <-app_assoc. apply json_dump_app.
    by eapply Hj.
  - by apply dump_members.
Qed.

(** A tree without a repeated member name dumps, after [json.load], to
    itself, when the traversal is deep enough. *)
Lemma json_load_dump (j : json) : dumps_back j.
Proof.
  induction j as [| | | | |js IH|ms IH] using json_tree_ind;
    intros Hwf n h h' v Hdepth Hload;
    try (injection Hload as <- <-; by destruct n).
  - rewrite json_load_arr in Hload.
    destruct (load_elems js h) as [h1 vs] eqn:Hvs. injection Hload as <- <-.
    destruct n as [|n]; [simpl in Hdepth; lia|].
    apply json_wf_arr in Hwf. apply json_depth_arr in Hdepth.
    rewrite (json_dump_list _ _ _ vs)
      by (by rewrite lookup_app_r, Nat.sub_diag).
    by rewrite (load_elems_dump js n IH Hwf Hdepth _ _ _ _ Hvs).
  - rewrite json_load_obj in Hload.
    destruct (load_members ms h) as [h1 its] eqn:Hits. injection Hload as <- <-.
    destruct n as [|n]; [simpl in Hdepth; lia|].
    apply json_wf_obj in Hwf as [Hnd Hwf]. apply json_depth_obj in Hdepth.
    destruct (load_members_dump ms n IH Hwf Hdepth _ _ _
                [ODict (dict_build its)] Hits) as [Hnames Hdump].
    rewrite (json_dump_dict _ _ _ (dict_build its))
      by (by rewrite lookup_app_r, Nat.sub_diag).
    set (h2 := h1 ++ [ODict (dict_build its)]) in *.
    rewrite dict_build_id by (by rewrite Hnames).
    by rewrite Hdump.
Qed.

(** X13 (what is saved loads back). When [save_json] has written an object
    of a well-formed store to a file, [load_json] reads that file without
    error and changes no file; the document it returns is made of new
    objects and dumps to the very JSON that was written. *)
Theorem save_json_load_json (can_write : string → bool) (depth : nat)
    (obj : val) (path : string) (w w1 : world) :
  heap_ok (store w) →
  save_json can_write depth obj path w = (w1, Ok ()) →
  ∃ j w2 v,
    files w1 !! path = Some (JsonText j) ∧
    json_dump depth (store w) obj = Some j ∧
    load_json path w1 = (w2, Ok v) ∧ files w2 = files w1 ∧
    (∀ l, v = VRef l → length (store w) ≤ l) ∧
    json_dump depth (store w2) v = Some j.
Proof.
  intros Hok. unfold save_json. destruct (can_write path); [|done].
  destruct (json_dump depth (store w) obj) as [j|] eqn:Hdump; [|done].
  intros [= <-]. unfold load_json. simpl. rewrite lookup_insert_eq.
  destruct (json_load j (store w)) as [h v] eqn:Hload.
  destruct (json_dump_wf _ _ _ _ Hok Hdump) as [Hwf Hdepth].
  exists j, (World (<[path := JsonText j]> (files w)) h), v.
  split_and!; try done.
  - apply (json_load_loaded _ _ _ _ Hload).
  - simpl. by eapply json_load_dump.
Qed.

Lemma save_json_load_json_witness :
  heap_ok scenario_A ∧
  ∃ j w2 v,
    json_dump 8 scenario_A (VRef 5) = Some j ∧
    load_json "/cfg/out.json"
      (World (<["/cfg/out.json" := JsonText j]> ∅) scenario_A) = (w2, Ok v) ∧
    json_dump 8 (store w2) v = Some j.
Proof.
  assert (heap_ok scenario_A) as Hok by compute_done.
  split; [done|].
  destruct (save_json_load_json (λ _, true) 8 (VRef 5) "/cfg/out.json"
              (World ∅ scenario_A) _ Hok eq_refl)
    as (j & w2 & v & _ & Hdump & Hload & _ & _ & Hback).
  exists j, w2, v. split_and!; [done| |done].
  simpl in Hdump. injection Hdump as <-. exact Hload.
Defined.

(** * The merged document *)

(** ** Dicts and their dumps *)

Section dump_facts.
Context (R : val → json → Prop).
Implicit Types (its : dict) (ms : list (string * json)).

Local Abbreviation dumped :=
  (Forall2 (λ (it : string * val) (m : string * json),
              it.1 = m.1 ∧ R it.2 m.2)).

Lemma dumped_get_Some k its ms v :
  dumped its ms → dict_get k its = Some v →
  ∃ j, members_get k ms = Some j ∧ R v j.
Proof.
  induction 1 as [|[k0 v0] [k1 j1] its ms [Hk Hv] _ IH]; csimpl in *; [done|].
  subst k1. destruct (decide (k = k0)); [|done]. intros [= ->]. eauto.
Qed.

Lemma dumped_get_None k its ms :
  dumped its ms → dict_get k its = None → members_get k ms = None.
Proof.
  induction 1 as [|[k0 v0] [k1 j1] its ms [Hk Hv] _ IH]; csimpl in *; [done|].
  subst k1. by destruct (decide (k = k0)).
Qed.

Lemma dumped_pop k its ms :
  dumped its ms → dumped (dict_pop k its) (members_pop k ms).
Proof.
  induction 1 as [|[k0 v0] [k1 j1] its ms [Hk Hv] ? IH]; csimpl in *;
    [constructor|].
  subst k1. destruct (decide (k = k0)); [done|]. by constructor.
Qed.
End dump_facts.

Lemma json_dump_dict_inv (n : nat) (h : heap) (l : loc) (its : dict) (j : json) :
  h !! l = Some (ODict its) → json_dump n h (VRef l) = Some j →
  ∃ n' ms, n = S n' ∧ j = JObj ms ∧
    Forall2 (λ it m, it.1 = m.1 ∧ json_dump n' h it.2 = Some m.2) its ms.
Proof.
  intros Hl. destruct n as [|n]; [done|]. rewrite (json_dump_dict _ _ _ its Hl).
  intros (ms & Hms%dump_members & ->)%fmap_Some. by exists n, ms.
Qed.

Lemma json_dump_JObj (n : nat) (h : heap) (v : val) (ms : list (string * json)) :
  json_dump n h v = Some (JObj ms) → is_dict h v = true.
Proof.
  destruct n as [|n], v as [| | | | |l]; try done. simpl. unfold is_dict. simpl.
  destruct (h !! l) as [[its|vs]|]; try done.
  by intros (js & _ & ?)%fmap_Some.
Qed.

(** The key of the source for a module, in the store and in the dump. *)
Lemma source_key_dump (n : nat) (h : heap) (sits : dict)
    (sms : list (string * json)) (m : string) :
  Forall2 (λ it m, it.1 = m.1 ∧ json_dump n h it.2 = Some m.2) sits sms →
  match dict_get m sits ≫= (λ sp, field h sp "key") with
  | Some k =>
      ∃ n' kj, n = S n' ∧ source_key sms m = Some kj ∧
               json_dump n' h k = Some kj
  | None => source_key sms m = None
  end.
Proof.
  intros Hall. unfold source_key.
  destruct (dict_get m sits) as [sp|] eqn:Hsp; simpl.
  2:{ by rewrite (dumped_get_None (λ v j, json_dump n h v = Some j)
                    _ _ _ Hall Hsp). }
  destruct (dumped_get_Some (λ v j, json_dump n h v = Some j)
              _ _ _ _ Hall Hsp) as (sj & -> & Hsj).
  unfold field. destruct (dict_of h sp) as [fs|] eqn:Hfs; simpl.
  - apply dict_of_Some in Hfs as (p & -> & Hp).
    destruct (json_dump_dict_inv _ _ _ _ _ Hp Hsj) as (n' & sfs & -> & -> & Hfs).
    destruct (dict_get "key" fs) as [k|] eqn:Hk.
    + destruct (dumped_get_Some (λ v j, json_dump n' h v = Some j)
                  _ _ _ _ Hfs Hk) as (kj & Hkj & Hdump).
      by exists n', kj.
    + by rewrite (dumped_get_None (λ v j, json_dump n' h v = Some j)
                    _ _ _ Hfs Hk).
  - destruct sj as [| | | | | |ms]; try done.
    apply json_dump_JObj in Hsj. apply is_dict_false in Hfs. congruence.
Qed.

Lemma elem_of_below (h : heap) (its : dict) (x : val) :
  x ∈ below h its ↔
  ∃ m v, (m, v) ∈ its ∧
    match dict_of h v with
    | Some fs => ∃ f, (f, x) ∈ fs
    | None => x = v
    end.
Proof.
  unfold below. rewrite list_elem_of_bind. split.
  - intros (v & Hx & ([m v'] & -> & Hin)%list_elem_of_fmap). exists m, v'.
    split; [done|]. simpl in *. destruct (dict_of h v') as [fs|].
    + apply list_elem_of_fmap in Hx as ([f x'] & -> & ?). by exists f.
    + by apply list_elem_of_singleton in Hx.
  - intros (m & v & Hin & Hx). exists v. split.
    + destruct (dict_of h v) as [fs|].
      * destruct Hx as [f Hf]. apply list_elem_of_fmap. by exists (f, x).
      * by apply list_elem_of_singleton.
    + apply list_elem_of_fmap. by exists (m, v).
Qed.

Lemma Forall2_impl_elem {A B} (P Q : A → B → Prop) (l : list A) (k : list B) :
  Forall2 P l k → (∀ x y, x ∈ l → P x y → Q x y) → Forall2 Q l k.
Proof.
  induction 1 as [|x y l k Hxy _ IH]; intros Himpl; constructor.
  - apply Himpl; [left|done].
  - apply IH. intros x' y' ?. apply Himpl. by right.
Qed.

(** ** The dump of the merged target *)

Section merged_dump.
Variables (h : heap) (s : loc) (sits : dict) (d : loc) (dits : dict).
Variables (h1 h2 : heap) (dits2 : dict).
Variables (n1 : nat) (sms : list (string * json)).
Hypothesis Hinv : inv h s sits d dits.
Hypothesis Hrun : apply_binds h (VRef s) (VRef d) = Ok (h2, VRef d).
Hypothesis Hinv1 : inv h1 s sits d dits.
Hypothesis Hst : stripped h dits h1.
Hypothesis Hkey : ∀ m v, dict_get m dits = Some v → field h1 v "key" = None.
Hypothesis Hpr : progress h1 s d sits dits (length sits) h2 dits2.
Hypothesis Hsrc :
  Forall2 (λ it m, it.1 = m.1 ∧ json_dump n1 h it.2 = Some m.2) sits sms.
Hypothesis Hbelow :
  ∀ x k, x ∈ below h sits ++ below h dits →
    Forall (λ l, l ∉ dicts_of h d dits) (reach k h x).

(** What is below the two documents dumps as before. *)
Lemma merged_dump_below x k :
  x ∈ below h sits ++ below h dits →
  json_dump k h2 x = json_dump k h x.
Proof.
  intros Hx. apply json_dump_frame. intros l Hl.
  eapply merged_frame; [done..| |].
  - assert (val_ok (length h) x) as Hxok.
    { apply elem_of_app in Hx as [Hx|Hx];
        apply elem_of_below in Hx as (m & v & Hin & Hx).
      - pose proof (heap_ok_get _ _ _ _ _ (inv_ok _ _ _ _ _ Hinv)
                      (inv_src _ _ _ _ _ Hinv)
                      (dict_get_elem _ _ _
                         (heap_ok_keys _ _ _ (inv_ok _ _ _ _ _ Hinv)
                            (inv_src _ _ _ _ _ Hinv)) Hin)) as Hv.
        destruct (dict_of h v) as [fs|] eqn:Hfs; [|by subst].
        apply dict_of_Some in Hfs as (p & -> & Hp). destruct Hx as [f Hf].
        destruct (heap_ok_lookup _ _ _ (inv_ok _ _ _ _ _ Hinv) Hp) as [_ Hvs].
        eapply Forall_forall in Hvs; [done|].
        apply list_elem_of_fmap. by exists (f, x).
      - pose proof (heap_ok_get _ _ _ _ _ (inv_ok _ _ _ _ _ Hinv)
                      (inv_dst _ _ _ _ _ Hinv)
                      (dict_get_elem _ _ _
                         (heap_ok_keys _ _ _ (inv_ok _ _ _ _ _ Hinv)
                            (inv_dst _ _ _ _ _ Hinv)) Hin)) as Hv.
        destruct (dict_of h v) as [fs|] eqn:Hfs; [|by subst].
        apply dict_of_Some in Hfs as (p & -> & Hp). destruct Hx as [f Hf].
        destruct (heap_ok_lookup _ _ _ (inv_ok _ _ _ _ _ Hinv) Hp) as [_ Hvs].
        eapply Forall_forall in Hvs; [done|].
        apply list_elem_of_fmap. by exists (f, x). }
    by eapply (proj1 (Forall_forall _ _)
                 (reach_closed k h x (inv_ok _ _ _ _ _ Hinv) Hxok)).
  - by eapply (proj1 (Forall_forall _ _) (Hbelow x k Hx)).
Qed.

Lemma source_key_below m sp k :
  dict_get m sits = Some sp → field h sp "key" = Some k →
  k ∈ below h sits ++ below h dits.
Proof.
  intros Hsp Hk. apply elem_of_app. left. apply elem_of_below.
  exists m, sp. split; [by apply dict_get_Some_elem|].
  unfold field in Hk. destruct (dict_of h sp) as [fs|]; [|done].
  simpl in Hk. exists "key". by apply dict_get_Some_elem.
Qed.

(** The dump of one entry of the merged target. *)
Lemma merged_member_dump m v v2 tv :
  dict_get m dits = Some v → dict_get m dits2 = Some v2 →
  json_dump n1 h v = Some tv →
  json_dump n1 h2 v2 = Some (merged_member sms m tv).
Proof.
  intros Hv Hv2 Htv.
  assert (entry h2 (VRef d) m = Some v2) as Hentry.
  { unfold entry. simpl.
    by rewrite (inv_dst _ _ _ _ _ (pr_inv _ _ _ _ _ _ _ _ Hpr)). }
  pose proof (source_key_dump n1 h sits sms m Hsrc) as Hsk.
  destruct (is_dict h v) eqn:Hvd.
  - apply is_dict_true in Hvd as (e & fs & -> & He).
    destruct (json_dump_dict_inv _ _ _ _ _ He Htv) as (n2 & tfs & -> & -> & Hfs).
    destruct (apply_binds_entry h h2 s d sits dits m e fs Hinv Hrun Hv He)
      as [Hentry' He2].
    assert (v2 = VRef e) as -> by congruence.
    rewrite (json_dump_dict _ _ _ _ He2). apply fmap_Some.
    assert (Forall2 (λ it m, it.1 = m.1 ∧ json_dump n2 h2 it.2 = Some m.2)
              (dict_pop "key" fs) (members_pop "key" tfs)) as Hpop.
    { apply (dumped_pop (λ v j, json_dump n2 h2 v = Some j)).
      eapply Forall2_impl_elem; [done|].
      intros [f x] [f' xj] Hin [Hf Hx]. split; [done|]. simpl in *.
      rewrite merged_dump_below; [done|]. apply elem_of_app. right.
      apply elem_of_below. exists m, (VRef e).
      split; [by apply dict_get_Some_elem|]. simpl. rewrite He. by exists f. }
    unfold merged_member.
    destruct (dict_get m sits ≫= (λ sp, field h sp "key")) as [k|] eqn:Hk.
    + destruct Hsk as (n2' & kj & [= <-] & -> & Hkj).
      eexists. split; [|done]. apply dump_members.
      apply Forall2_app; [done|]. constructor; [|constructor].
      split; [done|]. simpl.
      apply bind_Some in Hk as (sp & Hsp & Hk).
      rewrite merged_dump_below; [done|]. by eapply source_key_below.
    + rewrite Hsk. eexists. split; [|done]. apply dump_members.
      by rewrite app_nil_r.
  - assert (merged_member sms m tv
            = match source_key sms m with
              | Some k => JObj [("key", k)]
              | None => tv
              end) as ->.
    { unfold merged_member. destruct tv; try done.
      apply json_dump_JObj in Htv. congruence. }
    destruct (dict_get m sits ≫= (λ sp, field h sp "key")) as [k|] eqn:Hk.
    + destruct Hsk as (n2 & kj & -> & -> & Hkj).
      apply bind_Some in Hk as (sp & Hsp & Hk).
      destruct (merged_key _ _ _ _ _ _ _ _ Hinv Hst Hpr m sp k v)
        as (e' & He' & _ & Hnew); [done..|].
      assert (e' = v2) as -> by congruence.
      apply dict_of_Some in Hnew as (l & -> & Hl); [|done].
      rewrite (json_dump_dict _ _ _ _ Hl). csimpl.
      rewrite merged_dump_below; [by rewrite Hkj|].
      by eapply source_key_below.
    + rewrite Hsk.
      assert (entry h2 (VRef d) m = Some v ∧ field h2 v "key" = None)
        as [Hentry' _].
      { apply (merged_no_key h s sits d dits h1 h2 dits2 Hinv Hinv1 Hst Hkey
                 Hpr m v Hv).
        destruct (dict_get m sits) as [sp|]; [|by left].
        right. by exists sp. }
      assert (v2 = v) as -> by congruence.
      rewrite merged_dump_below; [done|]. apply elem_of_app. right.
      apply elem_of_below. exists m, v.
      split; [by apply dict_get_Some_elem|].
      apply is_dict_false in Hvd. by rewrite Hvd.
Qed.

(** The dump of the merged target. *)
Lemma merged_dump tms :
  Forall2 (λ it m, it.1 = m.1 ∧ json_dump n1 h it.2 = Some m.2) dits tms →
  json_dump (S n1) h2 (VRef d) = Some (merged_tree sms tms).
Proof.
  intros Htgt.
  pose proof (inv_dst _ _ _ _ _ (pr_inv _ _ _ _ _ _ _ _ Hpr)) as Hd2.
  pose proof (pr_names _ _ _ _ _ _ _ _ Hpr) as Hnames.
  assert (NoDup dits.*1) as Hnd.
  { eapply heap_ok_keys; [apply Hinv|apply Hinv]. }
  rewrite (json_dump_dict _ _ _ _ Hd2). apply fmap_Some.
  eexists. split; [|done]. apply dump_members, Forall2_fmap_r.
  apply Forall2_same_length_lookup_2.
  { rewrite <-(Forall2_length _ _ _ Htgt).
    by rewrite <-(length_fmap fst dits2), Hnames, length_fmap. }
  intros i [m2 v2] [m tv] Hi2 Hi. simpl.
  destruct (Forall2_lookup_r _ _ _ _ _ Htgt Hi) as ([m' v] & Hi1 & Hm & Hv).
  simpl in *. subst m'.
  assert (m2 = m) as ->.
  { assert (dits2.*1 !! i = Some m2) as H2 by (by rewrite list_lookup_fmap, Hi2).
    assert (dits.*1 !! i = Some m) as H1 by (by rewrite list_lookup_fmap, Hi1).
    congruence. }
  split; [done|]. apply (merged_member_dump m v v2 tv); [| |done].
  - apply dict_get_elem; [done|]. by eapply list_elem_of_lookup_2.
  - apply dict_get_elem; [by rewrite Hnames|]. by eapply list_elem_of_lookup_2.
Qed.
End merged_dump.

(** The merge of two documents, whose parts below the entries reach no dict
    of the target, dumps to the merge of their dumps. *)
Lemma apply_binds_dump (h : heap) (s d : loc) (sits dits : dict) (n : nat)
    (sms tms : list (string * json)) :
  separate h s sits d dits →
  json_dump n h (VRef s) = Some (JObj sms) →
  json_dump n h (VRef d) = Some (JObj tms) →
  (∀ x k, x ∈ below h sits ++ below h dits →
     Forall (λ l, l ∉ dicts_of h d dits) (reach k h x)) →
  ∃ h2,
    apply_binds h (VRef s) (VRef d) = Ok (h2, VRef d) ∧
    json_dump n h2 (VRef d) = Some (merged_tree sms tms).
Proof.
  intros Hinv%separate_inv Hs Hd Hbelow.
  destruct (apply_binds_run _ _ _ _ _ Hinv)
    as (h1 & h2 & dits2 & _ & _ & Hrun & Hinv1 & Hst & Hkey & Hpr).
  exists h2. split; [done|].
  destruct (json_dump_dict_inv _ _ _ _ _ (inv_src _ _ _ _ _ Hinv) Hs)
    as (n1 & sms' & -> & [= <-] & Hsrc).
  destruct (json_dump_dict_inv _ _ _ _ _ (inv_dst _ _ _ _ _ Hinv) Hd)
    as (n1' & tms' & [= <-] & [= <-] & Htgt).
  by eapply (merged_dump h s sits d dits h1 h2 dits2 n1 sms).
Qed.

(** ** The shape of what json.load builds *)

Lemma grown_app (a m b : nat) (h : heap) :
  a ≤ m → grown a m h → grown m b h → grown a b h.
Proof.
  intros Ham Hlo Hhi l o Hl Ho. destruct (decide (l < m)) as [Hlt|Hge].
  - apply (Hlo l o); [lia|done].
  - eapply Forall_impl; [apply (Hhi l o); [lia|done]|].
    intros v Hv r Hr. specialize (Hv r Hr). lia.
Qed.

Lemma grown_nil (a : nat) (h : heap) : grown a a h.
Proof. intros l o ?. lia. Qed.

(** The traversal of a value in such a range stays in the range, and at or
    before the value. *)
Lemma reach_grown (a b u : nat) (h : heap) (k : nat) (v : val) :
  grown a b h → u < b → (∀ r, v = VRef r → a ≤ r ≤ u) →
  Forall (λ l, a ≤ l ≤ u) (reach k h v).
Proof.
  intros Hg. revert u v. induction k as [|k IH]; intros u v Hu Hv;
    destruct v as [| | | | |x]; try by constructor.
  specialize (Hv x eq_refl). simpl. constructor; [done|].
  assert (∀ c, c ∈ match h !! x with
                   | Some o => obj_vals o
                   | None => []
                   end → Forall (λ l, a ≤ l ≤ u) (reach k h c)) as Hkids.
  { intros c Hc. destruct (h !! x) as [o|] eqn:Hx; [|by apply elem_of_nil in Hc].
    pose proof (Hg x o ltac:(lia) Hx) as Hrefs.
    eapply Forall_forall in Hrefs; [|done].
    eapply Forall_impl; [apply (IH x c); [lia|]|].
    - intros r Hr. specialize (Hrefs r Hr). lia.
    - simpl. intros l ?. lia. }
  destruct (h !! x) as [[its|vs]|]; [| |by constructor].
  - apply Forall_forall. intros l (c & Hl & Hc)%list_elem_of_bind.
    by eapply (proj1 (Forall_forall _ _) (Hkids c Hc)).
  - apply Forall_forall. intros l (c & Hl & Hc)%list_elem_of_bind.
    by eapply (proj1 (Forall_forall _ _) (Hkids c Hc)).
Qed.

Lemma load_elems_grown (js : list json) :
  Forall grows js →
  ∀ h h' vs, load_elems js h = (h', vs) →
    ∀ ext, grown (length h) (length h') (h' ++ ext).
Proof.
  induction 1 as [|j js Hj _ IH]; intros h h' vs Hload ext; simpl in Hload.
  { injection Hload as <- <-. apply grown_nil. }
  destruct (json_load j h) as [ha v] eqn:Hv.
  destruct (load_elems js ha) as [hb vs'] eqn:Hvs.
  injection Hload as <- <-.
  destruct (json_load_loaded _ _ _ _ Hv) as [(e0 & -> & _) _ _].
  assert (loaded_all (h ++ e0) hb vs') as ((e1 & -> & _) & _ & _).
  { eapply load_elems_loaded; [|done].
    apply Forall_forall. intros j' _ h0 h0' v0. apply json_load_loaded. }
  apply (grown_app _ (length (h ++ e0))).
  - rewrite length_app. lia.
  - rewrite <-(app_assoc (h ++ e0)). by eapply Hj.
  - by eapply IH.
Qed.

Lemma load_members_grown (ms : list (string * json)) :
  Forall (λ m, grows m.2) ms →
  ∀ h h' its, load_members ms h = (h', its) →
    ∀ ext, grown (length h) (length h') (h' ++ ext).
Proof.
  induction 1 as [|[k j] ms Hj _ IH]; intros h h' its Hload ext;
    simpl in Hload.
  { injection Hload as <- <-. apply grown_nil. }
  destruct (json_load j h) as [ha v] eqn:Hv.
  destruct (load_members ms ha) as [hb its'] eqn:Hits.
  injection Hload as <- <-.
  destruct (json_load_loaded _ _ _ _ Hv) as [(e0 & -> & _) _ _].
  assert (loaded_all (h ++ e0) hb its'.*2) as ((e1 & -> & _) & _ & _).
  { eapply load_members_loaded; [|done].
    apply Forall_forall. intros j' _ h0 h0' v0. apply json_load_loaded. }
  apply (grown_app _ (length (h ++ e0))).
  - rewrite length_app. lia.
  - rewrite <-(app_assoc (h ++ e0)). by eapply Hj.
  - by eapply IH.
Qed.

(** A container put after its parts. *)
Lemma grown_container (h h1 ext : heap) (o : obj) :
  length h ≤ length h1 →
  grown (length h) (length h1) ((h1 ++ [o]) ++ ext) →
  Forall (λ v, val_ok (length h1) v ∧ ∀ l, v = VRef l → length h ≤ l)
    (obj_vals o) →
  grown (length h) (length (h1 ++ [o])) ((h1 ++ [o]) ++ ext).
Proof.
  intros Hle Hg Hvals. rewrite length_app. simpl.
  intros l o' Hl Ho'. destruct (decide (l < length h1)) as [Hlt|Hge].
  { apply (Hg l o'); [lia|done]. }
  assert (l = length h1) as -> by lia.
  rewrite <-app_assoc, lookup_app_r, Nat.sub_diag in Ho' by done.
  injection Ho' as <-.
  eapply Forall_impl; [done|]. intros v [Hv Hf] r ->.
  specialize (Hf r eq_refl). simpl in Hv. lia.
Qed.

Lemma json_load_grown (j : json) : grows j.
Proof.
  induction j as [| | | | |js IH|ms IH] using json_tree_ind;
    intros h h' v Hload ext;
    try (injection Hload as <- <-; apply grown_nil).
  - rewrite json_load_arr in Hload.
    destruct (load_elems js h) as [h1 vs] eqn:Hvs. injection Hload as <- <-.
    assert (loaded_all h h1 vs) as ((e1 & -> & _) & Hvals & _).
    { eapply load_elems_loaded; [|done].
      apply Forall_forall. intros j' _ h0 h0' v0. apply json_load_loaded. }
    apply grown_container; [rewrite length_app; lia| |done].
    rewrite <-app_assoc. by eapply load_elems_grown.
  - rewrite json_load_obj in Hload.
    destruct (load_members ms h) as [h1 its] eqn:Hits. injection Hload as <- <-.
    assert (loaded_all h h1 its.*2) as ((e1 & -> & _) & Hvals & _).
    { eapply load_members_loaded; [|done].
      apply Forall_forall. intros j' _ h0 h0' v0. apply json_load_loaded. }
    apply grown_container; [rewrite length_app; lia| |].
    + rewrite <-app_assoc. by eapply load_members_grown.
    + simpl. by apply dict_build_values.
Qed.

Lemma entry_locs_cons (h : heap) (m : string) (v : val) (its : dict) :
  entry_locs h ((m, v) :: its)
  = match v with
    | VRef l => if is_dict h (VRef l) then l :: entry_locs h its
                else entry_locs h its
    | _ => entry_locs h its
    end.
Proof.
  unfold entry_locs. csimpl. destruct v as [| | | | |l]; try done.
  by destruct (is_dict h (VRef l)).
Qed.

Lemma load_members_names (ms : list (string * json)) (h h1 : heap)
    (its : dict) :
  load_members ms h = (h1, its) → its.*1 = ms.*1.
Proof.
  revert h h1 its. induction ms as [|[k j] ms IH]; intros h h1 its Hload;
    simpl in Hload.
  { by injection Hload as <- <-. }
  destruct (json_load j h) as [ha v].
  destruct (load_members ms ha) as [hb its'] eqn:Hits.
  injection Hload as <- <-. csimpl. by rewrite (IH _ _ _ Hits).
Qed.

(** What is below the members [json.load] made for an object reaches none
    of the members that are dicts. *)
Lemma load_members_below (ms : list (string * json)) :
  ∀ h h1 its, load_members ms h = (h1, its) →
    ∀ ext x k, x ∈ below (h1 ++ ext) its →
      Forall (λ l, length h ≤ l < length h1 ∧ l ∉ entry_locs (h1 ++ ext) its)
        (reach k (h1 ++ ext) x).
Proof.
  induction ms as [|[key j] ms IH]; intros h h1 its Hload ext x k Hx;
    simpl in Hload.
  { injection Hload as <- <-. by apply elem_of_nil in Hx. }
  destruct (json_load j h) as [ha v] eqn:Hv.
  destruct (load_members ms ha) as [hb its'] eqn:Hits.
  injection Hload as <- <-.
  pose proof (json_load_loaded _ _ _ _ Hv) as [(e0 & Hha & _) Hvok Hfresh].
  assert (loaded_all ha hb its'.*2) as ((e1 & Hhb & _) & Hvals & _).
  { eapply load_members_loaded; [|done].
    apply Forall_forall. intros j' _ h0 h0' v0. apply json_load_loaded. }
  assert (length h ≤ length ha) as Hle0 by (subst ha; rewrite length_app; lia).
  assert (length ha ≤ length hb) as Hle1 by (subst hb; rewrite length_app; lia).
  set (h' := hb ++ ext) in *.
  assert (∀ l, l ∈ entry_locs h' its' → length ha ≤ l) as Htl.
  { intros l Hl%entry_locs_refs%elem_of_refs.
    eapply Forall_forall in Hvals as [_ Hf]; [|done]. by apply Hf. }
  assert (grown (length h) (length ha) h') as Hg.
  { unfold h'. rewrite Hhb, <-app_assoc. by eapply json_load_grown. }
  assert (∀ u, u < length ha →
            (∀ l, l ∈ entry_locs h' ((key, v) :: its') → u < l) →
            (∀ r, x = VRef r → length h ≤ r ≤ u) →
            Forall (λ l, length h ≤ l < length hb ∧
                         l ∉ entry_locs h' ((key, v) :: its'))
              (reach k h' x)) as Hhead.
  { intros u Hu Hents Hxu.
    eapply Forall_impl; [by apply (reach_grown _ _ u _ k x Hg)|].
    simpl. intros l Hl. split; [lia|]. intros Hin%Hents. lia. }
  unfold below in Hx. csimpl in Hx. fold (below h' its') in Hx.
  apply elem_of_app in Hx as [Hx|Hx].
  - destruct x as [| | | | |r]; try (destruct k; by constructor).
    destruct (dict_of h' v) as [fs|] eqn:Hfs.
    + apply dict_of_Some in Hfs as (e & -> & He).
      specialize (Hfresh e eq_refl). simpl in Hvok.
      pose proof (Hg e _ ltac:(lia) He) as Hrefs. simpl in Hrefs.
      eapply Forall_forall in Hrefs; [|done].
      specialize (Hrefs r eq_refl).
      apply (Hhead r); [lia| |].
      * intros l. rewrite entry_locs_cons.
        destruct (is_dict h' (VRef e));
          [intros [->|?%Htl]%elem_of_cons; lia|intros ?%Htl; lia].
      * intros r' [= <-]. lia.
    + apply list_elem_of_singleton in Hx as <-.
      specialize (Hfresh r eq_refl). simpl in Hvok.
      apply (Hhead r); [lia| |].
      * intros l. rewrite entry_locs_cons.
        apply is_dict_false in Hfs. rewrite Hfs. intros ?%Htl. lia.
      * intros r' [= <-]. lia.
  - eapply Forall_impl; [by apply (IH ha hb its' Hits ext x k)|].
    cbv beta. fold h'. intros l [Hl Hout]. split; [lia|].
    rewrite entry_locs_cons.
    destruct v as [| | | | |e]; try done.
    destruct (is_dict h' (VRef e)); [|done].
    intros [->|?]%elem_of_cons; [|done].
    simpl in Hvok. lia.
Qed.

(** The dicts of a target that was just loaded are new objects. *)
Lemma json_load_dicts_new (h : heap) (ms : list (string * json)) (h' : heap)
    (d : loc) (dits : dict) (l : loc) :
  json_load (JObj ms) h = (h', VRef d) → h' !! d = Some (ODict dits) →
  l ∈ dicts_of h' d dits → length h ≤ l.
Proof.
  intros Hload Hd. rewrite json_load_obj in Hload.
  destruct (load_members ms h) as [h1 its] eqn:Hits.
  injection Hload as <- <-.
  assert (loaded_all h h1 its.*2) as ((ext1 & -> & _) & Hvals & _).
  { eapply load_members_loaded; [|done].
    apply Forall_forall. intros m _ h0 h0' v0. apply json_load_loaded. }
  rewrite lookup_app_r, Nat.sub_diag in Hd by done. injection Hd as <-.
  intros [->|Hin%entry_locs_refs%elem_of_refs]%elem_of_cons.
  - rewrite length_app. lia.
  - assert (Forall (λ v, val_ok (length (h ++ ext1)) v ∧
                         ∀ l, v = VRef l → length h ≤ l) (dict_build its).*2)
      as Hdvals by (by apply dict_build_values).
    eapply Forall_forall in Hdvals as [_ Hf]; [|done]. by apply Hf.
Qed.

(** After a target is loaded, what is below the source and below the
    target reaches no dict of the target. *)
Lemma json_load_below (h : heap) (s : loc) (sits : dict)
    (ms : list (string * json)) (h' : heap) (d : loc) (dits : dict)
    (x : val) (k : nat) :
  heap_ok h → h !! s = Some (ODict sits) → NoDup ms.*1 →
  json_load (JObj ms) h = (h', VRef d) → h' !! d = Some (ODict dits) →
  x ∈ below h' sits ++ below h' dits →
  Forall (λ l, l ∉ dicts_of h' d dits) (reach k h' x).
Proof.
  intros Hok Hs Hnd Hload Hd Hx.
  pose proof (λ l, json_load_dicts_new h ms h' d dits l Hload Hd) as Hnew.
  destruct (json_load_loaded _ _ _ _ Hload) as [(ext & Hh' & _) _ _].
  apply elem_of_app in Hx as [Hx|Hx].
  - assert (val_ok (length h) x) as Hxok.
    { apply elem_of_below in Hx as (m & v & Hin & Hx).
      pose proof (heap_ok_get _ _ _ _ _ Hok Hs
                    (dict_get_elem _ _ _ (heap_ok_keys _ _ _ Hok Hs) Hin)) as Hv.
      rewrite Hh', dict_of_app in Hx by done.
      destruct (dict_of h v) as [fs|] eqn:Hfs; [|by subst].
      apply dict_of_Some in Hfs as (p & -> & Hp). destruct Hx as [f Hf].
      destruct (heap_ok_lookup _ _ _ Hok Hp) as [_ Hvs].
      eapply Forall_forall in Hvs; [done|].
      apply list_elem_of_fmap. by exists (f, x). }
    assert (Forall (λ l, l < length h) (reach k h' x)) as Hold.
    { rewrite Hh'. by apply reach_old. }
    eapply Forall_impl; [exact Hold|].
    cbv beta. intros l Hl Hin%Hnew. lia.
  - rewrite json_load_obj in Hload.
    destruct (load_members ms h) as [h1 its] eqn:Hits.
    injection Hload as <- <-.
    rewrite lookup_app_r, Nat.sub_diag in Hd by done. injection Hd as <-.
    rewrite dict_build_id in *
      by (by rewrite (load_members_names _ _ _ _ Hits)).
    eapply Forall_impl;
      [by apply (load_members_below ms h h1 its Hits [ODict its] x k)|].
    simpl. intros l [Hl Hout] [->|?]%elem_of_cons; [lia|done].
Qed.

(** ** The output files *)

Lemma json_dump_root_dict (n : nat) (h : heap) (s : loc)
    (sms : list (string * json)) :
  json_dump n h (VRef s) = Some (JObj sms) →
  ∃ sits, h !! s = Some (ODict sits).
Proof.
  intros (l & sits & [= <-] & Hs)%json_dump_JObj%is_dict_true. eauto.
Qed.

Section output_files.
Variables (os : os_path) (can_write : string → bool) (depth : nat).
Variables (ask : bool) (pattern : string).
Variables (n_targets : nat) (chosen_out_file chosen_out_dir : option string).
Variables (s : loc) (sms : list (string * json)).

(** The conditions for one target: it is a JSON object without a repeated
    member name and not too deep, and its output can be written. *)
Local Abbreviation ready := (λ (fs : gmap string file) (jb : job),
  fs !! job_target jb = Some (JsonText (JObj (job_members jb))) ∧
  json_wf (JObj (job_members jb)) ∧
  json_depth (JObj (job_members jb)) ≤ depth ∧
  out_path_of os ask pattern n_targets chosen_out_file chosen_out_dir
    (job_target jb) = Ok (job_output jb) ∧
  can_write (job_output jb) = true).

Lemma process_target_merged jb w :
  heap_ok (store w) →
  json_dump depth (store w) (VRef s) = Some (JObj sms) →
  ready (files w) jb →
  ∃ h',
    process_target os can_write depth ask pattern (VRef s) n_targets
      chosen_out_file chosen_out_dir (job_target jb) w
    = (World (written sms (files w) [jb]) h', Ok (job_output jb)) ∧
    heap_ok h' ∧ json_dump depth h' (VRef s) = Some (JObj sms).
Proof.
  intros Hok Hsrc (Hfile & Hwf & Hdepth & Hout & Hcw).
  destruct (json_dump_root_dict _ _ _ _ Hsrc) as [sits Hs].
  unfold process_target, mbind, io_bind. unfold load_json. rewrite Hfile.
  destruct (json_load (JObj (job_members jb)) (store w)) as [h1 v] eqn:Hload.
  destruct (json_load_separate _ _ _ _ _ _ Hok Hs Hload)
    as (d & dits & -> & Hsep).
  pose proof (json_load_loaded _ _ _ _ Hload) as [(ext & Hh1 & _) _ _].
  assert (json_dump depth h1 (VRef s) = Some (JObj sms)) as Hsrc1.
  { rewrite Hh1. by apply json_dump_app. }
  assert (json_dump depth h1 (VRef d) = Some (JObj (job_members jb))) as Htgt.
  { by eapply json_load_dump. }
  destruct (apply_binds_dump h1 s d sits dits depth sms (job_members jb))
    as (h2 & Hrun & Hdump); [done..| |].
  { intros x k.
    apply (json_load_below (store w) s sits (job_members jb) h1 d dits x k
             Hok Hs); [|done|].
    - by apply json_wf_obj in Hwf as [? _].
    - apply Hsep. }
  unfold in_store. simpl. rewrite Hrun, Hout. unfold save_json. simpl.
  rewrite Hcw, Hdump. exists h2. split; [done|].
  destruct (apply_binds_run _ _ _ _ _ (separate_inv _ _ _ _ _ Hsep))
    as (h1' & h2' & dits2 & _ & _ & Hrun' & _ & _ & _ & Hpr).
  assert (h2' = h2) as -> by congruence.
  split; [apply (pr_inv _ _ _ _ _ _ _ _ Hpr)|].
  destruct (loaded_source_unchanged _ _ _ _ _ _ depth Hok Hs Hload)
    as (h2' & Hrun'' & Hsame).
  assert (h2' = h2) as -> by congruence. by rewrite Hsame.
Qed.

Lemma process_merged jobs : ∀ w generated_paths,
  heap_ok (store w) →
  json_dump depth (store w) (VRef s) = Some (JObj sms) →
  Forall (λ jb, ready (files w) jb ∧ job_output jb ∉ job_target <$> jobs)
    jobs →
  ∃ h',
    process os can_write depth ask pattern (VRef s) n_targets
      chosen_out_file chosen_out_dir (job_target <$> jobs) generated_paths w
    = (World (written sms (files w) jobs) h',
       Ok (generated_paths ++ (job_output <$> jobs))).
Proof.
  induction jobs as [|jb jobs IH]; intros w gen Hok Hsrc Hall; csimpl.
  { exists (store w). rewrite app_nil_r. by destruct w. }
  apply Forall_cons in Hall as [[Hjb Hout] Hall].
  destruct (process_target_merged jb w Hok Hsrc Hjb) as (h1 & Hrun & Hok1 & Hsrc1).
  unfold mbind, io_bind. rewrite Hrun.
  destruct (IH (World (written sms (files w) [jb]) h1) (gen ++ [job_output jb]))
    as (h' & Hrest); [done..| |].
  { apply Forall_forall. intros jb' Hin.
    pose proof (proj1 (Forall_forall _ _) Hall jb' Hin)
      as [(Hfile & Hrest) Hout'].
    apply not_elem_of_cons in Hout' as [_ Hout'].
    split; [|done]. split; [|done]. unfold written. simpl.
    rewrite lookup_insert_ne; [done|]. intros Heq.
    apply Hout. rewrite Heq. right.
    apply list_elem_of_fmap. by exists jb'. }
  exists h'. rewrite Hrest. by rewrite <-app_assoc.
Qed.
End output_files.



(** * The name of an output *)

Lemma str_format_char (c : ascii) (rest base : string) :
  c ≠ "{"%char → c ≠ "}"%char →
  str_format (String c rest) None base
  = s ← str_format rest None base; Ok (String c s).
Proof.
  intros Hopen Hclose.
  destruct c as [[] [] [] [] [] [] [] []]; try done.
Qed.

Lemma str_format_text (pre rest base : string) :
  brace_free pre = true →
  str_format (pre +:+ rest) None base
  = s ← str_format rest None base; Ok (pre +:+ s).
Proof.
  induction pre as [|c pre IH].
  - intros _. change ("" +:+ rest) with rest.
    by destruct (str_format rest None base).
  - intros [[Hopen%negb_true_iff%bool_decide_eq_false
               Hclose%negb_true_iff%bool_decide_eq_false]%andb_true_iff
              Hpre]%andb_true_iff.
    change (String c pre +:+ rest) with (String c (pre +:+ rest)).
    rewrite str_format_char, IH by done.
    by destruct (str_format rest None base).
Qed.

Lemma str_format_field (post base : string) :
  str_format ("{base}" +:+ post) None base
  = s ← str_format post None base; Ok (base +:+ s).
Proof. reflexivity. Qed.

Lemma string_app_nil_r (s : string) : s +:+ "" = s.
Proof.
  induction s as [|c s IH]; [done|].
  change (String c s +:+ "") with (String c (s +:+ "")). by rewrite IH.
Qed.

Lemma str_format_plain (text base : string) :
  brace_free text = true → str_format text None base = Ok text.
Proof.
  intros Htext. rewrite <-(string_app_nil_r text) at 1.
  rewrite str_format_text by done. simpl. by rewrite string_app_nil_r.
Qed.

(** X15 (the output name for a pattern). For a pattern made of a text, the
    field [{base}] and a text, both texts without braces, the name of the
    output is the first text, the stem of the target's file name, and the
    second text, whatever characters the stem has; the output path is the
    target's directory joined with that name. A pattern without any brace
    names every output the same. *)
Theorem out_path_of_pattern (os : os_path) (pre post : string)
    (n_targets : nat) (chosen_out_file chosen_out_dir : option string)
    (dst_path : string) :
  brace_free pre = true → brace_free post = true →
  out_path_of os false (pre +:+ "{base}" +:+ post) n_targets chosen_out_file
    chosen_out_dir dst_path
  = Ok (join os (dirname os dst_path)
          (pre +:+ (splitext os (basename os dst_path)).1 +:+ post)) ∧
  out_path_of os false pre n_targets chosen_out_file chosen_out_dir dst_path
  = Ok (join os (dirname os dst_path) pre).
Proof.
  intros Hpre Hpost. unfold out_path_of, pattern_path. simpl.
  destruct (splitext os (basename os dst_path)) as [base ext]. simpl.
  rewrite str_format_text, str_format_field by done.
  by rewrite !str_format_plain.
Qed.

Lemma out_path_of_pattern_witness :
  out_path_of posixpath false ("new_" +:+ "{base}" +:+ ".json") 1 None None
    "/cfg/a{b}.json"
  = Ok "/cfg/new_a{b}.json".
Proof.
  by apply (out_path_of_pattern posixpath "new_" ".json" 1 None None
              "/cfg/a{b}.json").
Defined.

(** * Language and messages *)

Lemma lower_char_f (a : ascii) :
  lower_char a = "f"%char ↔ a = "f"%char ∨ a = "F"%char.
Proof.
  destruct a as [[] [] [] [] [] [] [] []]; vm_compute;
    (split; [intros H; try discriminate H; auto
            |intros [H|H]; try discriminate H; reflexivity]).
Qed.

Lemma lower_char_r (a : ascii) :
  lower_char a = "r"%char ↔ a = "r"%char ∨ a = "R"%char.
Proof.
  destruct a as [[] [] [] [] [] [] [] []]; vm_compute;
    (split; [intros H; try discriminate H; auto
            |intros [H|H]; try discriminate H; reflexivity]).
Qed.

Lemma prefix_fr (s : string) :
  String.prefix "fr" s = true ↔
  ∃ rest, s = String "f" (String "r" rest).
Proof.
  destruct s as [|a [|b rest]].
  - split; [done|]. by intros [rest ?].
  - change (String.prefix "fr" (String a ""))
      with (if Ascii.ascii_dec "f" a then false else false).
    split; [by destruct (Ascii.ascii_dec "f" a)|]. by intros [rest ?].
  - change (String.prefix "fr" (String a (String b rest)))
      with (if Ascii.ascii_dec "f" a
            then if Ascii.ascii_dec "r" b then String.prefix "" rest else false
            else false).
    destruct (Ascii.ascii_dec "f" a) as [<-|Hf];
      [destruct (Ascii.ascii_dec "r" b) as [<-|Hr]|].
    + split; [by eauto|]. intros _. by destruct rest.
    + split; [done|]. intros [rest' [= -> ->]]. done.
    + split; [done|]. intros [rest' [= -> -> ->]]. done.
Qed.

Lemma prefix_fr_lower (s : string) :
  String.prefix "fr" (lower s) = true ↔
  ∃ a b rest, s = String a (String b rest) ∧
    (a = "f"%char ∨ a = "F"%char) ∧ (b = "r"%char ∨ b = "R"%char).
Proof.
  rewrite prefix_fr. split.
  - intros [rest Hs]. destruct s as [|a [|b rest']]; try done.
    injection Hs as Ha Hb _. exists a, b, rest'.
    split; [done|]. split; [by apply lower_char_f|by apply lower_char_r].
  - intros (a & b & rest & -> & Ha%lower_char_f & Hb%lower_char_r).
    exists (lower rest). simpl. by rewrite Ha, Hb.
Qed.

(** X16 (which locales are French). [detect_lang] gives 'fr' or 'en'. It
    gives 'fr' exactly when the locale name in effect starts with f or F
    followed by r or R; that name is the one [getlocale] gives or, when
    that is None or empty, the one [getdefaultlocale] gives. When the name
    is taken from [getlocale], what [getdefaultlocale] would return or
    raise plays no part; when a call that is made raises, the language is
    'en'. *)
Theorem detect_lang_french (getlocale getdefaultlocale : outcome (option string)) :
  (detect_lang getlocale getdefaultlocale = "fr" ∨
   detect_lang getlocale getdefaultlocale = "en") ∧
  (detect_lang getlocale getdefaultlocale = "fr" ↔
   ∃ a b rest,
     ((a = "f"%char ∨ a = "F"%char) ∧ (b = "r"%char ∨ b = "R"%char)) ∧
     (getlocale = Ok (Some (String a (String b rest))) ∨
      ∃ first, getlocale = Ok first ∧ chosen first = false ∧
               getdefaultlocale = Ok (Some (String a (String b rest))))).
Proof.
  unfold detect_lang.
  set (lang := match _ with Ok lang => lang | Raise _ => "" end).
  split; [destruct (String.prefix "fr" lang); auto|].
  assert ((if String.prefix "fr" lang then "fr" else "en") = "fr"
          ↔ String.prefix "fr" lang = true) as ->.
  { by destruct (String.prefix "fr" lang). }
  unfold lang. clear lang.
  destruct getlocale as [first|e]; simpl.
  2:{ split; [done|]. by intros (a & b & rest & _ & [?|(first & ? & _)]). }
  destruct (chosen first) eqn:Hfirst; simpl.
  - rewrite prefix_fr_lower. split.
    + intros (a & b & rest & Hname & Hfr). exists a, b, rest.
      split; [done|]. left. destruct first as [name|]; [|done].
      simpl in Hname. by subst.
    + intros (a & b & rest & Hfr & [[= ->]|(first' & [= <-] & ? & _)]);
        [|congruence].
      by exists a, b, rest.
  - destruct getdefaultlocale as [second|e]; simpl.
    2:{ split; [done|].
        intros (a & b & rest & _ & [[= ->]|(first' & _ & _ & ?)]); done. }
    rewrite prefix_fr_lower. split.
    + intros (a & b & rest & Hname & Hfr). exists a, b, rest.
      split; [done|]. right. exists first. split_and!; [done..|].
      destruct (chosen second) eqn:Hsecond; [|done].
      destruct second as [name|]; [|done]. simpl in Hname. by subst.
    + intros (a & b & rest & Hfr & [[= ->]|(first' & _ & _ & [= ->])]);
        [done|].
      by exists a, b, rest.
Qed.

Lemma t_not_french (LANG key : string) (kwargs : list (string * string)) :
  LANG ≠ "fr" → t LANG key kwargs = t "en" key kwargs.
Proof.
  intros Hfr. unfold t. simpl.
  rewrite decide_False by done. by destruct (decide (LANG = "en")).
Qed.


(** ** The two uses of str.format *)

Section format_chars.
Variables (base : string) (kwargs : list (string * string)).

Lemma format_kw_char (c : ascii) (rest : string) :
  c ≠ "{"%char → c ≠ "}"%char →
  format_kw (String c rest) None kwargs
  = s ← format_kw rest None kwargs; Ok (String c s).
Proof. intros ??. by destruct c as [[] [] [] [] [] [] [] []]. Qed.

Lemma str_format_open (c : ascii) (rest : string) :
  c ≠ "{"%char →
  str_format (String "{" (String c rest)) None base
  = str_format (String c rest) (Some "") base.
Proof. intros ?. by destruct c as [[] [] [] [] [] [] [] []]. Qed.

Lemma format_kw_open (c : ascii) (rest : string) :
  c ≠ "{"%char →
  format_kw (String "{" (String c rest)) None kwargs
  = format_kw (String c rest) (Some "") kwargs.
Proof. intros ?. by destruct c as [[] [] [] [] [] [] [] []]. Qed.

Lemma str_format_close (c : ascii) (rest : string) :
  c ≠ "}"%char →
  str_format (String "}" (String c rest)) None base = Raise ValueError.
Proof. intros ?. by destruct c as [[] [] [] [] [] [] [] []]. Qed.

Lemma format_kw_close (c : ascii) (rest : string) :
  c ≠ "}"%char →
  format_kw (String "}" (String c rest)) None kwargs = Raise ValueError.
Proof. intros ?. by destruct c as [[] [] [] [] [] [] [] []]. Qed.

Lemma str_format_name (c : ascii) (rest name : string) :
  c ≠ "}"%char →
  str_format (String c rest) (Some name) base
  = str_format rest (Some (name +:+ String c "")) base.
Proof. intros ?. by destruct c as [[] [] [] [] [] [] [] []]. Qed.

Lemma format_kw_name (c : ascii) (rest name : string) :
  c ≠ "}"%char →
  format_kw (String c rest) (Some name) kwargs
  = format_kw rest (Some (name +:+ String c "")) kwargs.
Proof. intros ?. by destruct c as [[] [] [] [] [] [] [] []]. Qed.
End format_chars.

(** The name pattern is formatted as the messages are, with [base] as the
    one keyword argument. *)
Lemma str_format_format_kw (base : string) (n : nat) :
  ∀ pattern field, String.length pattern ≤ n →
    str_format pattern field base = format_kw pattern field [("base", base)].
Proof.
  induction n as [|n IH]; intros pattern field Hlen.
  { destruct pattern; [by destruct field|simpl in Hlen; lia]. }
  destruct pattern as [|c rest]; [by destruct field|]. simpl in Hlen.
  destruct field as [name|].
  - destruct (decide (c = "}"%char)) as [->|Hc].
    + simpl. destruct (decide (name = "base")) as [->|Hname]; [|done].
      by rewrite IH by lia.
    + rewrite str_format_name, format_kw_name by done. apply IH. lia.
  - destruct (decide (c = "{"%char)) as [->|Hopen].
    { destruct rest as [|c' rest]; [done|]. simpl in Hlen.
      destruct (decide (c' = "{"%char)) as [->|Hc'].
      - simpl. by rewrite IH by lia.
      - rewrite str_format_open, format_kw_open by done. apply IH.
        simpl. lia. }
    destruct (decide (c = "}"%char)) as [->|Hclose].
    { destruct rest as [|c' rest]; [done|]. simpl in Hlen.
      destruct (decide (c' = "}"%char)) as [->|Hc'].
      - simpl. by rewrite IH by lia.
      - by rewrite str_format_close, format_kw_close. }
    rewrite str_format_char, format_kw_char by done.
    by rewrite IH by lia.
Qed.
